(** * flutter-deadline: the annotation scanner and the Slack notification composer

    A shallow embedding of the GitHub Action of the repository
    (action/src/parser.ts, blame.ts and slack.ts) together with the
    properties its specification states about it.

    Modelling conventions.
    - A JavaScript string is a [string]; one [ascii] stands for one code unit.
      The Japanese message constants are kept as the bytes of their UTF-8
      encoding; they are only ever concatenated.
    - A JavaScript number is a [number]: an integer, NaN or an infinity.
      [parseInt] rounds to the nearest double and overflows to Infinity as
      JavaScript does.  Sums and differences are exact: those the code takes
      are of calendar fields, time values of local midnights and array
      lengths, whose exact result is a double; [month - 1] for a month read
      above 2^53 only feeds the Date constructor, which gives an invalid date
      for any such month.  Negative zero is not distinguished from zero.
    - A [Date] is its time value (milliseconds since the epoch, or NaN for an
      invalid date).  The local time zone is a fixed offset [tza] from UTC, in
      milliseconds; daylight-saving transitions are not modelled.
    - [Record<string, string>] is a [gmap string string] of the own
      properties of the object; a property read also finds the members the
      object inherits from [Object.prototype] ([getProperty]). *)

From Stdlib Require Import ZArith Lia List String Ascii DecimalString DecimalPos Bool.
From stdpp Require Import gmap strings.
Import ListNotations.
Open Scope string_scope.
Open Scope Z_scope.

(** Let [simpl] unfold the concatenation of strings on a constructor. *)
#[global] Arguments String.append !s1 s2 : simpl nomatch.

(* ================================================================= *)
(** ** JavaScript numbers and strings *)

Inductive number : Type :=
  | Num (z : Z)
  | NaN
  | Infinity (negative : bool).

Definition isNaN (x : number) : bool :=
  match x with NaN => true | Num _ | Infinity _ => false end.

(** Relational operators: every comparison with NaN is false. *)
Definition num_ltb (x y : number) : bool :=
  match x, y with
  | Num a, Num b => a <? b
  | Num _, Infinity negative => negb negative
  | Infinity negative, Num _ => negative
  | Infinity a, Infinity b => a && negb b
  | _, _ => false
  end.

Definition num_leb (x y : number) : bool :=
  match x, y with
  | Num a, Num b => a <=? b
  | Num _, Infinity negative => negb negative
  | Infinity negative, Num _ => negative
  | Infinity a, Infinity b => a || negb b
  | _, _ => false
  end.

Definition num_geb (x y : number) : bool := num_leb y x.

(** [===] on numbers. *)
Definition num_eqb (x y : number) : bool :=
  match x, y with
  | Num a, Num b => a =? b
  | Infinity a, Infinity b => Bool.eqb a b
  | _, _ => false
  end.

Definition num_add (x y : number) : number :=
  match x, y with
  | Num a, Num b => Num (a + b)
  | Num _, Infinity negative | Infinity negative, Num _ => Infinity negative
  | Infinity a, Infinity b => if Bool.eqb a b then Infinity a else NaN
  | _, _ => NaN
  end.

Definition num_sub (x y : number) : number :=
  match x, y with
  | Num a, Num b => Num (a - b)
  | Num _, Infinity negative => Infinity (negb negative)
  | Infinity negative, Num _ => Infinity negative
  | Infinity a, Infinity b => if Bool.eqb a b then NaN else Infinity a
  | _, _ => NaN
  end.

(** [Math.abs]. *)
Definition Math_abs (x : number) : number :=
  match x with
  | Num a => Num (Z.abs a)
  | NaN => NaN
  | Infinity _ => Infinity false
  end.

(** [Math.floor (x / d)] for a positive integer constant [d]. *)
Definition floor_div (x : number) (d : Z) : number :=
  match x with
  | Num a => Num (a / d)
  | NaN => NaN
  | Infinity negative => Infinity negative
  end.

(** [String(n)] for an integer. *)
Definition Z_toString (z : Z) : string :=
  NilZero.string_of_int (Z.to_int z).

(** [String(x)], also what a template literal inserts for a number. *)
Definition toString (x : number) : string :=
  match x with
  | Num z => Z_toString z
  | NaN => "NaN"
  | Infinity negative => if negative then "-Infinity" else "Infinity"
  end.

(** Truthiness of a string, and of an optional string ([undefined] and the
    empty string are falsy). *)
Definition truthy (s : string) : bool :=
  match s with EmptyString => false | String _ _ => true end.

Definition truthy_opt (o : option string) : bool :=
  match o with Some s => truthy s | None => false end.

(** [cycle n pad cur]: the first [n] characters of [cur] followed by endless
    copies of [pad]. *)
Fixpoint cycle (n : nat) (pad cur : string) : string :=
  match n with
  | O => ""
  | S n' =>
      match cur with
      | String c rest => String c (cycle n' pad rest)
      | EmptyString =>
          match pad with
          | String c rest => String c (cycle n' pad rest)
          | EmptyString => ""
          end
      end
  end.

(** [String.prototype.padStart]. *)
Definition padStart (s : string) (targetLength : nat) (padString : string) : string :=
  if (targetLength <=? String.length s)%nat then s
  else cycle (targetLength - String.length s) padString padString ++ s.

(** The polyfill slack.ts installs on [String.prototype]. *)
Definition padLeft (s : string) (len : nat) (char : string) : string :=
  padStart s len char.

(* ================================================================= *)
(** ** ECMAScript dates (ECMA-262, "Date Objects") *)

Module JSDate.

Definition msPerDay : Z := 86400000.

Definition Day (t : Z) : Z := t / msPerDay.

Definition DaysInYear (y : Z) : Z :=
  if negb (y mod 4 =? 0) then 365
  else if negb (y mod 100 =? 0) then 366
  else if negb (y mod 400 =? 0) then 365
  else 366.

Definition DayFromYear (y : Z) : Z :=
  365 * (y - 1970) + (y - 1969) / 4 - (y - 1901) / 100 + (y - 1601) / 400.

(** The largest year [y] with [DayFromYear y <= d], found from an estimate
    that is off by at most one. *)
Definition YearFromDay (d : Z) : Z :=
  let y0 := 1970 + (d * 400) / 146097 in
  if d <? DayFromYear y0 then y0 - 1
  else if DayFromYear (y0 + 1) <=? d then y0 + 1
  else y0.

Definition YearFromTime (t : Z) : Z := YearFromDay (Day t).

Definition InLeapYear (t : Z) : Z :=
  if DaysInYear (YearFromTime t) =? 366 then 1 else 0.

Definition DayWithinYear (t : Z) : Z :=
  Day t - DayFromYear (YearFromTime t).

Definition MonthFromTime (t : Z) : Z :=
  let d := DayWithinYear t in
  let leap := InLeapYear t in
  if d <? 31 then 0
  else if d <? 59 + leap then 1
  else if d <? 90 + leap then 2
  else if d <? 120 + leap then 3
  else if d <? 151 + leap then 4
  else if d <? 181 + leap then 5
  else if d <? 212 + leap then 6
  else if d <? 243 + leap then 7
  else if d <? 273 + leap then 8
  else if d <? 304 + leap then 9
  else if d <? 334 + leap then 10
  else 11.

Definition DateFromTime (t : Z) : Z :=
  let d := DayWithinYear t in
  let leap := InLeapYear t in
  match MonthFromTime t with
  | 0 => d + 1
  | 1 => d - 30
  | 2 => d - 58 - leap
  | 3 => d - 89 - leap
  | 4 => d - 119 - leap
  | 5 => d - 150 - leap
  | 6 => d - 180 - leap
  | 7 => d - 211 - leap
  | 8 => d - 242 - leap
  | 9 => d - 272 - leap
  | 10 => d - 303 - leap
  | _ => d - 333 - leap
  end.

(** Day within the year on which month [mn] (0-based) starts. *)
Definition MonthStart (mn leap : Z) : Z :=
  match mn with
  | 0 => 0
  | 1 => 31
  | 2 => 59 + leap
  | 3 => 90 + leap
  | 4 => 120 + leap
  | 5 => 151 + leap
  | 6 => 181 + leap
  | 7 => 212 + leap
  | 8 => 243 + leap
  | 9 => 273 + leap
  | 10 => 304 + leap
  | _ => 334 + leap
  end.

(** [MakeDay]: the day number of the first of month [mn] of year [ym], plus
    [date - 1]. *)
Definition MakeDay (year month date : number) : number :=
  match year, month, date with
  | Num y, Num m, Num dt =>
      let ym := y + m / 12 in
      let mn := m mod 12 in
      let leap := if DaysInYear ym =? 366 then 1 else 0 in
      Num (DayFromYear ym + MonthStart mn leap + dt - 1)
  | _, _, _ => NaN
  end.

Definition MakeDate (day : number) (time : Z) : number :=
  match day with Num d => Num (d * msPerDay + time) | _ => NaN end.

Definition TimeClip (time : number) : number :=
  match time with
  | Num t => if 8640000000000000 <? Z.abs t then NaN else Num t
  | _ => NaN
  end.

(** Years 0 to 99 given to the constructor stand for 1900 to 1999. *)
Definition MakeFullYear (year : number) : number :=
  match year with
  | Num y => if (0 <=? y) && (y <=? 99) then Num (1900 + y) else Num y
  | other => other
  end.

(** The time value of a date is an integer or NaN, never an infinity. *)
Record Date : Type := mkDate { getTime : number }.

Section LocalTime.
(** Offset of local time from UTC, in milliseconds. *)
Variable tza : Z.

Definition LocalTime (t : Z) : Z := t + tza.

Definition UTC (t : number) : number :=
  match t with Num l => Num (l - tza) | _ => NaN end.

(** [new Date(year, month, date)]. *)
Definition newDate (year month date : number) : Date :=
  mkDate (TimeClip (UTC (MakeDate (MakeDay (MakeFullYear year) month date) 0))).

Definition getFullYear (d : Date) : number :=
  match getTime d with
  | Num t => Num (YearFromTime (LocalTime t))
  | _ => NaN
  end.

Definition getMonth (d : Date) : number :=
  match getTime d with
  | Num t => Num (MonthFromTime (LocalTime t))
  | _ => NaN
  end.

Definition getDate (d : Date) : number :=
  match getTime d with
  | Num t => Num (DateFromTime (LocalTime t))
  | _ => NaN
  end.
End LocalTime.

End JSDate.

(* ================================================================= *)
(** ** Characters and string primitives *)

Definition LF : ascii := "010"%char.

(** The double quote. *)
Definition DQUOTE : ascii := "034"%char.

(** The one-character string holding a line feed. *)
Definition nl : string := String LF "".

Definition code (c : ascii) : nat := nat_of_ascii c.

Definition in_range (lo hi c : ascii) : bool :=
  (code lo <=? code c)%nat && (code c <=? code hi)%nat.

(** [\d] *)
Definition is_digit (c : ascii) : bool := in_range "0" "9" c.

(** [\w] *)
Definition is_word (c : ascii) : bool :=
  in_range "a" "z" c || in_range "A" "Z" c || is_digit c || Ascii.eqb c "_".

(** [\s], also the characters [trim] and [trimStart] remove. *)
Definition is_space (c : ascii) : bool :=
  in_range "009" "013" c || Ascii.eqb c " " || (code c =? 160)%nat.

(** [s.slice(n)] *)
Fixpoint drop (n : nat) (s : string) : string :=
  match n, s with
  | S n', String _ s' => drop n' s'
  | _, _ => s
  end.

(** [s.slice(0, n)] *)
Fixpoint take (n : nat) (s : string) : string :=
  match n, s with
  | S n', String c s' => String c (take n' s')
  | _, _ => ""
  end.

(** [s.slice(i, j)] for [0 <= i]. *)
Definition slice (s : string) (i j : nat) : string := take (j - i) (drop i s).

(** [s[i]] *)
Definition charAt (s : string) (i : nat) : option ascii := String.get i s.

Definition startsWith (s p : string) : bool := String.prefix p s.

Fixpoint trimStart (s : string) : string :=
  match s with
  | String c s' => if is_space c then trimStart s' else s
  | EmptyString => ""
  end.

Fixpoint trimEnd (s : string) : string :=
  match s with
  | String c s' =>
      match trimEnd s' with
      | EmptyString => if is_space c then "" else String c ""
      | t => String c t
      end
  | EmptyString => ""
  end.

Definition trim (s : string) : string := trimEnd (trimStart s).

(** [s.indexOf(c)] for a single character, [None] standing for -1. *)
Fixpoint indexOf (c : ascii) (s : string) : option nat :=
  match s with
  | EmptyString => None
  | String x s' =>
      if Ascii.eqb x c then Some O
      else match indexOf c s' with Some i => Some (S i) | None => None end
  end.

(** [s.split('\n')] *)
Fixpoint split_nl (s : string) : list string :=
  match s with
  | EmptyString => [""]
  | String c s' =>
      if Ascii.eqb c LF then "" :: split_nl s'
      else
        match split_nl s' with
        | l :: ls => String c l :: ls
        | [] => [String c ""]
        end
  end.

(** [l.join(sep)] *)
Definition join (sep : string) (l : list string) : string := String.concat sep l.

(** The double nearest to the integer [z], a tie going to the even
    significand of 53 bits, and an infinity from 2^1024 - 2^970 on. *)
Definition roundToDouble (z : Z) : number :=
  let a := Z.abs z in
  let e := Z.log2 a - 52 in
  if e <=? 0 then Num z
  else
    let q := a / 2 ^ e in
    let r := a mod 2 ^ e in
    let half := 2 ^ (e - 1) in
    let significand :=
      if r <? half then q
      else if half <? r then q + 1
      else if Z.even q then q else q + 1 in
    if 2 ^ 1024 <=? significand * 2 ^ e then Infinity (z <? 0)
    else Num (Z.sgn z * (significand * 2 ^ e)).

(** [parseInt(s, 10)]: leading white space, an optional sign, then the
    longest run of decimal digits, read as a double; NaN when there is no
    digit. *)
Fixpoint digits_value (acc : Z) (s : string) : Z :=
  match s with
  | String c s' =>
      if is_digit c then digits_value (10 * acc + Z.of_nat (code c - code "0")) s'
      else acc
  | EmptyString => acc
  end.

Definition parseInt (s : string) : number :=
  let t := trimStart s in
  let '(sign, body) :=
    match t with
    | String "-" r => (-1, r)
    | String "+" r => (1, r)
    | _ => (1, t)
    end in
  match body with
  | String c _ =>
      if is_digit c then roundToDouble (sign * digits_value 0 body) else NaN
  | EmptyString => NaN
  end.

(* ================================================================= *)
(** ** Regular expressions

    A backtracking matcher in continuation-passing style, with the
    priorities of ECMAScript: alternatives left to right, greedy repetition
    tries one more iteration first, lazy repetition tries to stop first, and
    an iteration that consumes nothing is rejected. *)

Module Regex.

Inductive regex : Type :=
  | Eps
  | Chr (p : ascii -> bool)
  | Seq (a b : regex)
  | Alt (a b : regex)
  | Star (greedy : bool) (a : regex)
  | Group (n : nat) (a : regex)
  | Bol
  | Eol.

Record mstate : Type := mkState {
  pos : nat;
  rest : string;
  caps : list (nat * string)
}.

Definition orElse {A : Type} (x y : option A) : option A :=
  match x with Some _ => x | None => y end.

(** Repetition of the matcher [m] of the repeated pattern, followed by the
    continuation [k].  An iteration must consume input, so there are at most
    as many iterations as characters left, and [fuel] is never exhausted. *)
Fixpoint starLoop (m : mstate -> (mstate -> option mstate) -> option mstate)
    (greedy : bool) (k : mstate -> option mstate) (fuel : nat) (st : mstate)
  : option mstate :=
  match fuel with
  | O => k st
  | S fuel' =>
      let again :=
        m st (fun st' =>
                if (pos st <? pos st')%nat then starLoop m greedy k fuel' st'
                else None) in
      if greedy then orElse again (k st) else orElse (k st) again
  end.

Fixpoint rmatch (r : regex) (st : mstate) (k : mstate -> option mstate) {struct r}
  : option mstate :=
  match r with
  | Eps => k st
  | Chr p =>
      match rest st with
      | String c s' => if p c then k (mkState (S (pos st)) s' (caps st)) else None
      | EmptyString => None
      end
  | Seq a b => rmatch a st (fun st' => rmatch b st' k)
  | Alt a b => orElse (rmatch a st k) (rmatch b st k)
  | Star greedy a => starLoop (rmatch a) greedy k (S (String.length (rest st))) st
  | Group n a =>
      rmatch a st
        (fun st' =>
           k (mkState (pos st') (rest st')
                ((n, take (pos st' - pos st) (rest st)) :: caps st')))
  | Bol => if (pos st =? 0)%nat then k st else None
  | Eol => match rest st with EmptyString => k st | String _ _ => None end
  end.

(** Pattern syntax. *)
Definition chr (c : ascii) : regex := Chr (Ascii.eqb c).
Definition notchr (c : ascii) : regex := Chr (fun x => negb (Ascii.eqb c x)).
Definition any : regex := Chr (fun _ => true).
Definition ws : regex := Chr is_space.
Definition word : regex := Chr is_word.
Definition digit : regex := Chr is_digit.
Definition star (a : regex) : regex := Star true a.
Definition plus (a : regex) : regex := Seq a (Star true a).
Definition opt (a : regex) : regex := Alt a Eps.

Fixpoint lit (s : string) : regex :=
  match s with
  | EmptyString => Eps
  | String c s' => Seq (chr c) (lit s')
  end.

Fixpoint seqs (l : list regex) : regex :=
  match l with
  | [] => Eps
  | [a] => a
  | a :: l' => Seq a (seqs l')
  end.

Fixpoint alts (l : list regex) : regex :=
  match l with
  | [] => Eps
  | [a] => a
  | a :: l' => Alt a (alts l')
  end.

(** A match object: [m.index], [m[0]] and the captures. *)
Record match_result : Type := mkMatch {
  index : nat;
  matched : string;
  groups : list (nat * string)
}.

(** The leftmost match starting at position [p] or later; [s] is the input
    from [p] on. *)
Fixpoint search (r : regex) (p : nat) (s : string) : option match_result :=
  match rmatch r (mkState p s []) Some with
  | Some st => Some (mkMatch p (take (pos st - p) s) (caps st))
  | None =>
      match s with
      | String _ s' => search r (S p) s'
      | EmptyString => None
      end
  end.

(** [re.exec(s)] with [re.lastIndex = lastIndex] for a global pattern. *)
Definition exec (r : regex) (s : string) (lastIndex : nat) : option match_result :=
  if (String.length s <? lastIndex)%nat then None
  else search r lastIndex (drop lastIndex s).

(** [s.match(re)] for a pattern without the [g] flag. *)
Definition smatch (s : string) (r : regex) : option match_result := search r 0 s.

(** [m[n]]; [None] when the group did not take part in the match. *)
Definition group (m : match_result) (n : nat) : option string :=
  match List.find (fun p => (fst p =? n)%nat) (groups m) with
  | Some (_, s) => Some s
  | None => None
  end.

(** Index just after the match. *)
Definition match_end (m : match_result) : nat :=
  (index m + String.length (matched m))%nat.

End Regex.
Import Regex.

(* ================================================================= *)
(** ** types.ts *)

Record DeadlineAnnotation : Type := mkAnnotation {
  filePath : string;
  lineNumber : Z;
  year : number;
  month : number;
  day : number;
  description : option string;
  slackMention : option string;
  codeBlock : string;
  elementName : string;
  author : option string;
  authorEmail : option string;
  deadlineDate : JSDate.Date
}.

Inductive Language : Type := ja | en.

Record ActionConfig : Type := mkConfig {
  slackChannel : option string;
  language : Language;
  customTemplate : option string;
  repository : string;
  defaultBranch : string;
  notifyDaysBefore : number;
  notifyPastDeadlines : bool;
  githubToSlackMap : gmap string string
}.

Record TextObject : Type := mkText {
  text_type : string;
  text_text : string;
  text_emoji : option bool
}.

Record SlackBlock : Type := mkBlock {
  block_type : string;
  block_text : option TextObject;
  block_fields : option (list TextObject)
}.

Record SlackMessage : Type := mkMessage {
  channel : option string;
  text : string;
  blocks : option (list SlackBlock)
}.

Record ParseResult : Type := mkParseResult {
  result_filePath : string;
  annotations : list DeadlineAnnotation;
  errors : list string
}.

(* ================================================================= *)
(** ** parser.ts *)

(** [/@Deadline\s*\(\s*([\s\S]*?)\s*\)/g] *)
Definition DEADLINE_PATTERN : regex :=
  seqs [lit "@Deadline"; star ws; chr "("; star ws;
        Group 1 (Star false any); star ws; chr ")"].

(** The three patterns [parseNamedParameter] builds from [paramName], which
    is a plain identifier at every call site. *)
Definition paramPatterns (paramName : string) : list regex :=
  [ seqs [lit paramName; star ws; chr ":"; star ws;
          chr "'"; Group 1 (star (notchr "'")); chr "'"];
    seqs [lit paramName; star ws; chr ":"; star ws;
          chr DQUOTE; Group 1 (star (notchr DQUOTE)); chr DQUOTE];
    seqs [lit paramName; star ws; chr ":"; star ws; Group 1 (plus digit)] ].

Fixpoint firstGroup1 (content : string) (patterns : list regex) : option string :=
  match patterns with
  | [] => None
  | pattern :: more =>
      match smatch content pattern with
      | Some m => group m 1
      | None => firstGroup1 content more
      end
  end.

Definition parseNamedParameter (content paramName : string) : option string :=
  firstGroup1 content (paramPatterns paramName).

(** The loop of [extractBalancedBraces] over the characters from
    [startIndex] on. *)
Fixpoint bracesLoop (s : string) (depth : Z) (started : bool) (result : string)
  : string :=
  match s with
  | EmptyString => result
  | String char s' =>
      let result := result ++ String char "" in
      if Ascii.eqb char "{" then bracesLoop s' (depth + 1) true result
      else if Ascii.eqb char "}" then
        if started && (depth - 1 =? 0) then result
        else bracesLoop s' (depth - 1) started result
      else bracesLoop s' depth started result
  end.

Definition extractBalancedBraces (content : string) (startIndex : nat) : string :=
  bracesLoop (drop startIndex content) 0 false "".

Definition truncateCodeBlock (code : string) (maxLines : nat) : string :=
  let lines := split_nl code in
  if (maxLines <? length lines)%nat
  then join nl (firstn maxLines lines) ++ nl ++ "  // ... (truncated)"
  else code.

(** The default value of [maxLines]. *)
Definition defaultMaxLines : nat := 15.

Definition getLineNumber (content : string) (index : nat) : Z :=
  Z.of_nat (length (split_nl (take index content))).

(** [/^[\s\n]*/] *)
Definition whitespaceRe : regex := Seq Bol (star ws).

(** [/^((?:abstract\s+)?class\s+(\w+)[^{]*\{)/] *)
Definition classRe : regex :=
  Seq Bol (Group 1 (seqs [opt (Seq (lit "abstract") (plus ws)); lit "class"; plus ws;
                          Group 2 (plus word); star (notchr "{"); chr "{"])).

(** [/^(mixin\s+(\w+)[^{]*\{)/] *)
Definition mixinRe : regex :=
  Seq Bol (Group 1 (seqs [lit "mixin"; plus ws;
                          Group 2 (plus word); star (notchr "{"); chr "{"])).

(** [/^(extension\s+(\w+)?[^{]*\{)/] *)
Definition extensionRe : regex :=
  Seq Bol (Group 1 (seqs [lit "extension"; plus ws;
                          opt (Group 2 (plus word)); star (notchr "{"); chr "{"])).

(** [/^(enum\s+(\w+)[^{]*\{)/] *)
Definition enumRe : regex :=
  Seq Bol (Group 1 (seqs [lit "enum"; plus ws;
                          Group 2 (plus word); star (notchr "{"); chr "{"])).

(** [[\w<>,\s]] *)
Definition is_typeChar (c : ascii) : bool :=
  is_word c || Ascii.eqb c "<" || Ascii.eqb c ">" || Ascii.eqb c "," || is_space c.

(** The function and method pattern.  Group 1 is the whole signature:
    [(?:static\s+)?], the return type
    [(?:Future<[^>]+>|Stream<[^>]+>|void|int|double|bool|String|dynamic|var|final|const|[\w<>,\s]+)],
    [\s+(?:get\s+)?], the name [(\w+)] as group 2, [\s*(?:<[^>]+>)?\s*],
    the parameter list [\([^)]*\)] and a tail of characters other than an
    opening brace and a semicolon. *)
Definition funcRe : regex :=
  Seq Bol (Group 1 (seqs [
    opt (Seq (lit "static") (plus ws));
    alts [seqs [lit "Future<"; plus (notchr ">"); chr ">"];
          seqs [lit "Stream<"; plus (notchr ">"); chr ">"];
          lit "void"; lit "int"; lit "double"; lit "bool"; lit "String";
          lit "dynamic"; lit "var"; lit "final"; lit "const";
          plus (Chr is_typeChar)];
    plus ws;
    opt (Seq (lit "get") (plus ws));
    Group 2 (plus word);
    star ws;
    opt (seqs [chr "<"; plus (notchr ">"); chr ">"]);
    star ws;
    chr "("; star (notchr ")"); chr ")";
    star (Chr (fun c => negb (Ascii.eqb c "{" || Ascii.eqb c ";")))])).

(** [/^((?:static\s+)?[\w<>,\s]+\s+get\s+(\w+))/] *)
Definition getterRe : regex :=
  Seq Bol (Group 1 (seqs [
    opt (Seq (lit "static") (plus ws));
    plus (Chr is_typeChar); plus ws; lit "get"; plus ws;
    Group 2 (plus word)])).

(** [/^((?:static\s+)?(?:final\s+|const\s+|var\s+|late\s+)?(?:[\w<>,\s]+\s+)?(\w+)\s*=)/] *)
Definition varRe : regex :=
  Seq Bol (Group 1 (seqs [
    opt (Seq (lit "static") (plus ws));
    opt (alts [Seq (lit "final") (plus ws); Seq (lit "const") (plus ws);
               Seq (lit "var") (plus ws); Seq (lit "late") (plus ws)]);
    opt (Seq (plus (Chr is_typeChar)) (plus ws));
    Group 2 (plus word);
    star ws; chr "="])).

(** [/(?:class|mixin|extension|enum|void|Future|Stream|int|double|bool|String|dynamic|var|final|const)\s+(\w+)/] *)
Definition nameRe : regex :=
  seqs [alts [lit "class"; lit "mixin"; lit "extension"; lit "enum"; lit "void";
              lit "Future"; lit "Stream"; lit "int"; lit "double"; lit "bool";
              lit "String"; lit "dynamic"; lit "var"; lit "final"; lit "const"];
        plus ws; Group 1 (plus word)].

(** The statement-end scan of the variable branch: [Some (i + 1)] for the
    first [;] met at depth zero, at index [i] of [remaining]. *)
Fixpoint statementEnd (remaining : string) (i : nat) (depth : Z) : option nat :=
  match remaining with
  | EmptyString => None
  | String char s' =>
      if Ascii.eqb char "(" || Ascii.eqb char "[" || Ascii.eqb char "{"
      then statementEnd s' (S i) (depth + 1)
      else if Ascii.eqb char ")" || Ascii.eqb char "]" || Ascii.eqb char "}"
      then statementEnd s' (S i) (depth - 1)
      else if Ascii.eqb char ";" && (depth =? 0) then Some (S i)
      else statementEnd s' (S i) depth
  end.

(** [m[n]] for a group that took part in the match. *)
Definition groupOr (m : match_result) (n : nat) (default : string) : string :=
  match group m n with Some s => s | None => default end.

(** [afterSignature.slice(0, afterSignature.indexOf(';') + 1)] *)
Definition throughSemicolon (afterSignature : string) : string :=
  match indexOf ";" afterSignature with
  | Some arrowEnd => take (arrowEnd + 1) afterSignature
  | None => ""
  end.

(** The text [extractCodeBlock] classifies: what follows the annotation,
    without its leading white space. *)
Definition codeStartOf (content : string) (annotationEndIndex : nat) : string :=
  let afterAnnotation := drop annotationEndIndex content in
  let startIndex :=
    match smatch afterAnnotation whitespaceRe with
    | Some whitespaceMatch => String.length (matched whitespaceMatch)
    | None => O
    end in
  drop startIndex afterAnnotation.

Definition extractCodeBlock (content : string) (annotationEndIndex : nat)
  : string * string :=
  let codeStart := codeStartOf content annotationEndIndex in
  let trunc code := truncateCodeBlock code defaultMaxLines in
  match smatch codeStart classRe with
  | Some classMatch =>
      (trunc (extractBalancedBraces codeStart (index classMatch)),
       groupOr classMatch 2 "")
  | None =>
  match smatch codeStart mixinRe with
  | Some mixinMatch =>
      (trunc (extractBalancedBraces codeStart (index mixinMatch)),
       groupOr mixinMatch 2 "")
  | None =>
  match smatch codeStart extensionRe with
  | Some extensionMatch =>
      (trunc (extractBalancedBraces codeStart (index extensionMatch)),
       match group extensionMatch 2 with
       | Some name => if truthy name then name else "anonymous extension"
       | None => "anonymous extension"
       end)
  | None =>
  match smatch codeStart enumRe with
  | Some enumMatch =>
      (trunc (extractBalancedBraces codeStart (index enumMatch)),
       groupOr enumMatch 2 "")
  | None =>
  match smatch codeStart funcRe with
  | Some funcMatch =>
      let afterSignature := drop (String.length (matched funcMatch)) codeStart in
      let codeBlock :=
        if startsWith (trimStart afterSignature) "{"
        then matched funcMatch ++ extractBalancedBraces (trimStart afterSignature) 0
        else if startsWith (trimStart afterSignature) "=>"
        then matched funcMatch ++ throughSemicolon afterSignature
        else matched funcMatch ++ ";" in
      (trunc codeBlock, groupOr funcMatch 2 "")
  | None =>
  match smatch codeStart getterRe with
  | Some getterMatch =>
      let afterSignature := drop (String.length (matched getterMatch)) codeStart in
      let codeBlock :=
        if startsWith (trimStart afterSignature) "{"
        then matched getterMatch ++ extractBalancedBraces (trimStart afterSignature) 0
        else if startsWith (trimStart afterSignature) "=>"
        then matched getterMatch ++ throughSemicolon afterSignature
        else "" in
      (trunc codeBlock, groupOr getterMatch 2 "")
  | None =>
  match smatch codeStart varRe with
  | Some varMatch =>
      let remaining := drop (String.length (matched varMatch)) codeStart in
      let endIndex :=
        match statementEnd remaining 0 0 with
        | Some n => (String.length (matched varMatch) + n)%nat
        | None => String.length (matched varMatch)
        end in
      (trunc (take endIndex codeStart), groupOr varMatch 2 "")
  | None =>
      let codeBlock := join nl (firstn 5 (split_nl codeStart)) in
      let elementName :=
        match smatch codeBlock nameRe with
        | Some nameMatch => groupOr nameMatch 1 ""
        | None => "unknown"
        end in
      (trunc codeBlock, elementName)
  end end end end end end end.

(** The block-comment scan of [isInsideComment]: [i] runs from 0 to [index],
    two steps at a time over a comment delimiter.  Every iteration advances
    [i], so [index] iterations are enough. *)
Fixpoint blockScan (fuel : nat) (content : string) (index i : nat)
    (inBlockComment : bool) : bool :=
  match fuel with
  | O => inBlockComment
  | S fuel' =>
      if (i <? index)%nat then
        if negb inBlockComment && String.eqb (slice content i (i + 2)) "/*"
        then blockScan fuel' content index (i + 2) true
        else if inBlockComment && String.eqb (slice content i (i + 2)) "*/"
        then blockScan fuel' content index (i + 2) false
        else blockScan fuel' content index (i + 1) inBlockComment
      else inBlockComment
  end.

(** The backward scan to the start of the line of [lineStart]. *)
Fixpoint findLineStart (content : string) (lineStart : nat) : nat :=
  match lineStart with
  | O => O
  | S before =>
      match charAt content before with
      | Some c => if Ascii.eqb c LF then lineStart else findLineStart content before
      | None => findLineStart content before
      end
  end.

Definition isInsideComment (content : string) (index : nat) : bool :=
  if blockScan index content index 0 false then true
  else
    let lineStart := findLineStart content index in
    let lineBeforeIndex := slice content lineStart index in
    match smatch lineBeforeIndex (lit "//") with
    | Some _ => true
    | None => false
    end.

(** [l.push(x)] *)
Definition push {A : Type} (l : list A) (x : A) : list A := (l ++ [x])%list.

Definition optString (o : option string) : string :=
  match o with Some s => s | None => "" end.

Section Parser.
Variable tza : Z.

(** What one iteration of the scanning loop does to the result. *)
Definition parseMatch (fileName content : string) (m : match_result)
    (result : ParseResult) : ParseResult :=
  let annotationContent := groupOr m 1 "" in
  let annotationIndex := index m in
  let annotationEndIndex := (annotationIndex + String.length (matched m))%nat in
  if isInsideComment content annotationIndex then result
  else
    let yearStr := parseNamedParameter annotationContent "year" in
    let monthStr := parseNamedParameter annotationContent "month" in
    let dayStr := parseNamedParameter annotationContent "day" in
    if negb (truthy_opt yearStr) || negb (truthy_opt monthStr)
       || negb (truthy_opt dayStr)
    then
      mkParseResult (result_filePath result) (annotations result)
        (push (errors result)
           ("Invalid @Deadline at line "
            ++ Z_toString (getLineNumber content annotationIndex)
            ++ ": missing required date parameters"))
    else
      let year := parseInt (optString yearStr) in
      let month := parseInt (optString monthStr) in
      let day := parseInt (optString dayStr) in
      if isNaN year || isNaN month || isNaN day
      then
        mkParseResult (result_filePath result) (annotations result)
          (push (errors result)
             ("Invalid @Deadline at line "
              ++ Z_toString (getLineNumber content annotationIndex)
              ++ ": invalid date values"))
      else
        let description := parseNamedParameter annotationContent "description" in
        let slackMention := parseNamedParameter annotationContent "slackMention" in
        let '(codeBlock, elementName) := extractCodeBlock content annotationEndIndex in
        let annotation :=
          mkAnnotation fileName (getLineNumber content annotationIndex)
            year month day description slackMention codeBlock elementName
            None None
            (JSDate.newDate tza year (num_sub month (Num 1)) day) in
        mkParseResult (result_filePath result)
          (push (annotations result) annotation) (errors result).

(** The [while ((match = DEADLINE_PATTERN.exec(content)) !== null)] loop.
    A match is never empty, so [lastIndex] grows at every iteration and
    [S (length content)] iterations are enough. *)
Fixpoint parseLoop (fuel : nat) (fileName content : string) (lastIndex : nat)
    (result : ParseResult) : ParseResult :=
  match fuel with
  | O => result
  | S fuel' =>
      match exec DEADLINE_PATTERN content lastIndex with
      | None => result
      | Some m =>
          parseLoop fuel' fileName content (match_end m)
            (parseMatch fileName content m result)
      end
  end.

(** The scan of a document that was read. *)
Definition parseContent (fileName content : string) : ParseResult :=
  parseLoop (S (String.length content)) fileName content 0
    (mkParseResult fileName [] []).

(** [fs.readFileSync] either returns the content ([inl]) or throws
    ([inr], the thrown error as a string). *)
Definition parseDartFile (readFileSync : string -> string + string)
    (fileName : string) : ParseResult :=
  match readFileSync fileName with
  | inr error => mkParseResult fileName [] ["Failed to read file: " ++ error]
  | inl content => parseContent fileName content
  end.
End Parser.

(* ================================================================= *)
(** ** [String.prototype.replace] with a global pattern *)

(** The replacement text for one match (GetSubstitution) of a pattern
    without capture groups: [$$], [$&], the text before and the text after
    the match; any other [$] is literal. *)
Fixpoint expandReplacement (replacement matchedText before after : string) : string :=
  match replacement with
  | EmptyString => ""
  | String "$" (String "$" r) => "$" ++ expandReplacement r matchedText before after
  | String "$" (String "&" r) => matchedText ++ expandReplacement r matchedText before after
  | String "$" (String "`" r) => before ++ expandReplacement r matchedText before after
  | String "$" (String "'" r) => after ++ expandReplacement r matchedText before after
  | String c r => String c (expandReplacement r matchedText before after)
  end.

(** The matches are taken left to right from [from]; [acc] is the output so
    far.  After an empty match the scan moves one character on. *)
Fixpoint replaceLoop (fuel : nat) (r : regex) (s : string) (from : nat)
    (replacement acc : string) : string :=
  match fuel with
  | O => acc ++ drop from s
  | S fuel' =>
      match exec r s from with
      | None => acc ++ drop from s
      | Some m =>
          let acc' :=
            acc ++ slice s from (index m)
            ++ expandReplacement replacement (matched m)
                 (take (index m) s) (drop (match_end m) s) in
          match matched m with
          | EmptyString =>
              replaceLoop fuel' r s (S (index m)) replacement
                (acc' ++ slice s (index m) (S (index m)))
          | String _ _ => replaceLoop fuel' r s (match_end m) replacement acc'
          end
      end
  end.

(** [s.replace(/r/g, replacement)] *)
Definition replaceAll (s : string) (r : regex) (replacement : string) : string :=
  replaceLoop (S (String.length s)) r s 0 replacement "".

(** [s.replace(/r/, replacement)] *)
Definition replaceFirst (s : string) (r : regex) (replacement : string) : string :=
  match smatch s r with
  | None => s
  | Some m =>
      take (index m) s
      ++ expandReplacement replacement (matched m)
           (take (index m) s) (drop (match_end m) s)
      ++ drop (match_end m) s
  end.

(* ================================================================= *)
(** ** blame.ts *)

Definition noreplyHost : string := "@users.noreply.github.com".

(** [/^\d+\+([^@]+)@users\.noreply\.github\.com$/] *)
Definition noreplyRe : regex :=
  seqs [Bol; plus digit; chr "+"; Group 1 (plus (notchr "@")); lit noreplyHost; Eol].

(** [/^([^@]+)@users\.noreply\.github\.com$/] *)
Definition oldNoreplyRe : regex :=
  seqs [Bol; Group 1 (plus (notchr "@")); lit noreplyHost; Eol].

Definition extractGitHubUsername (email : string) : option string :=
  match smatch email noreplyRe with
  | Some noreplyMatch => group noreplyMatch 1
  | None =>
      match smatch email oldNoreplyRe with
      | Some oldNoreplyMatch => group oldNoreplyMatch 1
      | None => None
      end
  end.

(* ================================================================= *)
(** ** slack.ts *)

Record Messages : Type := mkMessages {
  msg_title : string;
  msg_deadlineReached : string;
  msg_deadlineApproaching : string;
  msg_deadlinePassed : string;
  msg_daysRemaining : number -> string;
  msg_daysOverdue : number -> string;
  msg_file : string;
  msg_line : string;
  msg_element : string;
  msg_deadline : string;
  msg_author : string;
  msg_description : string;
  msg_pleaseRemove : string;
  msg_viewCode : string;
  msg_noDeadlines : string;
  msg_summary : number -> string
}.

Definition MESSAGES (lang : Language) : Messages :=
  match lang with
  | ja =>
      mkMessages
        ":warning: デッドライン通知"
        "デッドラインに達しました"
        "デッドラインが近づいています"
        "デッドラインを過ぎています"
        (fun days => "残り " ++ toString days ++ " 日")
        (fun days => toString days ++ " 日超過")
        "ファイル"
        "行"
        "対象"
        "デッドライン"
        "作成者"
        "説明"
        "このコードを削除または対応してください"
        "コードを見る"
        "本日対応が必要なデッドラインはありません"
        (fun count => toString count ++ " 件のデッドラインが見つかりました")
  | en =>
      mkMessages
        ":warning: Deadline Reminder"
        "Deadline reached"
        "Deadline approaching"
        "Deadline passed"
        (fun days => toString days ++ " day(s) remaining")
        (fun days => toString days ++ " day(s) overdue")
        "File"
        "Line"
        "Element"
        "Deadline"
        "Author"
        "Description"
        "Please remove or address this code"
        "View Code"
        "No deadlines require attention today"
        (fun count => toString count ++ " deadline(s) found")
  end.

Definition MAX_BLOCKS : nat := 30.
Definition HEADER_BLOCKS : nat := 3.

(** [getStatusEmoji] *)
Definition getStatusEmoji (daysDiff : number) : string :=
  if num_ltb daysDiff (Num 0) then ":rotating_light:"
  else if num_eqb daysDiff (Num 0) then ":alarm_clock:"
  else if num_leb daysDiff (Num 3) then ":warning:"
  else ":calendar:".

(** [getGitHubUrl]; the pattern is [/^\.\//]. *)
Definition getGitHubUrl (repo branch path : string) (line : Z) : string :=
  let cleanPath := replaceFirst path (Seq Bol (lit "./")) "" in
  "https://github.com/" ++ repo ++ "/blob/" ++ branch ++ "/" ++ cleanPath
  ++ "#L" ++ Z_toString line.

(** The text a template literal inserts for a built-in function. *)
Definition nativeFunction (name : string) : string :=
  "function " ++ name ++ "() { [native code] }".

(** The members of [Object.prototype], which an object literal and an object
    that [JSON.parse] returns inherit: the text a template literal inserts
    for the member named [key], if there is one.  All of them are truthy:
    [constructor] is the function [Object], the accessor [__proto__] gives
    the prototype object itself, the others are functions of their own
    name. *)
Definition objectPrototype (key : string) : option string :=
  if String.eqb key "constructor" then Some (nativeFunction "Object")
  else if String.eqb key "__proto__" then Some "[object Object]"
  else if existsb (String.eqb key)
            [ "__defineGetter__"; "__defineSetter__"; "hasOwnProperty";
              "__lookupGetter__"; "__lookupSetter__"; "isPrototypeOf";
              "propertyIsEnumerable"; "toString"; "valueOf"; "toLocaleString" ]
  then Some (nativeFunction key)
  else None.

(** [object[key]] on a [Record<string, string>]: the own property if there
    is one, else the inherited member; [None] stands for [undefined]. *)
Definition getProperty (object : gmap string string) (key : string)
  : option string :=
  match object !! key with
  | Some value => Some value
  | None => objectPrototype key
  end.

(** [config.githubToSlackMap[key]], when truthy. *)
Definition slackIdOf (config : ActionConfig) (key : string) : option string :=
  match getProperty (githubToSlackMap config) key with
  | Some id => if truthy id then Some id else None
  | None => None
  end.

(** The mention [<@id>] for the Slack id mapped to [key], if any. *)
Definition mentionOf (config : ActionConfig) (key : string) : option string :=
  match slackIdOf config key with
  | Some id => Some ("<@" ++ id ++ ">")
  | None => None
  end.

Definition resolveSlackMention (annotation : DeadlineAnnotation)
    (config : ActionConfig) : option string :=
  if truthy_opt (slackMention annotation) then slackMention annotation
  else
    orElse
      (if truthy_opt (authorEmail annotation) then
         let email := optString (authorEmail annotation) in
         orElse
           (match extractGitHubUsername email with
            | Some githubUsername =>
                if truthy githubUsername then mentionOf config githubUsername
                else None
            | None => None
            end)
           (mentionOf config email)
       else None)
      (if truthy_opt (author annotation)
       then mentionOf config (optString (author annotation))
       else None).

Definition mrkdwn (s : string) : TextObject := mkText "mrkdwn" s None.

Definition sectionText (s : string) : SlackBlock :=
  mkBlock "section" (Some (mrkdwn s)) None.

Definition sectionFields (l : list TextObject) : SlackBlock :=
  mkBlock "section" None (Some l).

Definition divider : SlackBlock := mkBlock "divider" None None.

(** An outcome of a [try] block: a returned value or a thrown error. *)
Inductive outcome (A : Type) : Type :=
  | Returned (a : A)
  | Thrown (error : string).
Arguments Returned {A} a.
Arguments Thrown {A} error.

Section Slack.
Variable tza : Z.

Definition getDaysDifference (deadline today : JSDate.Date) : number :=
  let deadlineTime :=
    JSDate.getTime
      (JSDate.newDate tza (JSDate.getFullYear tza deadline)
         (JSDate.getMonth tza deadline) (JSDate.getDate tza deadline)) in
  let todayTime :=
    JSDate.getTime
      (JSDate.newDate tza (JSDate.getFullYear tza today)
         (JSDate.getMonth tza today) (JSDate.getDate tza today)) in
  floor_div (num_sub deadlineTime todayTime) (1000 * 60 * 60 * 24).

Definition formatDate (date : JSDate.Date) : string :=
  let year := JSDate.getFullYear tza date in
  let month := padLeft (toString (num_add (JSDate.getMonth tza date) (Num 1))) 2 "0" in
  let day := padLeft (toString (JSDate.getDate tza date)) 2 "0" in
  toString year ++ "-" ++ month ++ "-" ++ day.

Definition buildAnnotationBlocks (annotation : DeadlineAnnotation)
    (config : ActionConfig) (today : JSDate.Date) : list SlackBlock :=
  let msg := MESSAGES (language config) in
  let daysDiff := getDaysDifference (deadlineDate annotation) today in
  let statusEmoji := getStatusEmoji daysDiff in
  let statusText :=
    if num_ltb daysDiff (Num 0)
    then msg_deadlinePassed msg ++ " (" ++ msg_daysOverdue msg (Math_abs daysDiff) ++ ")"
    else if num_eqb daysDiff (Num 0) then msg_deadlineReached msg
    else msg_deadlineApproaching msg ++ " (" ++ msg_daysRemaining msg daysDiff ++ ")" in
  let githubUrl :=
    getGitHubUrl (repository config) (defaultBranch config)
      (filePath annotation) (lineNumber annotation) in
  let mention := resolveSlackMention annotation config in
  let authorLink :=
    match author annotation with
    | Some name =>
        if truthy name then "<https://github.com/" ++ name ++ "|" ++ name ++ ">"
        else "Unknown"
    | None => "Unknown"
    end in
  let fileLink := "<" ++ githubUrl ++ "|" ++ filePath annotation ++ ">" in
  ([ sectionText
       (statusEmoji ++ " *" ++ statusText ++ "*"
        ++ (if truthy_opt mention then " " ++ optString mention else ""));
     sectionFields
       [ mrkdwn ("*" ++ msg_element msg ++ ":*" ++ nl ++ elementName annotation);
         mrkdwn ("*" ++ msg_deadline msg ++ ":*" ++ nl
                 ++ formatDate (deadlineDate annotation)) ];
     sectionFields
       [ mrkdwn ("*" ++ msg_file msg ++ ":*" ++ nl ++ fileLink ++ " ("
                 ++ msg_line msg ++ ": " ++ Z_toString (lineNumber annotation) ++ ")");
         mrkdwn ("*" ++ msg_author msg ++ ":*" ++ nl ++ authorLink) ] ]
   ++ (if truthy_opt (description annotation)
       then [ sectionText ("*" ++ msg_description msg ++ ":* "
                           ++ optString (description annotation)) ]
       else [])
   ++ [ divider ])%list.

(** The [for (const annotation of annotations)] loop of
    [buildSlackMessage], with its [break]. *)
Fixpoint displayLoop (annotations : list DeadlineAnnotation)
    (config : ActionConfig) (today : JSDate.Date)
    (blocks : list SlackBlock) (displayedCount : nat)
  : list SlackBlock * nat :=
  match annotations with
  | [] => (blocks, displayedCount)
  | annotation :: more =>
      let annotationBlocks := buildAnnotationBlocks annotation config today in
      if (MAX_BLOCKS <? length blocks + length annotationBlocks)%nat
      then (blocks, displayedCount)
      else displayLoop more config today (blocks ++ annotationBlocks)%list
             (S displayedCount)
  end.

Definition lengthOf {A : Type} (l : list A) : number := Num (Z.of_nat (length l)).

(** The notice appended when some annotations were not displayed. *)
Definition truncationBlock (config : ActionConfig) (remainingCount : number)
  : SlackBlock :=
  sectionText
    (match language config with
     | ja => "...他 " ++ toString remainingCount ++ " 件のデッドラインがあります"
     | en => "...and " ++ toString remainingCount ++ " more deadline(s)"
     end).

(** The header of the message; the pattern is [/:[^:]+:/g]. *)
Definition headerBlock (msg : Messages) : SlackBlock :=
  mkBlock "header"
    (Some (mkText "plain_text"
             (trim (replaceAll (msg_title msg)
                      (seqs [chr ":"; plus (notchr ":"); chr ":"]) ""))
             (Some true)))
    None.

Definition buildSlackMessage (annotations : list DeadlineAnnotation)
    (config : ActionConfig) (today : JSDate.Date) : SlackMessage :=
  let msg := MESSAGES (language config) in
  match annotations with
  | [] =>
      mkMessage None (msg_noDeadlines msg)
        (Some [ sectionText (":white_check_mark: " ++ msg_noDeadlines msg) ])
  | _ :: _ =>
      let blocks :=
        [ headerBlock msg;
          sectionText (msg_summary msg (lengthOf annotations));
          divider ] in
      let '(blocks, displayedCount) :=
        displayLoop annotations config today blocks 0 in
      let blocks :=
        if (displayedCount <? length annotations)%nat
        then
          let remainingCount :=
            num_sub (lengthOf annotations) (Num (Z.of_nat displayedCount)) in
          push blocks (truncationBlock config remainingCount)
        else blocks in
      mkMessage (slackChannel config)
        (msg_title msg ++ " - " ++ msg_summary msg (lengthOf annotations))
        (Some blocks)
  end.

(** The body of the loop of [buildCustomSlackMessage]: one copy of the
    template with the placeholders of one annotation replaced. *)
Definition renderAnnotation (template : string) (annotation : DeadlineAnnotation)
    (config : ActionConfig) (today : JSDate.Date) : string :=
  let annotationTemplate := template in
  let daysDiff := getDaysDifference (deadlineDate annotation) today in
  let githubUrl :=
    getGitHubUrl (repository config) (defaultBranch config)
      (filePath annotation) (lineNumber annotation) in
  let mention := resolveSlackMention annotation config in
  let annotationTemplate :=
    replaceAll annotationTemplate (lit "{{elementName}}") (elementName annotation) in
  let annotationTemplate :=
    replaceAll annotationTemplate (lit "{{filePath}}") (filePath annotation) in
  let annotationTemplate :=
    replaceAll annotationTemplate (lit "{{lineNumber}}")
      (Z_toString (lineNumber annotation)) in
  let annotationTemplate :=
    replaceAll annotationTemplate (lit "{{deadline}}")
      (formatDate (deadlineDate annotation)) in
  let annotationTemplate :=
    replaceAll annotationTemplate (lit "{{author}}")
      (if truthy_opt (author annotation) then optString (author annotation)
       else "Unknown") in
  let annotationTemplate :=
    replaceAll annotationTemplate (lit "{{description}}")
      (if truthy_opt (description annotation)
       then optString (description annotation) else "") in
  let annotationTemplate :=
    replaceAll annotationTemplate (lit "{{codeBlock}}") (codeBlock annotation) in
  let annotationTemplate :=
    replaceAll annotationTemplate (lit "{{githubUrl}}") githubUrl in
  let annotationTemplate :=
    replaceAll annotationTemplate (lit "{{daysDiff}}") (toString daysDiff) in
  let annotationTemplate :=
    replaceAll annotationTemplate (lit "{{mention}}")
      (if truthy_opt mention then optString mention else "") in
  let annotationTemplate :=
    replaceAll annotationTemplate (lit "{{slackMention}}")
      (if truthy_opt (slackMention annotation)
       then optString (slackMention annotation) else "") in
  annotationTemplate.

(** The [try] block of [buildCustomSlackMessage].  Its statements are
    string replacements, date formatting and array operations on
    well-typed values, none of which throws. *)
Definition renderTemplate (customTemplate : string)
    (annotations : list DeadlineAnnotation) (config : ActionConfig)
    (today : JSDate.Date) : outcome SlackMessage :=
  let template := customTemplate in
  let template :=
    replaceAll template (lit "{{count}}") (toString (lengthOf annotations)) in
  let template := replaceAll template (lit "{{date}}") (formatDate today) in
  let messages :=
    List.map (fun annotation => renderAnnotation template annotation config today)
      annotations in
  Returned (mkMessage (slackChannel config) (join (nl ++ nl) messages) None).

Definition buildCustomSlackMessage (annotations : list DeadlineAnnotation)
    (config : ActionConfig) (today : JSDate.Date) : SlackMessage :=
  if negb (truthy_opt (customTemplate config))
  then buildSlackMessage annotations config today
  else
    match renderTemplate (optString (customTemplate config)) annotations config today with
    | Returned message => message
    | Thrown _ => buildSlackMessage annotations config today
    end.

Definition filterAnnotationsByDate (annotations : list DeadlineAnnotation)
    (config : ActionConfig) (today : JSDate.Date) : list DeadlineAnnotation :=
  List.filter
    (fun annotation =>
       let daysDiff := getDaysDifference (deadlineDate annotation) today in
       if num_geb daysDiff (Num 0) && num_leb daysDiff (notifyDaysBefore config)
       then true
       else if num_ltb daysDiff (Num 0) && notifyPastDeadlines config
       then true
       else false)
    annotations.
End Slack.

(* ================================================================= *)
(** ** Vocabulary of the specification *)

(** Order on numbers as propositions: the order of the extended integers;
    NaN is comparable with nothing. *)
Definition num_le (x y : number) : Prop :=
  match x, y with
  | Num a, Num b => a <= b
  | Num _, Infinity negative => negative = false
  | Infinity negative, Num _ => negative = true
  | Infinity a, Infinity b => a = true \/ b = false
  | _, _ => False
  end.

Definition num_lt (x y : number) : Prop :=
  match x, y with
  | Num a, Num b => a < b
  | Num _, Infinity negative => negative = false
  | Infinity negative, Num _ => negative = true
  | Infinity a, Infinity b => a = true /\ b = false
  | _, _ => False
  end.

Section DateWindow.
Variable tza : Z.

(** A date normalized to local calendar midnight: the date rebuilt from
    its local year, month and day alone. *)
Definition localMidnight (d : JSDate.Date) : number :=
  JSDate.getTime
    (JSDate.newDate tza (JSDate.getFullYear tza d) (JSDate.getMonth tza d)
       (JSDate.getDate tza d)).

(** The time at which the local calendar day that holds the time [t]
    begins: [t] less the time the local clock shows at [t]. *)
Definition startOfLocalDay (t : Z) : Z := t - (t + tza) mod 86400000.

(** [dayDiff]: the number of days from the local midnight of the reference
    date to the local midnight of the deadline, rounded down; there is none
    when one of the two dates is invalid. *)
Definition dayDiff (deadline referenceDate : JSDate.Date) : number :=
  match localMidnight deadline, localMidnight referenceDate with
  | Num a, Num b => Num ((a - b) / 86400000)
  | _, _ => NaN
  end.

(** The notification window policy. *)
Definition notifiable (config : ActionConfig) (diff : number) : Prop :=
  (num_le (Num 0) diff /\ num_le diff (notifyDaysBefore config))
  \/ (num_lt diff (Num 0) /\ notifyPastDeadlines config = true).
End DateWindow.

Section Composer.
Variable tza : Z.

(** The block groups of a list of records, one after the other. *)
Definition groupsOf (config : ActionConfig) (today : JSDate.Date)
    (l : list DeadlineAnnotation) : list SlackBlock :=
  concat (List.map (fun a => buildAnnotationBlocks tza a config today) l).
End Composer.

(** Mention resolution as the specification words it: the candidates in
    their order of priority, the first one present wins. *)
Definition mentionCandidates (annotation : DeadlineAnnotation)
    (config : ActionConfig) : list (option string) :=
  let nonEmpty (o : option string) : option string :=
    match o with
    | Some s => if truthy s then Some s else None
    | None => None
    end in
  let lookup (key : option string) : option string :=
    match key with
    | Some k =>
        match githubToSlackMap config !! k with
        | Some id => if truthy id then Some ("<@" ++ id ++ ">") else None
        | None => None
        end
    | None => None
    end in
  [ (* 1: the record's own directive *)
    nonEmpty (slackMention annotation);
    (* 2: the username of a GitHub noreply address *)
    lookup (match nonEmpty (authorEmail annotation) with
            | Some email => extractGitHubUsername email
            | None => None
            end);
    (* 3: the raw email *)
    lookup (nonEmpty (authorEmail annotation));
    (* 4: the author's display name *)
    lookup (nonEmpty (author annotation)) ].

(** The keys that mention resolution looks up for a record. *)
Definition mentionKeys (annotation : DeadlineAnnotation) : list string :=
  (match authorEmail annotation with
   | Some email =>
       match extractGitHubUsername email with
       | Some username => [username; email]
       | None => [email]
       end
   | None => []
   end
   ++ match author annotation with
      | Some name => [name]
      | None => []
      end)%list.

Fixpoint firstPresent {A : Type} (l : list (option A)) : option A :=
  match l with
  | [] => None
  | Some x :: _ => Some x
  | None :: l' => firstPresent l'
  end.

(* ================================================================= *)
(** ** Sample data *)

Module Sample.

(** Japan Standard Time, nine hours ahead of UTC. *)
Definition JST : Z := 9 * 60 * 60 * 1000.

Definition config : ActionConfig :=
  mkConfig (Some "#deadlines") en None "anies1212/flutter-deadline" "main"
    (Num 0) false (<["octocat" := "U024BE7LH"]> ∅).

Definition withTemplate (template : string) (c : ActionConfig) : ActionConfig :=
  mkConfig (slackChannel c) (language c) (Some template) (repository c)
    (defaultBranch c) (notifyDaysBefore c) (notifyPastDeadlines c)
    (githubToSlackMap c).

Definition withPastDeadlines (c : ActionConfig) : ActionConfig :=
  mkConfig (slackChannel c) (language c) (customTemplate c) (repository c)
    (defaultBranch c) (notifyDaysBefore c) true (githubToSlackMap c).

(** A record as the scanner and the blame step leave it. *)
Definition record (name : string) (y m d : Z) : DeadlineAnnotation :=
  mkAnnotation "lib/legacy.dart" 12 (Num y) (Num m) (Num d)
    (Some "Remove the legacy API") None "void legacy() {}" name
    (Some "octocat") (Some "583231+octocat@users.noreply.github.com")
    (JSDate.newDate JST (Num y) (Num (m - 1)) (Num d)).

(** A record whose line was last changed by [name], who committed with the
    address [email]. *)
Definition authoredBy (name email : string) : DeadlineAnnotation :=
  mkAnnotation "lib/legacy.dart" 12 (Num 2025) (Num 1) (Num 15)
    (Some "Remove the legacy API") None "void legacy() {}" "legacy"
    (Some name) (Some email)
    (JSDate.newDate JST (Num 2025) (Num 0) (Num 15)).

(** 15 January 2025, 10:30 local time. *)
Definition today : JSDate.Date :=
  JSDate.mkDate (Num (1736866800000 + 37800000)).

Definition dueToday : DeadlineAnnotation := record "dueToday" 2025 1 15.
Definition dueTomorrow : DeadlineAnnotation := record "dueTomorrow" 2025 1 16.
Definition dueYesterday : DeadlineAnnotation := record "dueYesterday" 2025 1 14.
Definition dueLastMonth : DeadlineAnnotation := record "dueLastMonth" 2024 12 16.

End Sample.

(* ================================================================= *)
(** ** Calendar vocabulary *)

(** Number of days of month [m] (1 to 12) of year [y]. *)
Definition DaysInMonth (y m : Z) : Z :=
  match m with
  | 2 => if JSDate.DaysInYear y =? 366 then 29 else 28
  | 4 | 6 | 9 | 11 => 30
  | _ => 31
  end.

(** The day number, counted from the epoch, of a calendar date. *)
Definition dayNumber (y m d : Z) : Z :=
  JSDate.DayFromYear y
  + JSDate.MonthStart (m - 1) (if JSDate.DaysInYear y =? 366 then 1 else 0)
  + d - 1.

(** A valid triple: a calendar date with a four-digit year. *)
Definition validTriple (y m d : Z) : Prop :=
  1000 <= y <= 9999 /\ 1 <= m <= 12 /\ 1 <= d <= DaysInMonth y m.

(** The decimal digit [n], for [0 <= n <= 9]. *)
Definition digitChar (n : Z) : ascii := ascii_of_nat (48 + Z.to_nat n).

(** [MM] and [DD]: two digits, zero-padded. *)
Definition twoDigits (n : Z) : string :=
  String (digitChar (n / 10)) (String (digitChar (n mod 10)) "").

(** [YYYY]: four digits. *)
Definition fourDigits (n : Z) : string :=
  String (digitChar (n / 1000))
    (String (digitChar (n / 100 mod 10)) (twoDigits (n mod 100))).

(** [YYYY-MM-DD] *)
Definition isoDate (y m d : Z) : string :=
  fourDigits y ++ "-" ++ twoDigits m ++ "-" ++ twoDigits d.

(** Whether [Z_toString] and [fourDigits] agree on the [n] years from [y]. *)
Fixpoint fourDigitsAgree (n : nat) (y : Z) : bool :=
  match n with
  | O => true
  | S n' => String.eqb (Z_toString y) (fourDigits y) && fourDigitsAgree n' (y + 1)
  end.

(* ================================================================= *)
(** ** Matcher vocabulary *)

(** [st'] is [st] after some input was consumed. *)
Definition advances (st st' : mstate) : Prop :=
  (pos st <= pos st')%nat
  /\ (pos st' - pos st <= String.length (rest st))%nat
  /\ rest st' = drop (pos st' - pos st) (rest st).

(** A matcher is sound when a result it returns was returned by its
    continuation, called on a state further in the input. *)
Definition sound (m : mstate -> (mstate -> option mstate) -> option mstate) : Prop :=
  forall st k x, m st k = Some x -> exists st', advances st st' /\ k st' = Some x.

(** Patterns without capture groups. *)
Fixpoint groupFree (r : regex) : bool :=
  match r with
  | Eps | Chr _ | Bol | Eol => true
  | Seq a b | Alt a b => groupFree a && groupFree b
  | Star _ a => groupFree a
  | Group _ _ => false
  end.

(** [st'] is [st] after some input was consumed and no capture was made. *)
Definition keeps (st st' : mstate) : Prop :=
  advances st st' /\ caps st' = caps st.

(** What a pattern can match, as a relation between the state before and
    the state after the match. *)
Inductive steps : regex -> mstate -> mstate -> Prop :=
  | steps_eps st : steps Eps st st
  | steps_chr p st c s' :
      rest st = String c s' -> p c = true ->
      steps (Chr p) st (mkState (S (pos st)) s' (caps st))
  | steps_seq a b st st1 st2 :
      steps a st st1 -> steps b st1 st2 -> steps (Seq a b) st st2
  | steps_alt_l a b st st1 : steps a st st1 -> steps (Alt a b) st st1
  | steps_alt_r a b st st1 : steps b st st1 -> steps (Alt a b) st st1
  | steps_star_stop greedy a st : steps (Star greedy a) st st
  | steps_star_more greedy a st st1 st2 :
      steps a st st1 -> (pos st < pos st1)%nat ->
      steps (Star greedy a) st1 st2 -> steps (Star greedy a) st st2
  | steps_group n a st st1 :
      steps a st st1 ->
      steps (Group n a) st
        (mkState (pos st1) (rest st1)
           ((n, take (pos st1 - pos st) (rest st)) :: caps st1))
  | steps_bol st : pos st = O -> steps Bol st st
  | steps_eol st : rest st = "" -> steps Eol st st.

(** Whether every character of [s] satisfies [p]. *)
Fixpoint allChars (p : ascii -> bool) (s : string) : bool :=
  match s with
  | EmptyString => true
  | String c s' => p c && allChars p s'
  end.

(** Whether [s] does not start with a character that satisfies [p]. *)
Definition headFails (p : ascii -> bool) (s : string) : bool :=
  match s with
  | EmptyString => true
  | String c _ => negb (p c)
  end.

(** A pattern consumes input when each of its matches is further in the
    input than its start. *)
Definition consumes (r : regex) : Prop :=
  forall st x, rmatch r st Some = Some x -> advances st x /\ (pos st < pos x)%nat.

(* ================================================================= *)
(** ** Noreply addresses *)

(** [[^@]] *)
Definition notAt (c : ascii) : bool := negb (Ascii.eqb "@" c).

(** A username: one or more characters other than the at sign. *)
Definition isUsername (u : string) : Prop := u <> "" /\ allChars notAt u = true.

(** The noreply address of GitHub with the numeric id of the account:
    [id+username@users.noreply.github.com]. *)
Definition noreplyWithId (email username : string) : Prop :=
  exists id,
    id <> "" /\ allChars is_digit id = true /\ isUsername username
    /\ email = id ++ "+" ++ username ++ noreplyHost.

(** The noreply address of GitHub in its old format:
    [username@users.noreply.github.com]. *)
Definition noreplyOld (email username : string) : Prop :=
  isUsername username /\ email = username ++ noreplyHost.

(* ================================================================= *)
(** ** Scanner vocabulary *)

(** The annotation occurrences of a document, in the order in which the
    scanning loop meets them. *)
Fixpoint matchesFrom (fuel : nat) (content : string) (lastIndex : nat)
  : list match_result :=
  match fuel with
  | O => []
  | S fuel' =>
      match exec DEADLINE_PATTERN content lastIndex with
      | None => []
      | Some m => m :: matchesFrom fuel' content (match_end m)
      end
  end.

Definition annotationMatches (content : string) : list match_result :=
  matchesFrom (S (String.length content)) content 0.

(** The argument text of an occurrence: what stands between the
    parentheses. *)
Definition argumentsOf (m : match_result) : string := groupOr m 1 "".

(** The text [text] gives the parameter [name] the value [v] between two
    quote characters [q]: somewhere in the text stand the name, optional
    white space, a colon, optional white space and the quoted value. *)
Definition quotedParam (q : ascii) (text name v : string) : Prop :=
  exists pre sp1 sp2 post,
    allChars is_space sp1 = true /\ allChars is_space sp2 = true
    /\ allChars (fun c => negb (Ascii.eqb q c)) v = true
    /\ text = pre ++ name ++ sp1 ++ ":" ++ sp2 ++ String q v ++ String q post.

(** The text gives the parameter [name] the run of digits [v]. *)
Definition numberParam (text name v : string) : Prop :=
  exists pre sp1 sp2 post,
    allChars is_space sp1 = true /\ allChars is_space sp2 = true
    /\ v <> "" /\ allChars is_digit v = true
    /\ text = pre ++ name ++ sp1 ++ ":" ++ sp2 ++ v ++ post.


(** The values a text offers for a parameter. *)
Definition offers (text name v : string) : Prop :=
  quotedParam "'" text name v \/ quotedParam DQUOTE text name v
  \/ numberParam text name v.

(** The value of a digit, and of a run of digits by the position of each. *)
Definition digitValue (c : ascii) : Z := Z.of_nat (nat_of_ascii c) - 48.

Fixpoint decimal (digits : string) : Z :=
  match digits with
  | EmptyString => 0
  | String c rest =>
      digitValue c * 10 ^ Z.of_nat (String.length rest) + decimal rest
  end.

(** [v] reads as the integer [z]: after optional white space and an
    optional sign, [v] goes on with the decimal digits of [z] and then with
    something that is not a digit. *)
Definition readsInteger (v : string) (z : Z) : Prop :=
  exists sp sign digits tail,
    v = sp ++ sign ++ digits ++ tail
    /\ allChars is_space sp = true
    /\ digits <> "" /\ allChars is_digit digits = true
    /\ headFails is_digit tail = true
    /\ (((sign = "" \/ sign = "+") /\ z = decimal digits)
        \/ (sign = "-" /\ z = - decimal digits)).

(** The number [x] is what a value offered for [name] reads as. *)
Definition integerField (text name : string) (x : number) : Prop :=
  exists v z, offers text name v /\ readsInteger v z /\ x = roundToDouble z.


(** One iteration of the scanning loop, as a function of the match. *)
Definition scanStep (tza : Z) (fileName content : string)
    (result : ParseResult) (m : match_result) : ParseResult :=
  parseMatch tza fileName content m result.

(** Whether the characters [a], [b] occur next to each other in [s]. *)
Fixpoint hasPair (a b : ascii) (s : string) : bool :=
  match s with
  | String x (String y _ as t) => (Ascii.eqb x a && Ascii.eqb y b) || hasPair a b t
  | _ => false
  end.

(** The delimiter that changes the state of the block-comment scan. *)
Definition toggler (inBlockComment : bool) : ascii * ascii :=
  if inBlockComment then ("*"%char, "/"%char) else ("/"%char, "*"%char).

(** Number of occurrences of the character [c] in [s]. *)
Fixpoint countChar (c : ascii) (s : string) : nat :=
  match s with
  | EmptyString => O
  | String x s' => ((if Ascii.eqb x c then 1 else 0) + countChar c s')%nat
  end.

(** The 1-based number of the line that holds the offset [index]. *)
Definition lineOf (content : string) (index : nat) : Z :=
  1 + Z.of_nat (countChar LF (take index content)).

(** A record is well formed for a document when it comes from an
    occurrence in code: its year, month and day are what values offered
    there read as, it carries the line of the occurrence, and its date is
    built from its year, month and day. *)
Definition wellFormed (tza : Z) (content : string) (r : DeadlineAnnotation) : Prop :=
  exists m,
    In m (annotationMatches content)
    /\ isInsideComment content (index m) = false
    /\ integerField (argumentsOf m) "year" (year r)
    /\ integerField (argumentsOf m) "month" (month r)
    /\ integerField (argumentsOf m) "day" (day r)
    /\ lineNumber r = lineOf content (index m)
    /\ deadlineDate r
       = JSDate.newDate tza (year r) (num_sub (month r) (Num 1)) (day r).


Module SampleDocs.

(** An annotation inside a block comment that spans several lines. *)
Definition blockCommented : string :=
"/* retired in the last release
@Deadline(year: 2025, month: 1)
void legacy() {}
*/
void current() {}
".




End SampleDocs.

(* ================================================================= *)
(** ** Extractor vocabulary *)

Definition isBrace (c : ascii) : bool := Ascii.eqb c "{" || Ascii.eqb c "}".

(** A text without braces, such as the header of a declaration. *)
Fixpoint braceFree (s : string) : bool :=
  match s with
  | EmptyString => true
  | String c s' => negb (isBrace c) && braceFree s'
  end.

(** Texts whose braces pair up, such as the body of a declaration: read
    from depth [depth], no closing brace comes without an open one before it
    and the text ends at depth zero. *)
Fixpoint balancedFrom (depth : Z) (s : string) : bool :=
  match s with
  | EmptyString => depth =? 0
  | String c s' =>
      if Ascii.eqb c "{" then balancedFrom (depth + 1) s'
      else if Ascii.eqb c "}" then (1 <=? depth) && balancedFrom (depth - 1) s'
      else balancedFrom depth s'
  end.

Definition balanced (s : string) : bool := balancedFrom 0 s.

(** The depth counter after the text [s]. *)
Definition depthOf (s : string) : Z :=
  Z.of_nat (countChar "{" s) - Z.of_nat (countChar "}" s).

(** A span is closed when it ends with a closing brace that brings the
    counter back to zero after a brace was opened. *)
Definition closedSpan (s : string) : Prop :=
  (exists q, s = q ++ "}") /\ depthOf s = 0 /\ (0 < countChar "{" s)%nat.

(** Whether one of the four patterns of declarations with a body in braces
    (class, mixin, extension, enum) matches. *)
Definition bracedDeclaration (codeStart : string) : bool :=
  match smatch codeStart classRe, smatch codeStart mixinRe,
        smatch codeStart extensionRe, smatch codeStart enumRe with
  | None, None, None, None => false
  | _, _, _, _ => true
  end.

(** The marker that ends a truncated excerpt. *)
Definition truncationMarker : string := nl ++ "  // ... (truncated)".

Module SampleCode.

(** A class whose method has a block of its own. *)
Definition nested : string :=
"@Deadline(year: 2025, month: 1, day: 15)
class LegacyAuth extends Auth {
  void login() {
    if (ready) { start(); }
  }
}

void next() {}
".

(** A class of seventeen lines. *)
Definition long : string :=
"@Deadline(year: 2025, month: 1, day: 15)
class LegacyCache {
  int a = 1;
  int b = 2;
  int c = 3;
  int d = 4;
  int e = 5;
  int f = 6;
  int g = 7;
  int h = 8;
  void clear() {
    a = 0;
    b = 0;
    c = 0;
    d = 0;
  }
}
".

End SampleCode.

(* ================================================================= *)
(** ** Composer vocabulary *)

(** The fixed "no deadlines today" text of each language. *)
Definition noDeadlinesText (lang : Language) : string :=
  match lang with
  | en => "No deadlines require attention today"
  | ja => "本日対応が必要なデッドラインはありません"
  end.

(** The acknowledgement block: a section with the check mark and the
    text. *)
Definition acknowledgementBlock (lang : Language) : SlackBlock :=
  mkBlock "section"
    (Some (mkText "mrkdwn" (":white_check_mark: " ++ noDeadlinesText lang) None))
    None.

(** The message for no record: one acknowledgement block. *)
Definition acknowledgement (lang : Language) : SlackMessage :=
  mkMessage None (noDeadlinesText lang) (Some [acknowledgementBlock lang]).

(** The header block: the title of the language as plain text. *)
Definition header (lang : Language) : SlackBlock :=
  mkBlock "header"
    (Some (mkText "plain_text"
             match lang with
             | en => "Deadline Reminder"
             | ja => "デッドライン通知"
             end
             (Some true)))
    None.

(** The summary block: a section that states the total count. *)
Definition summary (lang : Language) (total : nat) : SlackBlock :=
  mkBlock "section"
    (Some (mkText "mrkdwn"
             match lang with
             | en => Z_toString (Z.of_nat total) ++ " deadline(s) found"
             | ja => Z_toString (Z.of_nat total)
                     ++ " 件のデッドラインが見つかりました"
             end
             None))
    None.

(** The divider block. *)
Definition rule : SlackBlock := mkBlock "divider" None None.

(** The three blocks every non-empty message starts with. *)
Definition preamble (lang : Language) (total : nat) : list SlackBlock :=
  [header lang; summary lang total; rule].

(** The notice block: a section that states how many records are left
    out. *)
Definition moreNotice (lang : Language) (left : nat) : SlackBlock :=
  mkBlock "section"
    (Some (mkText "mrkdwn"
             match lang with
             | en => "...and " ++ Z_toString (Z.of_nat left) ++ " more deadline(s)"
             | ja => "...他 " ++ Z_toString (Z.of_nat left)
                     ++ " 件のデッドラインがあります"
             end
             None))
    None.

(** The blocks of a message, none when the field is absent. *)
Definition blocksOf (message : SlackMessage) : list SlackBlock :=
  match blocks message with Some l => l | None => [] end.

(* ================================================================= *)
(** * Properties *)

(* ================================================================= *)
(** ** Strings *)

Lemma length_drop n : forall s,
  String.length (drop n s) = (String.length s - n)%nat.
Proof.
  induction n as [|n IH]; intros s; simpl; [lia|].
  destruct s; simpl; [reflexivity | apply IH].
Qed.

Lemma drop_drop a : forall b s, drop a (drop b s) = drop (b + a) s.
Proof.
  intros b. induction b as [|b IH]; intros s; simpl; [reflexivity|].
  destruct s; simpl; [destruct a; reflexivity | apply IH].
Qed.

Lemma length_take n : forall s,
  String.length (take n s) = Nat.min n (String.length s).
Proof.
  induction n as [|n IH]; intros s; simpl; [reflexivity|].
  destruct s; simpl; [reflexivity | now rewrite IH].
Qed.

Lemma take_drop n : forall s, take n s ++ drop n s = s.
Proof.
  induction n as [|n IH]; intros s; [reflexivity|].
  destruct s; simpl; [reflexivity | f_equal; apply IH].
Qed.

Lemma drop_all s : drop (String.length s) s = "".
Proof. induction s; simpl; auto. Qed.

Lemma append_nil_r s : s ++ "" = s.
Proof. induction s; simpl; congruence. Qed.

Lemma append_assoc s t u : (s ++ t) ++ u = s ++ t ++ u.
Proof. induction s; simpl; congruence. Qed.

Lemma length_append s t :
  String.length (s ++ t) = (String.length s + String.length t)%nat.
Proof. induction s; simpl; congruence. Qed.

Lemma drop_append s t : drop (String.length s) (s ++ t) = t.
Proof. induction s; simpl; auto. Qed.

Lemma take_append s t : take (String.length s) (s ++ t) = s.
Proof. induction s; simpl; congruence. Qed.

(* ================================================================= *)
(** ** The matcher *)

Module RegexFacts.

Lemma advances_refl st : advances st st.
Proof.
  unfold advances. rewrite Nat.sub_diag. simpl. repeat split; lia.
Qed.

Lemma advances_trans a b c : advances a b -> advances b c -> advances a c.
Proof.
  unfold advances. intros (H1 & H2 & H3) (H4 & H5 & H6).
  rewrite H3, length_drop in H5. rewrite H3, drop_drop in H6.
  repeat split; try lia.
  rewrite H6. f_equal. lia.
Qed.

Lemma starLoop_advances m greedy k : sound m -> forall fuel st x,
  starLoop m greedy k fuel st = Some x ->
  exists st', advances st st' /\ k st' = Some x.
Proof.
  intros Hm. induction fuel as [|fuel IH]; intros st x H; simpl in H.
  - exists st. split; [apply advances_refl | exact H].
  - assert (Hagain : forall y,
      m st (fun st' => if (pos st <? pos st')%nat
                       then starLoop m greedy k fuel st' else None) = Some y ->
      exists st', advances st st' /\ k st' = Some y).
    { intros y Hy. apply Hm in Hy. destruct Hy as (st1 & Hadv & Hk).
      destruct (pos st <? pos st1)%nat; [|discriminate].
      apply IH in Hk. destruct Hk as (st2 & Hadv2 & Hk2).
      exists st2. split; [eapply advances_trans; eassumption | exact Hk2]. }
    assert (Hstop : forall y, k st = Some y ->
      exists st', advances st st' /\ k st' = Some y).
    { intros y Hy. exists st. split; [apply advances_refl | exact Hy]. }
    unfold orElse in H.
    destruct greedy.
    + destruct (m st _) eqn:Hrun; [injection H as ->; apply Hagain; reflexivity|].
      apply Hstop. exact H.
    + destruct (k st) eqn:Hk; [injection H as ->; apply Hstop; reflexivity|].
      apply Hagain. exact H.
Qed.

Lemma rmatch_sound r : sound (rmatch r).
Proof.
  induction r as [|p|a IHa b IHb|a IHa b IHb|greedy a IHa|n a IHa| |];
    intros st k x H; simpl in H.
  - exists st. split; [apply advances_refl | exact H].
  - destruct (rest st) as [|c s'] eqn:Hrest; [discriminate|].
    destruct (p c); [|discriminate].
    eexists. split; [|exact H].
    unfold advances. simpl. rewrite Hrest.
    replace (S (pos st) - pos st)%nat with 1%nat by lia.
    simpl. repeat split; lia.
  - apply IHa in H. destruct H as (st1 & Hadv1 & H).
    apply IHb in H. destruct H as (st2 & Hadv2 & H).
    exists st2. split; [eapply advances_trans; eassumption | exact H].
  - unfold orElse in H. destruct (rmatch a st k) eqn:Ha.
    + injection H as ->. apply IHa. exact Ha.
    + apply IHb. exact H.
  - exact (starLoop_advances (rmatch a) greedy k IHa
             (S (String.length (rest st))) st x H).
  - apply IHa in H. destruct H as (st1 & Hadv & H).
    eexists. split; [|exact H].
    unfold advances in *. simpl. exact Hadv.
  - destruct (pos st =? 0)%nat; [|discriminate].
    exists st. split; [apply advances_refl | exact H].
  - destruct (rest st) eqn:Hrest; [|discriminate].
    exists st. split; [apply advances_refl | exact H].
Qed.

(** The matcher calls its continuation only on states further in the
    input: two continuations that agree there give the same result. *)
Lemma starLoop_ext m greedy k1 k2 :
  (forall st j1 j2,
     (forall st', advances st st' -> j1 st' = j2 st') -> m st j1 = m st j2) ->
  forall fuel st,
    (forall st', advances st st' -> k1 st' = k2 st') ->
    starLoop m greedy k1 fuel st = starLoop m greedy k2 fuel st.
Proof.
  intros Hm. induction fuel as [|fuel IH]; intros st Hk; simpl.
  - apply Hk, advances_refl.
  - rewrite (Hk st (advances_refl st)).
    replace (m st (fun st' => if (pos st <? pos st')%nat
                              then starLoop m greedy k1 fuel st' else None))
      with (m st (fun st' => if (pos st <? pos st')%nat
                             then starLoop m greedy k2 fuel st' else None));
      [reflexivity|].
    apply Hm. intros st' Hadv.
    destruct (pos st <? pos st')%nat; [|reflexivity].
    symmetry. apply IH. intros st'' Hadv'.
    apply Hk. eapply advances_trans; eassumption.
Qed.

Lemma rmatch_ext r : forall st k1 k2,
  (forall st', advances st st' -> k1 st' = k2 st') ->
  rmatch r st k1 = rmatch r st k2.
Proof.
  induction r as [|p|a IHa b IHb|a IHa b IHb|greedy a IHa|n a IHa| |];
    intros st k1 k2 Hk; simpl.
  - apply Hk, advances_refl.
  - destruct (rest st) as [|c s'] eqn:Hrest; [reflexivity|].
    destruct (p c); [|reflexivity].
    apply Hk. unfold advances. simpl. rewrite Hrest.
    replace (S (pos st) - pos st)%nat with 1%nat by lia.
    simpl. repeat split; lia.
  - apply IHa. intros st' Hadv. apply IHb. intros st'' Hadv'.
    apply Hk. eapply advances_trans; eassumption.
  - rewrite (IHa st k1 k2 Hk), (IHb st k1 k2 Hk). reflexivity.
  - exact (starLoop_ext (rmatch a) greedy k1 k2 IHa
             (S (String.length (rest st))) st Hk).
  - apply IHa. intros st' Hadv. apply Hk.
    unfold advances in *. simpl. exact Hadv.
  - destruct (pos st =? 0)%nat; [|reflexivity]. apply Hk, advances_refl.
  - destruct (rest st); [|reflexivity]. apply Hk, advances_refl.
Qed.

(** An iteration consumes input, so the iterations of a repetition are at
    most the characters left: its bound is never reached, and a larger one
    changes nothing. *)
Lemma starLoop_enough a greedy k fuel : forall st extra,
  (String.length (rest st) < fuel)%nat ->
  starLoop (rmatch a) greedy k (fuel + extra) st
  = starLoop (rmatch a) greedy k fuel st.
Proof.
  induction fuel as [|fuel IH]; intros st extra Hfuel; [lia|]. simpl.
  replace (rmatch a st (fun st' => if (pos st <? pos st')%nat
                                   then starLoop (rmatch a) greedy k (fuel + extra) st'
                                   else None))
    with (rmatch a st (fun st' => if (pos st <? pos st')%nat
                                  then starLoop (rmatch a) greedy k fuel st'
                                  else None));
    [reflexivity|].
  apply rmatch_ext. intros st' (Hle & Hlen & Hrest).
  destruct (pos st <? pos st')%nat eqn:Hlt; [|reflexivity].
  apply Nat.ltb_lt in Hlt. symmetry. apply IH.
  rewrite Hrest, length_drop. lia.
Qed.

(** A pattern that starts with a literal character consumes input. *)
Lemma rmatch_chr_progress c r st x :
  rmatch (Seq (chr c) r) st Some = Some x ->
  advances st x /\ (pos st < pos x)%nat.
Proof.
  intros H. simpl in H.
  destruct (rest st) as [|c' s'] eqn:Hrest; [discriminate|].
  destruct (Ascii.eqb c c'); [|discriminate].
  apply rmatch_sound in H. destruct H as (st' & Hadv & Hx). injection Hx as ->.
  assert (Hfirst : advances st (mkState (S (pos st)) s' (caps st))).
  { unfold advances. simpl. rewrite Hrest.
    replace (S (pos st) - pos st)%nat with 1%nat by lia.
    simpl. repeat split; lia. }
  split; [eapply advances_trans; eassumption|].
  destruct Hadv as (Hle & _). simpl in Hle. lia.
Qed.

(** Where a match found by [search] lies. *)
Lemma search_bounds r : forall s p m,
  search r p s = Some m ->
  (p <= index m)%nat
  /\ (index m + String.length (matched m) <= p + String.length s)%nat
  /\ exists st,
       rmatch r (mkState (index m) (drop (index m - p) s) []) Some = Some st
       /\ String.length (matched m) = (pos st - index m)%nat
       /\ groups m = caps st.
Proof.
  induction s as [|c s IH]; intros p m H; simpl in H.
  - destruct (rmatch r (mkState p "" []) Some) as [st|] eqn:Hm; [|discriminate].
    injection H as <-. simpl.
    pose proof (rmatch_sound r _ _ _ Hm) as (st' & Hadv & Hst). injection Hst as ->.
    destruct Hadv as (Hle & Hlen & _). simpl in *.
    split; [lia|]. split; [destruct (pos st - p)%nat; simpl; lia|].
    exists st. rewrite Nat.sub_diag. simpl. split; [exact Hm|].
    split; [destruct (pos st - p)%nat; simpl; lia | reflexivity].
  - destruct (rmatch r (mkState p (String c s) []) Some) as [st|] eqn:Hm.
    + injection H as <-. simpl index. simpl matched.
      pose proof (rmatch_sound r _ _ _ Hm) as (st' & Hadv & Hst). injection Hst as ->.
      destruct Hadv as (Hle & Hlen & _). simpl pos in *. simpl rest in *.
      rewrite length_take. split; [lia|]. split; [lia|].
      exists st. rewrite Nat.sub_diag. split; [exact Hm|].
      split; [lia | reflexivity].
    + apply IH in H. destruct H as (Hle & Hend & st & Hst & Hlen & Hgroups).
      simpl String.length. split; [lia|]. split; [lia|].
      exists st. split; [|split; [exact Hlen | exact Hgroups]].
      replace (index m - p)%nat with (S (index m - S p)) by lia.
      exact Hst.
Qed.

Lemma keeps_refl st : keeps st st.
Proof. split; [apply advances_refl | reflexivity]. Qed.

Lemma keeps_trans a b c : keeps a b -> keeps b c -> keeps a c.
Proof.
  intros [H1 H2] [H3 H4]. split; [eapply advances_trans; eassumption | congruence].
Qed.

(** A pattern without groups leaves the captures as they are. *)
Lemma starLoop_keeps m greedy k :
  (forall st k' x, m st k' = Some x -> exists st', keeps st st' /\ k' st' = Some x) ->
  forall fuel st x,
    starLoop m greedy k fuel st = Some x ->
    exists st', keeps st st' /\ k st' = Some x.
Proof.
  intros Hm. induction fuel as [|fuel IH]; intros st x H; simpl in H.
  - exists st. split; [apply keeps_refl | exact H].
  - assert (Hagain : forall y,
      m st (fun st' => if (pos st <? pos st')%nat
                       then starLoop m greedy k fuel st' else None) = Some y ->
      exists st', keeps st st' /\ k st' = Some y).
    { intros y Hy. apply Hm in Hy. destruct Hy as (st1 & Hkeep & Hk).
      destruct (pos st <? pos st1)%nat; [|discriminate].
      apply IH in Hk. destruct Hk as (st2 & Hkeep2 & Hk2).
      exists st2. split; [eapply keeps_trans; eassumption | exact Hk2]. }
    unfold orElse in H.
    destruct greedy.
    + destruct (m st _) eqn:Hrun; [injection H as ->; apply Hagain; reflexivity|].
      exists st. split; [apply keeps_refl | exact H].
    + destruct (k st) eqn:Hk;
        [injection H as ->; exists st; split; [apply keeps_refl | exact Hk]|].
      apply Hagain. exact H.
Qed.

Lemma rmatch_keeps r : groupFree r = true -> forall st k x,
  rmatch r st k = Some x -> exists st', keeps st st' /\ k st' = Some x.
Proof.
  induction r as [|p|a IHa b IHb|a IHa b IHb|greedy a IHa|n a IHa| |];
    intros Hfree st k x H; simpl in Hfree, H; try discriminate.
  - exists st. split; [apply keeps_refl | exact H].
  - destruct (rest st) as [|c s'] eqn:Hrest; [discriminate|].
    destruct (p c); [|discriminate].
    eexists. split; [|exact H].
    split; [|reflexivity].
    unfold advances. simpl. rewrite Hrest.
    replace (S (pos st) - pos st)%nat with 1%nat by lia.
    simpl. repeat split; lia.
  - apply andb_true_iff in Hfree. destruct Hfree as [Ha Hb].
    apply (IHa Ha) in H. destruct H as (st1 & Hk1 & H).
    apply (IHb Hb) in H. destruct H as (st2 & Hk2 & H).
    exists st2. split; [eapply keeps_trans; eassumption | exact H].
  - apply andb_true_iff in Hfree. destruct Hfree as [Ha Hb].
    unfold orElse in H. destruct (rmatch a st k) eqn:Hrun.
    + injection H as ->. apply (IHa Ha). exact Hrun.
    + apply (IHb Hb). exact H.
  - exact (starLoop_keeps (rmatch a) greedy k (IHa Hfree)
             (S (String.length (rest st))) st x H).
  - destruct (pos st =? 0)%nat; [|discriminate].
    exists st. split; [apply keeps_refl | exact H].
  - destruct (rest st); [|discriminate].
    exists st. split; [apply keeps_refl | exact H].
Qed.

(** What follows a prefix of a sequence matches where the prefix ended. *)
Lemma rmatch_seq_tail pre r st x :
  groupFree pre = true ->
  rmatch (Seq pre r) st Some = Some x ->
  exists st', caps st' = caps st /\ rmatch r st' Some = Some x.
Proof.
  intros Hfree H. simpl in H. apply (rmatch_keeps pre Hfree) in H.
  destruct H as (st' & [_ Hcaps] & H). exists st'. auto.
Qed.

(** A group that starts with a character captures a text that is not
    empty; a pattern without groups after it leaves the capture in place. *)
Lemma rmatch_group_nonempty n p g post st x :
  groupFree g = true -> groupFree post = true ->
  rmatch (Seq (Group n (Seq (Chr p) g)) post) st Some = Some x ->
  exists cap, caps x = (n, cap) :: caps st /\ cap <> "".
Proof.
  intros Hg Hpost H. simpl in H.
  destruct (rest st) as [|c s'] eqn:Hrest; [discriminate|].
  destruct (p c); [|discriminate].
  apply (rmatch_keeps g Hg) in H. destruct H as (st1 & [Hadv Hcaps1] & H).
  apply (rmatch_keeps post Hpost) in H. destruct H as (st2 & [_ Hcaps2] & Hx).
  injection Hx as ->. simpl in Hcaps1, Hcaps2.
  exists (take (pos st1 - pos st) (String c s')). split.
  - rewrite Hcaps2, Hcaps1. reflexivity.
  - destruct Hadv as (Hle & _). simpl in Hle.
    destruct (pos st1 - pos st)%nat eqn:Hd; [lia|]. simpl. discriminate.
Qed.

(** The captures of the match that [smatch] returns. *)
Lemma smatch_groups r s m :
  smatch s r = Some m ->
  exists st0 st, rmatch r st0 Some = Some st /\ caps st0 = [] /\ groups m = caps st.
Proof.
  unfold smatch. intros H. apply search_bounds in H.
  destruct H as (_ & _ & st & Hst & _ & Hgroups).
  eexists. exists st. split; [exact Hst|]. split; [reflexivity | exact Hgroups].
Qed.


Lemma exec_bounds r s lastIndex m :
  exec r s lastIndex = Some m ->
  (lastIndex <= index m)%nat /\ (match_end m <= String.length s)%nat.
Proof.
  unfold exec, match_end. intros H.
  destruct (String.length s <? lastIndex)%nat eqn:Hlen; [discriminate|].
  apply Nat.ltb_ge in Hlen.
  apply search_bounds in H. destruct H as (Hle & Hend & _).
  rewrite length_drop in Hend. lia.
Qed.

(** A match of a pattern that consumes input is not empty. *)
Lemma exec_consumes r s lastIndex m :
  consumes r -> exec r s lastIndex = Some m -> (index m < match_end m)%nat.
Proof.
  unfold exec, match_end. intros Hr H.
  destruct (String.length s <? lastIndex)%nat; [discriminate|].
  apply search_bounds in H. destruct H as (_ & _ & st & Hst & Hlen).
  apply Hr in Hst. simpl in Hst. lia.
Qed.

(** A result of the matcher is a result of its continuation on a state the
    pattern leads to. *)
Lemma starLoop_steps a greedy k :
  (forall st k' x, rmatch a st k' = Some x ->
     exists st', steps a st st' /\ k' st' = Some x) ->
  forall fuel st x,
    starLoop (rmatch a) greedy k fuel st = Some x ->
    exists st', steps (Star greedy a) st st' /\ k st' = Some x.
Proof.
  intros Ha. induction fuel as [|fuel IH]; intros st x H; simpl in H.
  - exists st. split; [constructor | exact H].
  - assert (Hagain : forall y,
      rmatch a st (fun st' => if (pos st <? pos st')%nat
                              then starLoop (rmatch a) greedy k fuel st'
                              else None) = Some y ->
      exists st', steps (Star greedy a) st st' /\ k st' = Some y).
    { intros y Hy. apply Ha in Hy. destruct Hy as (st1 & Hstep & Hk).
      destruct (pos st <? pos st1)%nat eqn:Hlt; [|discriminate].
      apply Nat.ltb_lt in Hlt.
      apply IH in Hk. destruct Hk as (st2 & Hstep2 & Hk2).
      exists st2. split; [|exact Hk2].
      eapply steps_star_more; eassumption. }
    unfold orElse in H.
    destruct greedy.
    + destruct (rmatch a st _) eqn:Hrun;
        [injection H as ->; apply Hagain; reflexivity|].
      exists st. split; [constructor | exact H].
    + destruct (k st) eqn:Hk;
        [injection H as ->; exists st; split; [constructor | exact Hk]|].
      apply Hagain. exact H.
Qed.

Lemma rmatch_steps r : forall st k x,
  rmatch r st k = Some x -> exists st', steps r st st' /\ k st' = Some x.
Proof.
  induction r as [|p|a IHa b IHb|a IHa b IHb|greedy a IHa|n a IHa| |];
    intros st k x H; simpl in H.
  - exists st. split; [constructor | exact H].
  - destruct (rest st) as [|c s'] eqn:Hrest; [discriminate|].
    destruct (p c) eqn:Hp; [|discriminate].
    eexists. split; [|exact H]. econstructor; eassumption.
  - apply IHa in H. destruct H as (st1 & Hs1 & H).
    apply IHb in H. destruct H as (st2 & Hs2 & H).
    exists st2. split; [econstructor; eassumption | exact H].
  - unfold orElse in H. destruct (rmatch a st k) eqn:Hrun.
    + injection H as ->. apply IHa in Hrun. destruct Hrun as (st1 & Hs & Hk).
      exists st1. split; [apply steps_alt_l; exact Hs | exact Hk].
    + apply IHb in H. destruct H as (st1 & Hs & Hk).
      exists st1. split; [apply steps_alt_r; exact Hs | exact Hk].
  - exact (starLoop_steps a greedy k IHa (S (String.length (rest st))) st x H).
  - apply IHa in H. destruct H as (st1 & Hs & H).
    eexists. split; [|exact H]. constructor. exact Hs.
  - destruct (pos st =? 0)%nat eqn:Hpos; [|discriminate].
    apply Nat.eqb_eq in Hpos.
    exists st. split; [constructor; exact Hpos | exact H].
  - destruct (rest st) eqn:Hrest; [|discriminate].
    exists st. split; [constructor; exact Hrest | exact H].
Qed.

(** What a repeated character class and a literal lead to. *)
Lemma steps_star_chr greedy p st st' :
  steps (Star greedy (Chr p)) st st' ->
  exists run,
    rest st = run ++ rest st' /\ allChars p run = true
    /\ pos st' = (pos st + String.length run)%nat /\ caps st' = caps st.
Proof.
  intros H. remember (Star greedy (Chr p)) as r eqn:Hr.
  induction H as [| | | | |g a st|g a st st1 st2 Hone _ Hlt Hmore IH| | |];
    try discriminate.
  - exists "". simpl. rewrite Nat.add_0_r. auto.
  - injection Hr as -> ->. specialize (IH eq_refl).
    destruct IH as (run & Hrest & Hall & Hpos & Hcaps).
    inversion Hone as [|p' st0 c s' Hc Hp| | | | | | | |]; subst.
    simpl in *. exists (String c run). simpl.
    rewrite Hc, Hrest, Hp, Hall, Hpos, Hcaps.
    repeat split; try reflexivity. lia.
Qed.

Lemma steps_lit l : forall st st',
  steps (lit l) st st' ->
  rest st = l ++ rest st'
  /\ pos st' = (pos st + String.length l)%nat /\ caps st' = caps st.
Proof.
  induction l as [|c l IH]; intros st st' H; simpl in H.
  - inversion H; subst. simpl. rewrite Nat.add_0_r. auto.
  - inversion H as [| |a b st0 st1 st2 Hone Hmore| | | | | | |]; subst.
    inversion Hone as [|p' st0 c' s' Hc Hp| | | | | | | |]; subst.
    apply Ascii.eqb_eq in Hp. subst c'.
    apply IH in Hmore. simpl in Hmore. destruct Hmore as (Hrest & Hpos & Hcaps).
    simpl. rewrite Hc, Hrest, Hpos, Hcaps. repeat split; try reflexivity. lia.
Qed.

(** A greedy repetition of a character class takes the whole run of
    characters of the class when the continuation accepts that. *)
Lemma starLoop_chr_greedy p k run : forall tail st fuel x,
  allChars p run = true -> headFails p tail = true ->
  rest st = run ++ tail -> (String.length run < fuel)%nat ->
  k (mkState (pos st + String.length run) tail (caps st)) = Some x ->
  starLoop (rmatch (Chr p)) true k fuel st = Some x.
Proof.
  induction run as [|c run IH]; intros tail st fuel x Hall Hfail Hrest Hfuel Hk.
  - destruct fuel as [|fuel]; [simpl in Hfuel; lia|]. simpl.
    simpl in Hrest, Hk. rewrite Nat.add_0_r in Hk.
    rewrite Hrest.
    assert (Hst : mkState (pos st) tail (caps st) = st)
      by (destruct st; simpl in *; congruence).
    rewrite Hst in Hk.
    destruct tail as [|c tail]; simpl in *.
    + exact Hk.
    + apply negb_true_iff in Hfail. rewrite Hfail. exact Hk.
  - destruct fuel as [|fuel]; [simpl in Hfuel; lia|]. simpl.
    simpl in Hall. apply andb_true_iff in Hall. destruct Hall as [Hc Hall].
    simpl in Hrest. rewrite Hrest, Hc. simpl pos.
    replace (pos st <? S (pos st))%nat with true
      by (symmetry; apply Nat.ltb_lt; lia).
    assert (Hrun :
      starLoop (rmatch (Chr p)) true k fuel
        (mkState (S (pos st)) (run ++ tail) (caps st)) = Some x).
    { apply (IH tail); try assumption; try reflexivity.
      - simpl in Hfuel. lia.
      - simpl. simpl in Hk. rewrite <- Hk. f_equal. f_equal. lia. }
    unfold orElse.
    match goal with
    | |- match ?t with _ => _ end = _ =>
        change t with (starLoop (rmatch (Chr p)) true k fuel
                         (mkState (S (pos st)) (run ++ tail) (caps st)))
    end.
    rewrite Hrun. reflexivity.
Qed.

(** One or more characters of a class, greedily. *)
Lemma rmatch_plus_chr p k c run tail st x :
  p c = true -> allChars p run = true -> headFails p tail = true ->
  rest st = String c run ++ tail ->
  k (mkState (pos st + S (String.length run)) tail (caps st)) = Some x ->
  rmatch (plus (Chr p)) st k = Some x.
Proof.
  intros Hc Hall Hfail Hrest Hk. unfold plus.
  change (rmatch (Seq (Chr p) (Star true (Chr p))) st k)
    with (match rest st with
          | String c0 s' =>
              if p c0
              then starLoop (rmatch (Chr p)) true k (S (String.length s'))
                     (mkState (S (pos st)) s' (caps st))
              else None
          | EmptyString => None
          end).
  simpl in Hrest. rewrite Hrest, Hc.
  apply (starLoop_chr_greedy p k run tail); try assumption; try reflexivity.
  - rewrite length_append. lia.
  - simpl. rewrite <- Hk. f_equal. f_equal. lia.
Qed.

(** The equations of the matcher. *)
Lemma rmatch_seq a b st k :
  rmatch (Seq a b) st k = rmatch a st (fun st' => rmatch b st' k).
Proof. reflexivity. Qed.

Lemma rmatch_bol s cs k : rmatch Bol (mkState 0 s cs) k = k (mkState 0 s cs).
Proof. reflexivity. Qed.

Lemma rmatch_eol p cs k : rmatch Eol (mkState p "" cs) k = k (mkState p "" cs).
Proof. reflexivity. Qed.

Lemma rmatch_chr_hit c p s cs k :
  rmatch (chr c) (mkState p (String c s) cs) k = k (mkState (S p) s cs).
Proof. simpl. rewrite Ascii.eqb_refl. reflexivity. Qed.

Lemma rmatch_group n a st k :
  rmatch (Group n a) st k
  = rmatch a st
      (fun st' =>
         k (mkState (pos st') (rest st')
              ((n, take (pos st' - pos st) (rest st)) :: caps st'))).
Proof. reflexivity. Qed.

(** A literal matches the text it spells. *)
Lemma rmatch_lit l : forall p y cs k,
  rmatch (lit l) (mkState p (l ++ y) cs) k
  = k (mkState (p + String.length l) y cs).
Proof.
  induction l as [|c l IH]; intros p y cs k; simpl.
  - rewrite Nat.add_0_r. reflexivity.
  - rewrite Ascii.eqb_refl. rewrite IH. f_equal. f_equal. lia.
Qed.

(** A search for a literal finds a match in a text that holds it. *)
Lemma search_lit_found l y x : forall p,
  exists m, search (lit l) p (x ++ l ++ y) = Some m.
Proof.
  induction x as [|c x IH]; intros p.
  - simpl append. destruct l as [|c l].
    + simpl. destruct y; simpl; eauto.
    + change (search (lit (String c l)) p (String c l ++ y))
        with (match rmatch (lit (String c l)) (mkState p (String c l ++ y) []) Some with
              | Some st => Some (mkMatch p (take (pos st - p) (String c l ++ y)) (caps st))
              | None => search (lit (String c l)) (S p) (l ++ y)
              end).
      rewrite rmatch_lit. eauto.
  - simpl append. simpl search.
    destruct (rmatch (lit l) _ Some); [eauto|]. apply IH.
Qed.

(** The replacement loop ends because no match is left, never because the
    iteration bound was reached. *)
Lemma replaceLoop_enough r s replacement fuel : forall from acc extra,
  (String.length s < fuel + from)%nat ->
  replaceLoop (fuel + extra) r s from replacement acc
  = replaceLoop fuel r s from replacement acc.
Proof.
  induction fuel as [|fuel IH]; intros from acc extra Hfuel.
  - simpl. destruct extra as [|extra]; [reflexivity|]. simpl.
    unfold exec. replace (String.length s <? from)%nat with true
      by (symmetry; apply Nat.ltb_lt; lia).
    reflexivity.
  - simpl. destruct (exec r s from) as [m|] eqn:Hm; [|reflexivity].
    apply exec_bounds in Hm. destruct Hm as [Hle _].
    destruct (matched m) eqn:Hmatched.
    + apply IH. lia.
    + apply IH. unfold match_end. rewrite Hmatched. simpl. lia.
Qed.

End RegexFacts.

(* ================================================================= *)
(** ** Numbers *)

Lemma num_leb_le x y : num_leb x y = true <-> num_le x y.
Proof.
  destruct x as [a| |[|]], y as [b| |[|]]; simpl;
    try apply Z.leb_le; intuition (discriminate || auto).
Qed.

Lemma num_ltb_lt x y : num_ltb x y = true <-> num_lt x y.
Proof.
  destruct x as [a| |[|]], y as [b| |[|]]; simpl;
    try apply Z.ltb_lt; intuition (discriminate || auto).
Qed.

Lemma num_le_lt_excl x : num_le (Num 0) x -> num_lt x (Num 0) -> False.
Proof. destruct x; simpl; [lia | tauto | congruence]. Qed.

(** The time value of a constructed date is an integer or NaN. *)
Lemma TimeClip_cases x :
  JSDate.TimeClip x = NaN \/ exists t, JSDate.TimeClip x = Num t.
Proof.
  destruct x as [t| |negative]; simpl; [|auto..].
  destruct (8640000000000000 <? Z.abs t); eauto.
Qed.

(* ================================================================= *)
(** ** The date window filter *)

Section DateWindowFacts.
Variable tza : Z.

Lemma localMidnight_cases d :
  localMidnight tza d = NaN \/ exists t, localMidnight tza d = Num t.
Proof. unfold localMidnight, JSDate.newDate. apply TimeClip_cases. Qed.

(** What the code computes is [dayDiff]: the subtraction and the rounded
    division give the floor of the quotient by the length of a day. *)
Lemma getDaysDifference_dayDiff deadline today :
  getDaysDifference tza deadline today = dayDiff tza deadline today.
Proof.
  unfold getDaysDifference, dayDiff.
  fold (localMidnight tza deadline). fold (localMidnight tza today).
  destruct (localMidnight_cases deadline) as [-> | [a ->]];
    destruct (localMidnight_cases today) as [-> | [b ->]]; reflexivity.
Qed.

(** [dayDiff] is the floor of the difference of the two midnights in days. *)
Lemma dayDiff_floor deadline today n :
  dayDiff tza deadline today = Num n
  <-> exists a b,
        localMidnight tza deadline = Num a /\ localMidnight tza today = Num b
        /\ n * 86400000 <= a - b < (n + 1) * 86400000.
Proof.
  unfold dayDiff. split.
  - destruct (localMidnight tza deadline) as [a| |]; try discriminate.
    destruct (localMidnight tza today) as [b| |]; try discriminate.
    intros [= <-]. exists a, b. split; [reflexivity|]. split; [reflexivity|].
    pose proof (Z.div_mod (a - b) 86400000 ltac:(discriminate)).
    pose proof (Z.mod_pos_bound (a - b) 86400000 ltac:(reflexivity)). lia.
  - intros (a & b & -> & -> & Hn). f_equal. symmetry.
    apply (Z.div_unique _ _ _ (a - b - n * 86400000)); lia.
Qed.

(** The callback of [filterAnnotationsByDate] decides the window policy. *)
Lemma window_test_spec config diff :
  (if num_geb diff (Num 0) && num_leb diff (notifyDaysBefore config) then true
   else if num_ltb diff (Num 0) && notifyPastDeadlines config then true
   else false) = true
  <-> notifiable config diff.
Proof.
  unfold notifiable, num_geb.
  rewrite <- !num_leb_le, <- num_ltb_lt.
  destruct (num_leb (Num 0) diff), (num_leb diff (notifyDaysBefore config)),
    (num_ltb diff (Num 0)), (notifyPastDeadlines config); simpl;
    intuition discriminate.
Qed.

Lemma filterAnnotationsByDate_In annotations config today a :
  In a (filterAnnotationsByDate tza annotations config today)
  <-> In a annotations
      /\ notifiable config (dayDiff tza (deadlineDate a) today).
Proof.
  unfold filterAnnotationsByDate.
  rewrite filter_In, getDaysDifference_dayDiff.
  now rewrite window_test_spec.
Qed.
End DateWindowFacts.

(** C10.  [filterAnnotationsByDate] returns a subsequence of its input: the
    records it returns are input records, unchanged and in their input
    order, none repeated and none new. *)
Theorem filterAnnotationsByDate_sublist
    (tza : Z) (annotations : list DeadlineAnnotation) (config : ActionConfig)
    (today : JSDate.Date) :
  let kept := filterAnnotationsByDate tza annotations config today in
  sublist kept annotations
  /\ (forall a, In a kept -> In a annotations)
  /\ (length kept <= length annotations)%nat
  /\ (List.NoDup annotations -> List.NoDup kept).
Proof.
  cbv zeta. unfold filterAnnotationsByDate.
  set (keep := fun annotation : DeadlineAnnotation => _).
  assert (Hsub : sublist (List.filter keep annotations) annotations).
  { induction annotations as [|a l IH]; simpl.
    - constructor.
    - destruct (keep a); [apply sublist_skip | apply sublist_cons]; exact IH. }
  split; [exact Hsub|].
  split; [intros a Ha; apply filter_In in Ha; tauto|].
  split; [apply List.filter_length_le|].
  intro Hnd. apply List.NoDup_filter. exact Hnd.
Qed.

(** *** Decimal texts *)

Lemma string_of_uint_digits d : allChars is_digit (NilEmpty.string_of_uint d) = true.
Proof.
  induction d as [|d IH|d IH|d IH|d IH|d IH|d IH|d IH|d IH|d IH|d IH];
    [reflexivity|..]; cbn [NilEmpty.string_of_uint allChars];
    change (is_digit _) with true in |- * at 1; exact IH.
Qed.

Lemma to_uint_not_nil p : Pos.to_uint p <> Decimal.Nil.
Proof.
  intros H. pose proof (DecimalPos.Unsigned.of_to p) as Hp.
  rewrite H in Hp. discriminate.
Qed.

Lemma Z_toString_pos p : Z_toString (Z.pos p) = NilEmpty.string_of_uint (Pos.to_uint p).
Proof.
  unfold Z_toString. simpl. pose proof (to_uint_not_nil p).
  destruct (Pos.to_uint p); [congruence | reflexivity..].
Qed.

Lemma string_of_uint_nonempty p : NilEmpty.string_of_uint (Pos.to_uint p) <> "".
Proof.
  pose proof (to_uint_not_nil p). destruct (Pos.to_uint p); [congruence | discriminate..].
Qed.

(** The decimal text of a natural number starts with a digit. *)
Lemma Z_toString_head n :
  0 <= n -> exists c rest, Z_toString n = String c rest /\ is_digit c = true.
Proof.
  destruct n as [|p|p]; [exists "0"%char, ""; split; reflexivity | | lia].
  intros _. rewrite Z_toString_pos.
  pose proof (string_of_uint_nonempty p) as Hne.
  pose proof (string_of_uint_digits (Pos.to_uint p)) as Hall.
  destruct (NilEmpty.string_of_uint (Pos.to_uint p)) as [|c rest]; [congruence|].
  simpl in Hall. apply andb_true_iff in Hall. exists c, rest. tauto.
Qed.

(** C8.  For an empty record list [buildSlackMessage] returns the
    acknowledgement message: exactly one block, a section that carries the
    check mark and the fixed "no deadlines today" text of the configured
    language ("No deadlines require attention today" in English), and no
    header, summary or divider.  The message depends on the language alone:
    the records' logic is not run. *)
Theorem buildSlackMessage_empty
    (tza : Z) (config : ActionConfig) (today : JSDate.Date) :
  let lang := language config in
  buildSlackMessage tza [] config today
  = mkMessage None (noDeadlinesText lang)
      (Some [ mkBlock "section"
                (Some (mkText "mrkdwn"
                         (":white_check_mark: " ++ noDeadlinesText lang) None))
                None ])
  /\ blocksOf (buildSlackMessage tza [] config today) = [acknowledgementBlock lang]
  /\ noDeadlinesText en = "No deadlines require attention today"
  /\ acknowledgementBlock lang <> header lang
  /\ acknowledgementBlock lang <> rule
  /\ (forall total, acknowledgementBlock lang <> summary lang total)
  /\ (forall left, acknowledgementBlock lang <> moreNotice lang left).
Proof.
  intros lang. subst lang.
  assert (H : buildSlackMessage tza [] config today
              = acknowledgement (language config))
    by (unfold buildSlackMessage, acknowledgement, acknowledgementBlock,
          noDeadlinesText; destruct (language config); reflexivity).
  split; [exact H|]. split; [rewrite H; reflexivity|]. split; [reflexivity|].
  split; [discriminate|]. split; [discriminate|]. split.
  - intros total Heq.
    destruct (Z_toString_head (Z.of_nat total) ltac:(lia)) as (c & rest & Hs & Hc).
    unfold acknowledgementBlock, summary in Heq. rewrite Hs in Heq.
    destruct (language config); simpl in Heq; injection Heq as Heq _; subst c;
      vm_compute in Hc; discriminate.
  - intros left Heq. unfold acknowledgementBlock, moreNotice in Heq.
    destruct (language config); simpl in Heq; discriminate.
Qed.

(* ================================================================= *)
(** ** The default layout *)

Section ComposerFacts.
Variable tza : Z.
Variable config : ActionConfig.
Variable today : JSDate.Date.

Lemma buildAnnotationBlocks_length a :
  (4 <= length (buildAnnotationBlocks tza a config today) <= 5)%nat.
Proof.
  unfold buildAnnotationBlocks.
  destruct (truthy_opt (description a)); simpl; lia.
Qed.

Lemma groupsOf_cons a l :
  groupsOf tza config today (a :: l)
  = (buildAnnotationBlocks tza a config today ++ groupsOf tza config today l)%list.
Proof. reflexivity. Qed.

Lemma groupsOf_length_lower l :
  (4 * length l <= length (groupsOf tza config today l))%nat.
Proof.
  induction l as [|a l IH]; [simpl; lia|].
  rewrite groupsOf_cons, length_app.
  pose proof (buildAnnotationBlocks_length a).
  change (length (a :: l)) with (S (length l)). lia.
Qed.

Lemma displayLoop_cons a l blocks shown :
  displayLoop tza (a :: l) config today blocks shown
  = if (MAX_BLOCKS <? length blocks
                      + length (buildAnnotationBlocks tza a config today))%nat
    then (blocks, shown)
    else displayLoop tza l config today
           (blocks ++ buildAnnotationBlocks tza a config today)%list (S shown).
Proof. reflexivity. Qed.

(** The loop displays a prefix of the records: the longest one whose
    groups fit, one whole group at a time. *)
Lemma displayLoop_prefix l : forall blocks shown,
  exists k,
    (k <= length l)%nat
    /\ displayLoop tza l config today blocks shown
       = ((blocks ++ groupsOf tza config today (firstn k l))%list, (shown + k)%nat)
    /\ ((length blocks <= MAX_BLOCKS)%nat ->
        (length blocks + length (groupsOf tza config today (firstn k l))
         <= MAX_BLOCKS)%nat)
    /\ ((k < length l)%nat ->
        (MAX_BLOCKS
         < length blocks + length (groupsOf tza config today (firstn (S k) l)))%nat).
Proof.
  induction l as [|a l IH]; intros blocks shown.
  - exists O. simpl. rewrite app_nil_r, Nat.add_0_r.
    split; [lia|]. split; [reflexivity|]. split; lia.
  - rewrite displayLoop_cons.
    destruct (MAX_BLOCKS <? length blocks
                           + length (buildAnnotationBlocks tza a config today))%nat
      eqn:Hfull.
    + exists O. change (firstn 0 (a :: l)) with (@nil DeadlineAnnotation).
      change (groupsOf tza config today []) with (@nil SlackBlock).
      rewrite app_nil_r, Nat.add_0_r.
      apply Nat.ltb_lt in Hfull.
      split; [simpl; lia|]. split; [reflexivity|]. split; [simpl; lia|].
      intros _. change (firstn 1 (a :: l)) with [a].
      rewrite groupsOf_cons.
      change (groupsOf tza config today []) with (@nil SlackBlock).
      rewrite app_nil_r. exact Hfull.
    + apply Nat.ltb_ge in Hfull.
      destruct (IH (blocks ++ buildAnnotationBlocks tza a config today)%list
                  (S shown)) as (k & Hk & Heq & Hfit & Hstop).
      exists (S k). rewrite Heq. rewrite length_app in Hfit, Hstop.
      change (firstn (S k) (a :: l)) with (a :: firstn k l).
      change (firstn (S (S k)) (a :: l)) with (a :: firstn (S k) l).
      rewrite !groupsOf_cons, !length_app.
      split; [simpl; lia|].
      split; [rewrite <- app_assoc; f_equal; lia|].
      split; [lia|].
      intros Hlt. simpl in Hlt.
      assert (Hk' : (k < length l)%nat) by lia.
      specialize (Hstop Hk'). lia.
Qed.
End ComposerFacts.

(** The blocks the code starts a message with are the preamble. *)
Lemma preamble_code config total :
  [ headerBlock (MESSAGES (language config));
    sectionText (msg_summary (MESSAGES (language config)) (Num (Z.of_nat total)));
    divider ]
  = preamble (language config) total.
Proof. destruct (language config); reflexivity. Qed.

(** The block the code appends for the records left out is the notice. *)
Lemma truncationBlock_code config total k :
  (k <= total)%nat ->
  truncationBlock config (num_sub (Num (Z.of_nat total)) (Num (Z.of_nat k)))
  = moreNotice (language config) (total - k).
Proof.
  intros Hk. unfold truncationBlock, moreNotice. simpl num_sub.
  rewrite Nat2Z.inj_sub by exact Hk.
  destruct (language config); reflexivity.
Qed.

(** C2.  For a non-empty list of records [buildSlackMessage] emits the header
    block, the summary block stating the total count and a divider, then the
    whole block groups of the first [k] records, where [k] is as large as the
    budget of 30 blocks allows: the three blocks and the groups shown fit 30
    blocks, and when records remain the next group would not.  Every group
    has 4 or 5 blocks and ends with a divider.  When records remain, one
    notice block follows, a section that reads "...and N more deadline(s)"
    for the [N = total - k] records left out.  No more than 6 groups are ever
    shown, so 40 records give fewer than 40 groups and a trailing notice. *)
Theorem buildSlackMessage_budget
    (tza : Z) (annotations : list DeadlineAnnotation) (config : ActionConfig)
    (today : JSDate.Date) :
  annotations <> [] ->
  exists k : nat,
    let total := length annotations in
    let lang := language config in
    let shown := groupsOf tza config today (firstn k annotations) in
    (k <= total)%nat
    /\ blocks (buildSlackMessage tza annotations config today)
       = Some ([header lang; summary lang total; rule] ++ shown
               ++ (if (k <? total)%nat then [moreNotice lang (total - k)] else []))%list
    /\ (3 + length shown <= 30)%nat
    /\ ((k < total)%nat ->
        (30 < 3 + length (groupsOf tza config today (firstn (S k) annotations)))%nat)
    /\ (forall a,
          let group := buildAnnotationBlocks tza a config today in
          (4 <= length group <= 5)%nat /\ List.last group (header lang) = rule)
    /\ moreNotice en 35
       = mkBlock "section"
           (Some (mkText "mrkdwn" "...and 35 more deadline(s)" None)) None
    /\ (k <= 6)%nat
    /\ (total = 40%nat ->
        (k < 40)%nat
        /\ exists shownBlocks,
             blocks (buildSlackMessage tza annotations config today)
             = Some (shownBlocks ++ [moreNotice lang (40 - k)])%list).
Proof.
  intros Hne. destruct annotations as [|a0 rest] eqn:Hl; [congruence|].
  rewrite <- Hl in *. clear Hne.
  destruct (displayLoop_prefix tza config today annotations
              (preamble (language config) (length annotations)) 0)
    as (k & Hk & Heq & Hfit & Hstop).
  specialize (Hfit ltac:(simpl; unfold MAX_BLOCKS; lia)).
  change (length (preamble (language config) (length annotations))) with 3%nat
    in Hfit, Hstop.
  change MAX_BLOCKS with 30%nat in Hfit, Hstop.
  exists k. cbv zeta.
  assert (Hblocks :
    blocks (buildSlackMessage tza annotations config today)
    = Some (preamble (language config) (length annotations)
            ++ groupsOf tza config today (firstn k annotations)
            ++ (if (k <? length annotations)%nat
                then [moreNotice (language config) (length annotations - k)]
                else []))%list).
  { unfold buildSlackMessage. rewrite Hl at 1.
    unfold lengthOf. rewrite preamble_code, Heq. simpl Nat.add.
    destruct (k <? length annotations)%nat; simpl blocks.
    - change (Num (Z.of_nat (length annotations) - Z.of_nat k))
        with (num_sub (Num (Z.of_nat (length annotations))) (Num (Z.of_nat k))).
      rewrite truncationBlock_code by exact Hk. unfold push, preamble.
      reflexivity.
    - rewrite app_nil_r. reflexivity. }
  assert (Hk6 : (k <= 6)%nat).
  { pose proof (groupsOf_length_lower tza config today (firstn k annotations)) as Hlow.
    rewrite length_firstn, Nat.min_l in Hlow by exact Hk. lia. }
  split; [exact Hk|]. split; [exact Hblocks|]. split; [exact Hfit|].
  split; [exact Hstop|].
  split.
  { intros a. split; [apply buildAnnotationBlocks_length|].
    unfold buildAnnotationBlocks. rewrite !app_assoc. apply last_last. }
  split; [reflexivity|]. split; [exact Hk6|].
  intros H40. split; [lia|].
  exists (preamble (language config) (length annotations)
          ++ groupsOf tza config today (firstn k annotations))%list.
  rewrite Hblocks, H40.
  replace (k <? 40)%nat with true by (symmetry; apply Nat.ltb_lt; lia).
  rewrite app_assoc. reflexivity.
Qed.

(* ================================================================= *)
(** ** Mention resolution *)

(** Inversion of what a pattern leads to. *)
Lemma steps_seq_inv a b st st2 :
  steps (Seq a b) st st2 -> exists st1, steps a st st1 /\ steps b st1 st2.
Proof. intros H. inversion H; subst. eauto. Qed.

Lemma steps_chr_inv p st st' :
  steps (Chr p) st st' ->
  exists c s', rest st = String c s' /\ p c = true
               /\ st' = mkState (S (pos st)) s' (caps st).
Proof. intros H. inversion H; subst. eauto. Qed.

Lemma steps_bol_inv st st' : steps Bol st st' -> st' = st /\ pos st = O.
Proof. intros H. inversion H; subst. auto. Qed.

Lemma steps_eol_inv st st' : steps Eol st st' -> st' = st /\ rest st = "".
Proof. intros H. inversion H; subst. auto. Qed.

Lemma steps_plus_chr p st st' :
  steps (plus (Chr p)) st st' ->
  exists c run,
    rest st = String c run ++ rest st' /\ p c = true /\ allChars p run = true
    /\ pos st' = (pos st + S (String.length run))%nat /\ caps st' = caps st.
Proof.
  unfold plus. intros H.
  apply steps_seq_inv in H. destruct H as (st1 & Hone & Hmore).
  apply steps_chr_inv in Hone. destruct Hone as (c & s' & Hrest & Hc & ->).
  apply RegexFacts.steps_star_chr in Hmore.
  destruct Hmore as (run & Hrun & Hall & Hpos & Hcaps). simpl in *.
  exists c, run. rewrite Hrest, Hrun, Hpos, Hcaps.
  repeat split; try assumption; try reflexivity. lia.
Qed.

Lemma steps_group_plus_chr n p st st' :
  steps (Group n (plus (Chr p))) st st' ->
  exists c run,
    rest st = String c run ++ rest st' /\ p c = true /\ allChars p run = true
    /\ pos st' = (pos st + S (String.length run))%nat
    /\ caps st' = (n, String c run) :: caps st.
Proof.
  intros H. inversion H as [| | | | | | |n' a st0 st1 Hin| |]; subst.
  apply steps_plus_chr in Hin.
  destruct Hin as (c & run & Hrest & Hc & Hall & Hpos & Hcaps). simpl.
  exists c, run. rewrite Hcaps, Hpos.
  repeat split; try assumption.
  f_equal. f_equal.
  replace (pos st + S (String.length run) - pos st)%nat
    with (String.length (String c run)) by (simpl; lia).
  rewrite Hrest. apply take_append.
Qed.

(** The state in which a match returned by [smatch] ends, and the state in
    which it starts. *)
Lemma smatch_steps r s m :
  smatch s r = Some m ->
  exists st,
    steps r (mkState (index m) (drop (index m) s) []) st /\ groups m = caps st.
Proof.
  unfold smatch. intros H. apply RegexFacts.search_bounds in H.
  destruct H as (_ & _ & st & Hst & _ & Hgroups).
  rewrite Nat.sub_0_r in Hst.
  apply RegexFacts.rmatch_steps in Hst. destruct Hst as (st' & Hsteps & [= ->]).
  exists st. auto.
Qed.

(** What the first pattern of [extractGitHubUsername] matches. *)
Lemma noreplyRe_sound email m :
  smatch email noreplyRe = Some m ->
  exists username, group m 1 = Some username /\ noreplyWithId email username.
Proof.
  intros H. apply smatch_steps in H. destruct H as (st & Hsteps & Hgroups).
  unfold noreplyRe in Hsteps. cbv [seqs] in Hsteps.
  apply steps_seq_inv in Hsteps. destruct Hsteps as (s1 & Hbol & Hsteps).
  apply steps_bol_inv in Hbol. destruct Hbol as [-> Hpos]. simpl pos in Hpos.
  rewrite Hpos in *. change (drop 0 email) with email in *.
  apply steps_seq_inv in Hsteps. destruct Hsteps as (s2 & Hid & Hsteps).
  apply steps_plus_chr in Hid.
  destruct Hid as (d & ds & Hrest1 & Hd & Hds & _ & Hcaps2).
  simpl rest in Hrest1. simpl caps in Hcaps2.
  apply steps_seq_inv in Hsteps. destruct Hsteps as (s3 & Hplus & Hsteps).
  apply steps_chr_inv in Hplus. destruct Hplus as (c & r3 & Hrest2 & Hc & ->).
  apply Ascii.eqb_eq in Hc. subst c.
  apply steps_seq_inv in Hsteps. destruct Hsteps as (s4 & Hname & Hsteps).
  apply steps_group_plus_chr in Hname.
  destruct Hname as (u & us & Hrest3 & Hu & Hus & _ & Hcaps4).
  simpl rest in Hrest3. simpl caps in Hcaps4.
  apply steps_seq_inv in Hsteps. destruct Hsteps as (s5 & Hhost & Heol).
  apply (RegexFacts.steps_lit noreplyHost) in Hhost.
  destruct Hhost as (Hrest4 & _ & Hcaps5).
  apply steps_eol_inv in Heol. destruct Heol as [-> Hend].
  exists (String u us). split.
  - unfold group. rewrite Hgroups, Hcaps5, Hcaps4. reflexivity.
  - exists (String d ds). split; [discriminate|].
    split; [simpl; apply andb_true_iff; split; [exact Hd | exact Hds]|].
    split; [split; [discriminate|];
            simpl; apply andb_true_iff; split; [exact Hu | exact Hus]|].
    rewrite Hrest1, Hrest2, Hrest3, Hrest4, Hend.
    rewrite append_nil_r. reflexivity.
Qed.

(** What the second pattern of [extractGitHubUsername] matches. *)
Lemma oldNoreplyRe_sound email m :
  smatch email oldNoreplyRe = Some m ->
  exists username, group m 1 = Some username /\ noreplyOld email username.
Proof.
  intros H. apply smatch_steps in H. destruct H as (st & Hsteps & Hgroups).
  unfold oldNoreplyRe in Hsteps. cbv [seqs] in Hsteps.
  apply steps_seq_inv in Hsteps. destruct Hsteps as (s1 & Hbol & Hsteps).
  apply steps_bol_inv in Hbol. destruct Hbol as [-> Hpos]. simpl pos in Hpos.
  rewrite Hpos in *. change (drop 0 email) with email in *.
  apply steps_seq_inv in Hsteps. destruct Hsteps as (s4 & Hname & Hsteps).
  apply steps_group_plus_chr in Hname.
  destruct Hname as (u & us & Hrest3 & Hu & Hus & _ & Hcaps4).
  simpl rest in Hrest3. simpl caps in Hcaps4.
  apply steps_seq_inv in Hsteps. destruct Hsteps as (s5 & Hhost & Heol).
  apply (RegexFacts.steps_lit noreplyHost) in Hhost.
  destruct Hhost as (Hrest4 & _ & Hcaps5).
  apply steps_eol_inv in Heol. destruct Heol as [-> Hend].
  exists (String u us). split.
  - unfold group. rewrite Hgroups, Hcaps5, Hcaps4. reflexivity.
  - split; [split; [discriminate|];
            simpl; apply andb_true_iff; split; [exact Hu | exact Hus]|].
    rewrite Hrest3, Hrest4, Hend. rewrite append_nil_r. reflexivity.
Qed.

(** The tail of both patterns: the host, then the end of the text. *)
Lemma rmatch_host p cs :
  rmatch (Seq (lit noreplyHost) Eol) (mkState p noreplyHost cs) Some
  = Some (mkState (p + String.length noreplyHost) "" cs).
Proof.
  rewrite RegexFacts.rmatch_seq.
  rewrite <- (append_nil_r noreplyHost) at 2.
  rewrite RegexFacts.rmatch_lit. apply RegexFacts.rmatch_eol.
Qed.

(** The group of both patterns on a username followed by the host. *)
Lemma rmatch_username p c us :
  notAt c = true -> allChars notAt us = true ->
  exists n,
    rmatch (Seq (Group 1 (plus (notchr "@"))) (Seq (lit noreplyHost) Eol))
      (mkState p (String c us ++ noreplyHost) []) Some
    = Some (mkState n "" [(1%nat, String c us)]).
Proof.
  intros Hc Hus. eexists.
  rewrite RegexFacts.rmatch_seq, RegexFacts.rmatch_group.
  apply (RegexFacts.rmatch_plus_chr notAt _ c us noreplyHost);
    [exact Hc | exact Hus | reflexivity | reflexivity |].
  cbv beta. simpl pos. simpl rest. simpl caps.
  replace (p + S (String.length us) - p)%nat with (String.length (String c us))
    by (simpl; lia).
  change (String c (us ++ noreplyHost)) with (String c us ++ noreplyHost).
  rewrite take_append. apply rmatch_host.
Qed.

(** The first pattern matches an address with the id of the account and
    captures its username. *)
Lemma noreplyRe_complete email username :
  noreplyWithId email username ->
  exists m, smatch email noreplyRe = Some m /\ group m 1 = Some username.
Proof.
  intros (id & Hid & Hdigits & (Hname & Hchars) & ->).
  destruct id as [|d ds]; [congruence|].
  destruct username as [|c us]; [congruence|].
  simpl in Hdigits, Hchars.
  apply andb_true_iff in Hdigits. destruct Hdigits as [Hd Hds].
  apply andb_true_iff in Hchars. destruct Hchars as [Hc Hus].
  destruct (rmatch_username (S (0 + S (String.length ds))) c us Hc Hus) as (n & Hn).
  assert (Hrun :
    rmatch noreplyRe
      (mkState 0 (String d ds ++ "+" ++ String c us ++ noreplyHost) []) Some
    = Some (mkState n "" [(1%nat, String c us)])).
  { unfold noreplyRe. cbv [seqs].
    rewrite RegexFacts.rmatch_seq, RegexFacts.rmatch_bol, RegexFacts.rmatch_seq.
    apply (RegexFacts.rmatch_plus_chr is_digit _ d ds
             ("+" ++ String c us ++ noreplyHost));
      [exact Hd | exact Hds | reflexivity | reflexivity |].
    cbv beta. simpl pos. simpl caps.
    rewrite RegexFacts.rmatch_seq.
    change ("+" ++ String c us ++ noreplyHost)
      with (String "+" (String c us ++ noreplyHost)).
    rewrite RegexFacts.rmatch_chr_hit. exact Hn. }
  unfold smatch.
  change (String d ds ++ "+" ++ String c us ++ noreplyHost)
    with (String d (ds ++ "+" ++ String c us ++ noreplyHost)) in Hrun |- *.
  change (search noreplyRe 0 (String d ?s))
    with (match rmatch noreplyRe (mkState 0 (String d s) []) Some with
          | Some st => Some (mkMatch 0 (take (pos st - 0) (String d s)) (caps st))
          | None => search noreplyRe 1 s
          end).
  rewrite Hrun. eexists. split; reflexivity.
Qed.

(** The second pattern matches an address in the old format and captures
    its username. *)
Lemma oldNoreplyRe_complete email username :
  noreplyOld email username ->
  exists m, smatch email oldNoreplyRe = Some m /\ group m 1 = Some username.
Proof.
  intros ((Hname & Hchars) & ->).
  destruct username as [|c us]; [congruence|].
  simpl in Hchars.
  apply andb_true_iff in Hchars. destruct Hchars as [Hc Hus].
  destruct (rmatch_username 0 c us Hc Hus) as (n & Hn).
  assert (Hrun :
    rmatch oldNoreplyRe (mkState 0 (String c us ++ noreplyHost) []) Some
    = Some (mkState n "" [(1%nat, String c us)])).
  { unfold oldNoreplyRe. cbv [seqs].
    rewrite RegexFacts.rmatch_seq, RegexFacts.rmatch_bol. exact Hn. }
  unfold smatch.
  change (String c us ++ noreplyHost)
    with (String c (us ++ noreplyHost)) in Hrun |- *.
  change (search oldNoreplyRe 0 (String c ?s))
    with (match rmatch oldNoreplyRe (mkState 0 (String c s) []) Some with
          | Some st => Some (mkMatch 0 (take (pos st - 0) (String c s)) (caps st))
          | None => search oldNoreplyRe 1 s
          end).
  rewrite Hrun. eexists. split; reflexivity.
Qed.

(** [extractGitHubUsername] returns the username of an address in one of
    the two noreply formats, the format with the id first, and nothing for
    any other address. *)
Lemma extractGitHubUsername_spec email username :
  extractGitHubUsername email = Some username
  <-> noreplyWithId email username
      \/ (noreplyOld email username /\ forall u, ~ noreplyWithId email u).
Proof.
  unfold extractGitHubUsername. split.
  - intros H. destruct (smatch email noreplyRe) as [m|] eqn:Hm.
    + apply noreplyRe_sound in Hm. destruct Hm as (u & Hu & Hform).
      left. congruence.
    + destruct (smatch email oldNoreplyRe) as [m|] eqn:Hold; [|discriminate].
      apply oldNoreplyRe_sound in Hold. destruct Hold as (u & Hu & Hform).
      right. split; [congruence|].
      intros u' Hu'. apply noreplyRe_complete in Hu'.
      destruct Hu' as (m' & Hm' & _). congruence.
  - intros [H | [H Hnot]].
    + apply noreplyRe_complete in H. destruct H as (m & -> & Hm). exact Hm.
    + destruct (smatch email noreplyRe) as [m|] eqn:Hm.
      * apply noreplyRe_sound in Hm. destruct Hm as (u & _ & Hu).
        exfalso. exact (Hnot u Hu).
      * apply oldNoreplyRe_complete in H. destruct H as (m & -> & Hm'). exact Hm'.
Qed.

(** The username taken from a noreply address is not empty. *)
Lemma extractGitHubUsername_nonempty email username :
  extractGitHubUsername email = Some username -> truthy username = true.
Proof.
  intros H. apply extractGitHubUsername_spec in H.
  assert (Hname : isUsername username).
  { destruct H as [(id & _ & _ & Hname & _) | [[Hname _] _]]; exact Hname. }
  destruct Hname as [Hne _]. destruct username; [congruence | reflexivity].
Qed.

Example noreply_with_id :
  extractGitHubUsername "12345678+username@users.noreply.github.com" = Some "username".
Proof. vm_compute. reflexivity. Qed.

Example noreply_old_format :
  extractGitHubUsername "username@users.noreply.github.com" = Some "username".
Proof. vm_compute. reflexivity. Qed.

Example not_noreply :
  extractGitHubUsername "username@example.com" = None.
Proof. vm_compute. reflexivity. Qed.

Lemma slackIdOf_own config key :
  objectPrototype key = None ->
  slackIdOf config key
  = match githubToSlackMap config !! key with
    | Some id => if truthy id then Some id else None
    | None => None
    end.
Proof.
  intros H. unfold slackIdOf, getProperty.
  destruct (githubToSlackMap config !! key); [reflexivity|]. now rewrite H.
Qed.

(** Away from the names of the members of [Object.prototype],
    [resolveSlackMention] takes the first candidate present, in this order:
    the record's own [slackMention]; the Slack id mapped to the username
    extracted from a GitHub noreply author email; the Slack id mapped to the
    raw author email; the Slack id mapped to the author name; otherwise
    there is no mention.  A username is extracted exactly from an email of
    the form [digits+username@users.noreply.github.com] or, failing that,
    [username@users.noreply.github.com]. *)
Lemma resolveSlackMention_order
    (annotation : DeadlineAnnotation) (config : ActionConfig) :
  (forall key, In key (mentionKeys annotation) -> objectPrototype key = None) ->
  resolveSlackMention annotation config
  = firstPresent (mentionCandidates annotation config)
  /\ (forall email username,
        extractGitHubUsername email = Some username
        <-> noreplyWithId email username
            \/ (noreplyOld email username /\ forall u, ~ noreplyWithId email u)).
Proof.
  intros Hown. split; [|apply extractGitHubUsername_spec].
  assert (Hid : forall key, In key (mentionKeys annotation) ->
            mentionOf config key
            = match githubToSlackMap config !! key with
              | Some id => if truthy id then Some ("<@" ++ id ++ ">") else None
              | None => None
              end).
  { intros key Hkey. unfold mentionOf. rewrite slackIdOf_own by auto.
    destruct (githubToSlackMap config !! key) as [id|]; [|reflexivity].
    destruct (truthy id); reflexivity. }
  clear Hown.
  unfold resolveSlackMention, mentionCandidates, orElse, truthy_opt, optString.
  unfold mentionKeys in Hid. cbv zeta.
  destruct (slackMention annotation) as [d|], (authorEmail annotation) as [e|],
    (author annotation) as [n|]; simpl in *.
  all: try (destruct (extractGitHubUsername e) as [u|] eqn:Hu; simpl in Hid;
            [pose proof (extractGitHubUsername_nonempty e u Hu) as Htruthy;
             rewrite ?Htruthy|]).
  all: rewrite ?Hid by tauto.
  all: try destruct (truthy d); try destruct (truthy e); try destruct (truthy n);
    simpl; rewrite ?Hu; try reflexivity.
  all: repeat case_match; simplify_eq; reflexivity.
Qed.

(** The mention of a record whose author committed with a noreply
    address. *)
Example resolveSlackMention_noreply :
  extractGitHubUsername "583231+octocat@users.noreply.github.com" = Some "octocat"
  /\ resolveSlackMention Sample.dueToday Sample.config = Some "<@U024BE7LH>".
Proof.
  destruct (resolveSlackMention_order Sample.dueToday Sample.config) as [Horder Hspec].
  - intros key Hkey. vm_compute in Hkey.
    destruct Hkey as [<- | [<- | [<- | []]]]; reflexivity.
  - split.
    + apply Hspec. left. exists "583231".
      split; [discriminate|]. split; [reflexivity|].
      split; [split; [discriminate | reflexivity] | reflexivity].
    + rewrite Horder. vm_compute. reflexivity.
Qed.

(** C7.  The order of the claim fails for a key that names a member of
    [Object.prototype].  A record was last changed by an author called
    "constructor", it has no mention of its own, and neither the author's
    name nor the email is a key of the configured map: the candidates of the
    claim give no mention, and [resolveSlackMention] returns a mention made
    of the text of the inherited member. *)
Theorem resolveSlackMention_inherited_member :
  let annotation := Sample.authoredBy "constructor" "dev@example.com" in
  githubToSlackMap Sample.config !! "constructor" = None
  /\ githubToSlackMap Sample.config !! "dev@example.com" = None
  /\ firstPresent (mentionCandidates annotation Sample.config) = None
  /\ resolveSlackMention annotation Sample.config
     = Some "<@function Object() { [native code] }>".
Proof. vm_compute. repeat split; reflexivity. Qed.

(* ================================================================= *)
(** ** The custom template *)

Section TemplateFacts.
Variable tza : Z.

(** The default layout always carries blocks. *)
Lemma buildSlackMessage_has_blocks annotations config today :
  blocks (buildSlackMessage tza annotations config today) <> None.
Proof.
  unfold buildSlackMessage. destruct annotations; [discriminate|].
  destruct (displayLoop _ _ _ _ _ _). discriminate.
Qed.

(** The [try] block never throws. *)
Lemma renderTemplate_returns template annotations config today :
  exists message,
    renderTemplate tza template annotations config today = Returned message
    /\ blocks message = None.
Proof. eexists. split; reflexivity. Qed.
End TemplateFacts.

(** C6, as the code has it.  [buildCustomSlackMessage] gives the default
    layout of [buildSlackMessage] exactly when no template is configured
    (absent or empty).  With a template configured the substitutions cannot
    fail: the message is the text-only concatenation of the per-record
    copies of the template, whatever the template contains, and it is never
    the default layout. *)
Theorem buildCustomSlackMessage_cases
    (tza : Z) (annotations : list DeadlineAnnotation) (config : ActionConfig)
    (today : JSDate.Date) :
  (truthy_opt (customTemplate config) = false ->
   buildCustomSlackMessage tza annotations config today
   = buildSlackMessage tza annotations config today)
  /\ (forall template,
        customTemplate config = Some template -> template <> "" ->
        let globals :=
          replaceAll
            (replaceAll template (lit "{{count}}")
               (toString (Num (Z.of_nat (length annotations)))))
            (lit "{{date}}") (formatDate tza today) in
        buildCustomSlackMessage tza annotations config today
        = mkMessage (slackChannel config)
            (join (nl ++ nl)
               (List.map (fun a => renderAnnotation tza globals a config today)
                  annotations))
            None
        /\ forall config',
             buildCustomSlackMessage tza annotations config today
             <> buildSlackMessage tza annotations config' today).
Proof.
  split.
  - intros Hnone. unfold buildCustomSlackMessage. rewrite Hnone. reflexivity.
  - intros template Ht Hne globals.
    assert (Heq :
      buildCustomSlackMessage tza annotations config today
      = mkMessage (slackChannel config)
          (join (nl ++ nl)
             (List.map (fun a => renderAnnotation tza globals a config today)
                annotations))
          None).
    { unfold buildCustomSlackMessage. rewrite Ht.
      destruct template; [congruence|]. reflexivity. }
    split; [exact Heq|].
    intros config' Hsame.
    apply (buildSlackMessage_has_blocks tza annotations config' today).
    rewrite <- Hsame, Heq. reflexivity.
Qed.

(** The witness of C6: a template in Japan Standard Time. *)
Lemma buildCustomSlackMessage_cases_witness :
  buildCustomSlackMessage Sample.JST [Sample.dueToday]
    (Sample.withTemplate "{{elementName}} is due {{deadline}}" Sample.config)
    Sample.today
  = mkMessage (Some "#deadlines") "dueToday is due 2025-01-15" None.
Proof.
  destruct (buildCustomSlackMessage_cases Sample.JST [Sample.dueToday]
              (Sample.withTemplate "{{elementName}} is due {{deadline}}"
                 Sample.config) Sample.today) as [_ H].
  destruct (H "{{elementName}} is due {{deadline}}" eq_refl
              ltac:(discriminate)) as [Heq _].
  rewrite Heq. vm_compute. reflexivity.
Defined.

(** C6 as stated fails: a template whose placeholder lacks its closing
    delimiter is not replaced by the default layout; the text is rendered
    with the broken placeholder left in place. *)
Lemma malformed_template_no_fallback :
  buildCustomSlackMessage Sample.JST [Sample.dueToday]
    (Sample.withTemplate "{{elementName}} is due {{deadline" Sample.config)
    Sample.today
  = mkMessage (Some "#deadlines") "dueToday is due {{deadline" None
  /\ buildCustomSlackMessage Sample.JST [Sample.dueToday]
       (Sample.withTemplate "{{elementName}} is due {{deadline" Sample.config)
       Sample.today
     <> buildCustomSlackMessage Sample.JST [Sample.dueToday] Sample.config
          Sample.today.
Proof.
  assert (H : buildCustomSlackMessage Sample.JST [Sample.dueToday]
                (Sample.withTemplate "{{elementName}} is due {{deadline" Sample.config)
                Sample.today
              = mkMessage (Some "#deadlines") "dueToday is due {{deadline" None)
    by (vm_compute; reflexivity).
  split; [exact H|].
  rewrite H. intro Hsame. apply (f_equal blocks) in Hsame.
  vm_compute in Hsame. discriminate.
Qed.

(* ================================================================= *)
(** ** The calendar *)

Module JSDateFacts.
Import JSDate.

Ltac divlia := Z.to_euclidean_division_equations; lia.

Lemma DayFromYear_succ y : DayFromYear (y + 1) = DayFromYear y + DaysInYear y.
Proof.
  unfold DayFromYear, DaysInYear.
  destruct (Z.eqb_spec (y mod 4) 0), (Z.eqb_spec (y mod 100) 0),
    (Z.eqb_spec (y mod 400) 0); simpl; divlia.
Qed.

Lemma DaysInYear_cases y : DaysInYear y = 365 \/ DaysInYear y = 366.
Proof. unfold DaysInYear. repeat case_match; auto. Qed.

Lemma DayFromYear_mono y1 y2 : y1 < y2 -> DayFromYear y1 < DayFromYear y2.
Proof. unfold DayFromYear. divlia. Qed.

Lemma YearFromDay_bounds d :
  DayFromYear (YearFromDay d) <= d < DayFromYear (YearFromDay d + 1).
Proof.
  unfold YearFromDay. cbv zeta.
  destruct (Z.ltb_spec d (DayFromYear (1970 + d * 400 / 146097))).
  - unfold DayFromYear in *. divlia.
  - destruct (Z.leb_spec (DayFromYear (1970 + d * 400 / 146097 + 1)) d).
    + unfold DayFromYear in *. divlia.
    + lia.
Qed.

(** [YearFromDay d] is the one year whose days include [d]. *)
Lemma YearFromDay_unique y d :
  DayFromYear y <= d < DayFromYear (y + 1) -> YearFromDay d = y.
Proof.
  intros Hy. pose proof (YearFromDay_bounds d) as Hd.
  destruct (Z.lt_trichotomy (YearFromDay d) y) as [Hlt | [Heq | Hgt]].
  - assert (YearFromDay d + 1 <= y) as Hle by lia.
    apply Zle_lt_or_eq in Hle. destruct Hle as [Hle | Hle].
    + apply DayFromYear_mono in Hle. lia.
    + rewrite Hle in Hd. lia.
  - exact Heq.
  - assert (y + 1 <= YearFromDay d) as Hle by lia.
    apply Zle_lt_or_eq in Hle. destruct Hle as [Hle | Hle].
    + apply DayFromYear_mono in Hle. lia.
    + rewrite <- Hle in Hd. lia.
Qed.

Lemma Day_of_midnight d : Day (d * msPerDay) = d.
Proof. unfold Day, msPerDay. apply Z.div_mul. lia. Qed.

Lemma MakeDay_calendar y m d :
  1 <= m <= 12 -> MakeDay (Num y) (Num (m - 1)) (Num d) = Num (dayNumber y m d).
Proof.
  intros Hm. unfold MakeDay, dayNumber.
  replace ((m - 1) / 12) with 0 by divlia.
  replace ((m - 1) mod 12) with (m - 1) by divlia.
  rewrite Z.add_0_r. reflexivity.
Qed.

Lemma month_cases m : 1 <= m <= 12 ->
  m = 1 \/ m = 2 \/ m = 3 \/ m = 4 \/ m = 5 \/ m = 6 \/ m = 7 \/ m = 8
  \/ m = 9 \/ m = 10 \/ m = 11 \/ m = 12.
Proof. lia. Qed.

(** The calendar fields of the midnight of a date are that date. *)
Lemma calendar_fields y m d :
  1 <= m <= 12 -> 1 <= d <= DaysInMonth y m ->
  let t := dayNumber y m d * msPerDay in
  YearFromTime t = y /\ MonthFromTime t = m - 1 /\ DateFromTime t = d.
Proof.
  intros Hm Hd t.
  assert (Hyear : YearFromTime t = y).
  { unfold YearFromTime, t. rewrite Day_of_midnight.
    apply YearFromDay_unique. rewrite DayFromYear_succ.
    unfold dayNumber. unfold DaysInMonth in Hd.
    destruct (DaysInYear_cases y) as [Hy | Hy]; rewrite Hy in *; simpl in *;
      destruct (month_cases m Hm) as [-> | [-> | [-> | [-> | [-> | [-> | [-> | [->
        | [-> | [-> | [-> | ->]]]]]]]]]]]; simpl in *; lia. }
  assert (Hwithin : DayWithinYear t
                    = MonthStart (m - 1) (if DaysInYear y =? 366 then 1 else 0) + d - 1).
  { unfold DayWithinYear. rewrite Hyear. unfold t. rewrite Day_of_midnight.
    unfold dayNumber. lia. }
  assert (Hleap : InLeapYear t = if DaysInYear y =? 366 then 1 else 0).
  { unfold InLeapYear. rewrite Hyear. reflexivity. }
  assert (Hmonth : MonthFromTime t = m - 1).
  { unfold MonthFromTime. rewrite Hwithin, Hleap. unfold DaysInMonth in Hd.
    destruct (DaysInYear_cases y) as [Hy | Hy]; rewrite Hy in *; simpl in *;
      destruct (month_cases m Hm) as [-> | [-> | [-> | [-> | [-> | [-> | [-> | [->
        | [-> | [-> | [-> | ->]]]]]]]]]]]; simpl in *;
      repeat (match goal with
              | |- context [?a <? ?b] => destruct (Z.ltb_spec a b); try lia
              end); reflexivity. }
  split; [exact Hyear|]. split; [exact Hmonth|].
  unfold DateFromTime. rewrite Hmonth, Hwithin, Hleap.
  destruct (month_cases m Hm) as [-> | [-> | [-> | [-> | [-> | [-> | [-> | [->
    | [-> | [-> | [-> | ->]]]]]]]]]]]; simpl; lia.
Qed.

(** [MakeDay] gives back the day of the calendar fields of a time. *)
Lemma MakeDay_inverse t :
  MakeDay (Num (YearFromTime t)) (Num (MonthFromTime t)) (Num (DateFromTime t))
  = Num (Day t).
Proof.
  pose proof (YearFromDay_bounds (Day t)) as Hbounds.
  rewrite DayFromYear_succ in Hbounds. fold (YearFromTime t) in Hbounds.
  unfold MakeDay, DateFromTime, MonthFromTime, InLeapYear, DayWithinYear.
  set (y := YearFromTime t) in *.
  set (dwy := Day t - DayFromYear y).
  assert (Hdwy : 0 <= dwy < DaysInYear y) by (unfold dwy; lia).
  f_equal.
  destruct (DaysInYear_cases y) as [Hy | Hy]; rewrite Hy in *; simpl Z.eqb;
    cbv iota;
    repeat (match goal with
            | |- context [?a <? ?b] => destruct (Z.ltb_spec a b)
            end);
    cbv zeta; rewrite Z.div_small, Z.mod_small by lia;
    rewrite ?Z.add_0_r, ?Hy; simpl; unfold dwy in *; lia.
Qed.

Section LocalDates.
Variable tza : Z.
Hypothesis tza_range : - msPerDay <= tza <= msPerDay.

(** The date built from a calendar date outside the two-digit years is
    the local midnight of that date, and its local fields are that date. *)
Lemma newDate_fields y m d :
  y < 0 \/ 100 <= y -> -250000 <= y <= 250000 ->
  1 <= m <= 12 -> 1 <= d <= DaysInMonth y m ->
  let date := newDate tza (Num y) (Num (m - 1)) (Num d) in
  getTime date = Num (dayNumber y m d * msPerDay - tza)
  /\ getFullYear tza date = Num y
  /\ getMonth tza date = Num (m - 1)
  /\ getDate tza date = Num d.
Proof.
  intros Hy Hrange Hm Hd date.
  assert (Htime : getTime date = Num (dayNumber y m d * msPerDay - tza)).
  { unfold date, newDate, MakeFullYear. simpl getTime.
    replace ((0 <=? y) && (y <=? 99)) with false
      by (symmetry; apply andb_false_iff; lia).
    rewrite MakeDay_calendar by exact Hm.
    unfold MakeDate, UTC, TimeClip. rewrite Z.add_0_r.
    replace (8640000000000000 <? Z.abs (dayNumber y m d * msPerDay - tza))
      with false; [reflexivity|].
    symmetry. apply Z.ltb_ge.
    assert (Hday : -100000000 < dayNumber y m d < 100000000 - 1).
    { unfold dayNumber, DayFromYear. unfold DaysInMonth in Hd.
      destruct (DaysInYear_cases y) as [Hl | Hl]; rewrite Hl in *; simpl in *;
        destruct (month_cases m Hm) as [-> | [-> | [-> | [-> | [-> | [-> | [->
          | [-> | [-> | [-> | [-> | ->]]]]]]]]]]]; simpl in *; divlia. }
    unfold msPerDay in *. lia. }
  split; [exact Htime|].
  destruct (calendar_fields y m d Hm Hd) as (Hyear & Hmonth & Hdate).
  unfold getFullYear, getMonth, getDate. rewrite Htime. unfold LocalTime.
  replace (dayNumber y m d * msPerDay - tza + tza)
    with (dayNumber y m d * msPerDay) by lia.
  rewrite Hyear, Hmonth, Hdate. auto.
Qed.
End LocalDates.

End JSDateFacts.

(* ================================================================= *)
(** ** Date formatting *)

Lemma twoDigits_padLeft n :
  0 <= n <= 31 -> padLeft (Z_toString n) 2 "0" = twoDigits n.
Proof.
  intros Hn.
  assert (Hk : exists k, (k <= 31)%nat /\ n = Z.of_nat k)
    by (exists (Z.to_nat n); lia).
  destruct Hk as (k & Hk & ->).
  do 32 (destruct k as [|k]; [vm_compute; reflexivity|]). lia.
Qed.

Lemma fourDigitsAgree_spec n : forall y0,
  fourDigitsAgree n y0 = true ->
  forall y, y0 <= y < y0 + Z.of_nat n -> Z_toString y = fourDigits y.
Proof.
  induction n as [|n IH]; intros y0 Hagree y Hy; [lia|].
  simpl in Hagree. apply andb_true_iff in Hagree. destruct Hagree as [Hhere Hrest].
  destruct (Z.eq_dec y y0) as [-> | Hne].
  - apply String.eqb_eq. exact Hhere.
  - apply (IH (y0 + 1) Hrest). lia.
Qed.

Lemma fourDigits_toString y : 1000 <= y <= 9999 -> Z_toString y = fourDigits y.
Proof.
  intros Hy. apply (fourDigitsAgree_spec (Z.to_nat 9000) 1000); [|lia].
  vm_compute. reflexivity.
Qed.


(* ================================================================= *)
(** ** The scanning loop *)

Section ScannerFacts.
Variable tza : Z.
Variable fileName : string.
Variable content : string.

Local Abbreviation step := (scanStep tza fileName content).

Lemma parseLoop_fold fuel : forall lastIndex result,
  parseLoop tza fuel fileName content lastIndex result
  = fold_left step (matchesFrom fuel content lastIndex) result.
Proof.
  induction fuel as [|fuel IH]; intros lastIndex result; simpl; [reflexivity|].
  destruct (exec DEADLINE_PATTERN content lastIndex) as [m|]; [|reflexivity].
  simpl. apply IH.
Qed.

(** The loop visits every occurrence, whatever happened at the earlier
    ones. *)
Lemma parseContent_fold :
  parseContent tza fileName content
  = fold_left step (annotationMatches content) (mkParseResult fileName [] []).
Proof. apply parseLoop_fold. Qed.

Lemma DEADLINE_PATTERN_nonempty lastIndex m :
  exec DEADLINE_PATTERN content lastIndex = Some m ->
  (lastIndex <= index m < match_end m)%nat
  /\ (match_end m <= String.length content)%nat.
Proof.
  intros H. pose proof (RegexFacts.exec_bounds _ _ _ _ H) as (Hle & Hend).
  split; [|exact Hend]. split; [exact Hle|].
  apply (RegexFacts.exec_consumes DEADLINE_PATTERN) with (s := content)
    (lastIndex := lastIndex); [|exact H].
  intros st x Hx.
  apply (RegexFacts.rmatch_chr_progress "@"
           (Seq (lit "Deadline")
              (seqs [star ws; chr "("; star ws; Group 1 (Star false any);
                     star ws; chr ")"]))).
  exact Hx.
Qed.

(** The loop ends because the pattern finds no further occurrence, never
    because the iteration bound was reached: more iterations change
    nothing. *)
Lemma matchesFrom_enough fuel : forall lastIndex extra,
  (String.length content < fuel + lastIndex)%nat ->
  matchesFrom (fuel + extra) content lastIndex = matchesFrom fuel content lastIndex.
Proof.
  induction fuel as [|fuel IH]; intros lastIndex extra Hfuel.
  - simpl. destruct extra as [|extra]; [reflexivity|]. simpl.
    unfold exec. replace (String.length content <? lastIndex)%nat with true
      by (symmetry; apply Nat.ltb_lt; lia).
    reflexivity.
  - simpl. destruct (exec DEADLINE_PATTERN content lastIndex) as [m|] eqn:Hm;
      [|reflexivity].
    f_equal. apply IH.
    apply DEADLINE_PATTERN_nonempty in Hm. lia.
Qed.

Lemma parseLoop_enough extra :
  parseLoop tza (S (String.length content) + extra) fileName content 0
    (mkParseResult fileName [] [])
  = parseContent tza fileName content.
Proof.
  unfold parseContent. rewrite !parseLoop_fold.
  rewrite matchesFrom_enough by lia. reflexivity.
Qed.

Lemma scanStep_commented result m :
  isInsideComment content (index m) = true -> step result m = result.
Proof. intros H. unfold scanStep, parseMatch. rewrite H. reflexivity. Qed.

Lemma fold_skips_commented l : forall result,
  fold_left step l result
  = fold_left step
      (List.filter (fun m => negb (isInsideComment content (index m))) l) result.
Proof.
  induction l as [|m l IH]; intros result; simpl; [reflexivity|].
  destruct (isInsideComment content (index m)) eqn:Hc; simpl.
  - rewrite scanStep_commented by exact Hc. apply IH.
  - apply IH.
Qed.
End ScannerFacts.

(* ================================================================= *)
(** ** The comment classifier *)

Lemma slice_at before s :
  slice (before ++ s) (String.length before) (String.length before + 2) = take 2 s.
Proof.
  unfold slice. rewrite drop_append. f_equal. lia.
Qed.

Lemma hasPair_tail a b c t : hasPair a b (String c t) = false -> hasPair a b t = false.
Proof.
  destruct t as [|y t]; [reflexivity|].
  intros H. change (hasPair a b (String c (String y t)))
    with ((Ascii.eqb c a && Ascii.eqb y b) || hasPair a b (String y t)) in H.
  apply orb_false_iff in H. tauto.
Qed.

Lemma hasPair_head a b c seg rest :
  hasPair a b (String c seg ++ take 1 rest) = false ->
  String.eqb (take 2 (String c seg ++ rest)) (String a (String b "")) = false.
Proof.
  assert (Hpair : forall y t,
            hasPair a b (String c (String y t)) = false ->
            String.eqb (String c (String y "")) (String a (String b "")) = false).
  { intros y t H.
    change (hasPair a b (String c (String y t)))
      with ((Ascii.eqb c a && Ascii.eqb y b) || hasPair a b (String y t)) in H.
    apply orb_false_iff in H. destruct H as [H _].
    simpl. destruct (Ascii.eqb c a), (Ascii.eqb y b); simpl in *;
      try reflexivity; discriminate. }
  destruct seg as [|y seg].
  - destruct rest as [|y rest].
    + intros _. simpl. destruct (Ascii.eqb c a); reflexivity.
    + intros H. exact (Hpair y "" H).
  - intros H. exact (Hpair y (seg ++ take 1 rest) H).
Qed.

(** The scan crosses, one character at a time and without changing its
    state, a segment that holds no delimiter able to change it. *)
Lemma blockScan_quiet (inBlock : bool) seg : forall before rest extra index,
  hasPair (fst (toggler inBlock)) (snd (toggler inBlock)) (seg ++ take 1 rest) = false ->
  (String.length before + String.length seg <= index)%nat ->
  blockScan (String.length seg + extra) (before ++ seg ++ rest) index
    (String.length before) inBlock
  = blockScan extra (before ++ seg ++ rest) index
      (String.length before + String.length seg) inBlock.
Proof.
  induction seg as [|c seg IH]; intros before rest extra index Hquiet Hlen.
  - simpl. rewrite Nat.add_0_r. reflexivity.
  - simpl String.length in *. simpl Nat.add.
    change (blockScan (S (String.length seg + extra)) ?c ?i ?j ?b)
      with (if (j <? i)%nat then
              if negb b && String.eqb (slice c j (j + 2)) "/*"
              then blockScan (String.length seg + extra) c i (j + 2) true
              else if b && String.eqb (slice c j (j + 2)) "*/"
              then blockScan (String.length seg + extra) c i (j + 2) false
              else blockScan (String.length seg + extra) c i (j + 1) b
            else b).
    replace (String.length before <? index)%nat with true
      by (symmetry; apply Nat.ltb_lt; lia).
    rewrite slice_at.
    pose proof (hasPair_head _ _ _ _ _ Hquiet) as Hhead.
    assert (Hstay :
      (negb inBlock && String.eqb (take 2 (String c seg ++ rest)) "/*" = false)
      /\ (inBlock && String.eqb (take 2 (String c seg ++ rest)) "*/" = false)).
    { destruct inBlock; simpl in Hhead |- *; rewrite ?Hhead; auto. }
    destruct Hstay as [-> ->].
    replace (before ++ String c seg ++ rest)
      with ((before ++ String c "") ++ seg ++ rest)
      by (rewrite append_assoc; reflexivity).
    replace (String.length before + 1)%nat
      with (String.length (before ++ String c ""))
      by (rewrite length_append; reflexivity).
    rewrite IH.
    + rewrite length_append. simpl String.length. f_equal. lia.
    + apply hasPair_tail in Hquiet. exact Hquiet.
    + rewrite length_append. simpl String.length. lia.
Qed.

(** The scan ends because [i] reaches [index], never because the iteration
    bound was reached: more iterations change nothing. *)
Lemma blockScan_enough content index fuel : forall i inBlock extra,
  (index <= fuel + i)%nat ->
  blockScan (fuel + extra) content index i inBlock
  = blockScan fuel content index i inBlock.
Proof.
  induction fuel as [|fuel IH]; intros i inBlock extra Hfuel.
  - simpl. destruct extra as [|extra]; [reflexivity|]. simpl.
    replace (i <? index)%nat with false by (symmetry; apply Nat.ltb_ge; lia).
    reflexivity.
  - simpl. destruct (i <? index)%nat; [|reflexivity].
    rewrite !IH by lia. reflexivity.
Qed.

Lemma blockScan_done fuel content index inBlock :
  blockScan fuel content index index inBlock = inBlock.
Proof.
  destruct fuel; simpl; [reflexivity|].
  rewrite Nat.ltb_irrefl. reflexivity.
Qed.

Lemma findLineStart_le content i : (findLineStart content i <= i)%nat.
Proof.
  induction i as [|i IH]; simpl; [lia|].
  destruct (charAt content i) as [c|]; [destruct (Ascii.eqb c LF)|]; lia.
Qed.

(** The backward scan runs over characters that are not line feeds. *)
Lemma findLineStart_skip content n : forall i,
  (forall j, (i <= j < i + n)%nat -> charAt content j <> Some LF) ->
  findLineStart content (i + n) = findLineStart content i.
Proof.
  induction n as [|n IH]; intros i Hno.
  - rewrite Nat.add_0_r. reflexivity.
  - replace (i + S n)%nat with (S (i + n)) by lia. simpl.
    assert (Hlast : charAt content (i + n) <> Some LF) by (apply Hno; lia).
    destruct (charAt content (i + n)) as [c|] eqn:Hc.
    + destruct (Ascii.eqb c LF) eqn:Heq.
      * apply Ascii.eqb_eq in Heq. congruence.
      * apply IH. intros j Hj. apply Hno. lia.
    + apply IH. intros j Hj. apply Hno. lia.
Qed.

Lemma charAt_append pre s j :
  charAt (pre ++ s) (String.length pre + j) = charAt s j.
Proof. induction pre as [|c pre IH]; simpl; [reflexivity | exact IH]. Qed.

Lemma charAt_prefix_no_LF s t : countChar LF s = O -> forall d,
  (d < String.length s)%nat -> charAt (s ++ t) d <> Some LF.
Proof.
  induction s as [|c s IH]; intros Hcount d Hd; simpl in *; [lia|].
  destruct (Ascii.eqb c LF) eqn:Hc; [discriminate|].
  destruct d as [|d]; simpl.
  - intros [= ->]. rewrite Ascii.eqb_refl in Hc. discriminate.
  - apply IH; [exact Hcount | lia].
Qed.

Lemma drop_append_le n : forall pre s,
  (n <= String.length pre)%nat -> drop n (pre ++ s) = drop n pre ++ s.
Proof.
  induction n as [|n IH]; intros pre s Hn; [reflexivity|].
  destruct pre as [|c pre]; simpl in *; [lia|]. apply IH. lia.
Qed.

Lemma take_append_ge n : forall pre s,
  take (String.length pre + n) (pre ++ s) = pre ++ take n s.
Proof.
  intros pre s. induction pre as [|c pre IH]; simpl; [reflexivity|].
  f_equal. exact IH.
Qed.

(** An offset preceded by [//] on its line is classified as commented. *)
Lemma isInsideComment_line pre mid rest :
  countChar LF mid = O ->
  isInsideComment (pre ++ "//" ++ mid ++ rest)
    (String.length pre + 2 + String.length mid) = true.
Proof.
  intros Hmid. unfold isInsideComment.
  destruct (blockScan _ _ _ 0 false); [reflexivity|].
  set (content := pre ++ "//" ++ mid ++ rest).
  set (lineStart := findLineStart content (String.length pre + 2 + String.length mid)).
  assert (Hstart : lineStart = findLineStart content (String.length pre)).
  { unfold lineStart.
    replace (String.length pre + 2 + String.length mid)%nat
      with (String.length pre + (2 + String.length mid))%nat by lia.
    apply findLineStart_skip. intros j Hj.
    replace j with (String.length pre + (j - String.length pre))%nat by lia.
    unfold content. rewrite charAt_append.
    apply (charAt_prefix_no_LF ("//" ++ mid) rest); [exact Hmid|].
    simpl. lia. }
  assert (Hle : (lineStart <= String.length pre)%nat)
    by (rewrite Hstart; apply findLineStart_le).
  assert (Hslice :
    slice content lineStart (String.length pre + 2 + String.length mid)
    = drop lineStart pre ++ "//" ++ mid).
  { unfold slice, content. rewrite drop_append_le by exact Hle.
    replace (String.length pre + 2 + String.length mid - lineStart)%nat
      with (String.length (drop lineStart pre) + (2 + String.length mid))%nat
      by (rewrite length_drop; lia).
    rewrite take_append_ge. f_equal. simpl. f_equal. f_equal.
    replace (String.length mid) with (String.length mid + 0)%nat by lia.
    rewrite take_append_ge. simpl. apply append_nil_r. }
  rewrite Hslice. unfold smatch.
  destruct (RegexFacts.search_lit_found "//" mid (drop lineStart pre) 0) as (m & ->).
  reflexivity.
Qed.

(** An offset after an opened and not yet closed block comment is
    classified as commented, however many lines the comment spans. *)
Lemma isInsideComment_block pre mid rest :
  hasPair "/" "*" (pre ++ "/") = false ->
  hasPair "*" "/" (mid ++ take 1 rest) = false ->
  isInsideComment (pre ++ "/*" ++ mid ++ rest)
    (String.length pre + 2 + String.length mid) = true.
Proof.
  intros Hpre Hmid. unfold isInsideComment.
  replace (blockScan _ _ _ 0 false) with true; [reflexivity|].
  symmetry.
  set (index := (String.length pre + 2 + String.length mid)%nat).
  pose proof (blockScan_quiet false pre "" ("/*" ++ mid ++ rest)
                (2 + String.length mid) index Hpre) as Hfirst.
  simpl String.length in Hfirst. simpl Nat.add in Hfirst.
  replace index with (String.length pre + S (S (String.length mid)))%nat at 1
    by (unfold index; lia).
  change (pre ++ "/*" ++ mid ++ rest) with ("" ++ pre ++ "/*" ++ mid ++ rest).
  rewrite Hfirst by (unfold index; lia).
  change ("" ++ pre ++ "/*" ++ mid ++ rest) with (pre ++ "/*" ++ mid ++ rest).
  change (blockScan (S (S (String.length mid))) ?c ?i ?j false)
    with (if (j <? i)%nat then
            if negb false && String.eqb (slice c j (j + 2)) "/*"
            then blockScan (S (String.length mid)) c i (j + 2) true
            else if false && String.eqb (slice c j (j + 2)) "*/"
            then blockScan (S (String.length mid)) c i (j + 2) false
            else blockScan (S (String.length mid)) c i (j + 1) false
          else false).
  replace (String.length pre <? index)%nat with true
    by (symmetry; apply Nat.ltb_lt; unfold index; lia).
  rewrite slice_at. simpl negb. simpl andb.
  change (String.eqb (take 2 ("/*" ++ mid ++ rest)) "/*") with true. cbv iota.
  pose proof (blockScan_quiet true mid (pre ++ "/*") rest 1 index Hmid) as Hsecond.
  rewrite length_append in Hsecond. simpl String.length in Hsecond.
  rewrite append_assoc in Hsecond.
  replace (S (String.length mid)) with (String.length mid + 1)%nat by lia.
  rewrite Hsecond by (unfold index; lia).
  replace (String.length pre + 2 + String.length mid)%nat with index by reflexivity.
  apply blockScan_done.
Qed.

(** C3.  An annotation match whose start offset the classifier reports as
    commented leaves the result of [parseDartFile] as it was: no record, no
    error.  The scan of a document is therefore the scan of its matches
    that are not commented.  In particular a match that starts after an
    opened block comment that is not closed before it, on the same line or
    many lines further, yields nothing; so does a match preceded by [//] on
    its line. *)
Theorem commented_annotation_skipped
    (tza : Z) (fileName content : string) :
  (forall m result,
     isInsideComment content (index m) = true ->
     parseMatch tza fileName content m result = result)
  /\ parseContent tza fileName content
     = fold_left (scanStep tza fileName content)
         (List.filter (fun m => negb (isInsideComment content (index m)))
            (annotationMatches content))
         (mkParseResult fileName [] [])
  /\ (forall pre mid rest m result,
        content = pre ++ "/*" ++ mid ++ rest ->
        hasPair "/" "*" (pre ++ "/") = false ->
        hasPair "*" "/" (mid ++ take 1 rest) = false ->
        index m = (String.length pre + 2 + String.length mid)%nat ->
        parseMatch tza fileName content m result = result)
  /\ (forall pre mid rest m result,
        content = pre ++ "//" ++ mid ++ rest ->
        countChar LF mid = O ->
        index m = (String.length pre + 2 + String.length mid)%nat ->
        parseMatch tza fileName content m result = result).
Proof.
  split; [intros m result H; apply (scanStep_commented tza fileName content result m H)|].
  split; [rewrite parseContent_fold; apply fold_skips_commented|].
  split.
  - intros pre mid rest m result -> Hpre Hmid Hindex.
    apply (scanStep_commented tza fileName _ result m).
    rewrite Hindex. apply isInsideComment_block; assumption.
  - intros pre mid rest m result -> Hmid Hindex.
    apply (scanStep_commented tza fileName _ result m).
    rewrite Hindex. apply isInsideComment_line; assumption.
Qed.

(** The witness of C3: the annotation of [SampleDocs.blockCommented]. *)
Lemma commented_annotation_skipped_witness :
  annotationMatches SampleDocs.blockCommented <> []
  /\ forall m, In m (annotationMatches SampleDocs.blockCommented) ->
       parseMatch Sample.JST "lib/legacy.dart" SampleDocs.blockCommented m
         (mkParseResult "lib/legacy.dart" [] [])
       = mkParseResult "lib/legacy.dart" [] [].
Proof.
  split; [vm_compute; discriminate|].
  intros m Hm.
  apply (proj1 (commented_annotation_skipped Sample.JST "lib/legacy.dart"
                  SampleDocs.blockCommented)).
  vm_compute in Hm. destruct Hm as [<- | []]. vm_compute. reflexivity.
Defined.

(* ================================================================= *)
(** ** Required parameters *)

Lemma split_nl_length s : length (split_nl s) = S (countChar LF s).
Proof.
  induction s as [|c s IH]; simpl; [reflexivity|].
  destruct (Ascii.eqb c LF); simpl; [now rewrite IH|].
  destruct (split_nl s); simpl in *; lia.
Qed.

Lemma getLineNumber_count content i : getLineNumber content i = lineOf content i.
Proof. unfold getLineNumber, lineOf. rewrite split_nl_length. lia. Qed.

(** *** What the three patterns find *)

Lemma steps_group_inv n a st st' :
  steps (Group n a) st st' ->
  exists st1, steps a st st1
    /\ st' = mkState (pos st1) (rest st1)
               ((n, take (pos st1 - pos st) (rest st)) :: caps st1).
Proof. intros H. inversion H; subst. eauto. Qed.

(** The head shared by the three patterns: the name, white space, a colon,
    white space. *)
Lemma steps_param_head name r st st' :
  steps (Seq (lit name) (Seq (star ws) (Seq (chr ":") (Seq (star ws) r)))) st st' ->
  exists sp1 sp2 st1,
    allChars is_space sp1 = true /\ allChars is_space sp2 = true
    /\ rest st = name ++ sp1 ++ ":" ++ sp2 ++ rest st1
    /\ caps st1 = caps st
    /\ steps r st1 st'.
Proof.
  intros H.
  apply steps_seq_inv in H. destruct H as (s1 & Hname & H).
  apply RegexFacts.steps_lit in Hname. destruct Hname as (Hr1 & _ & Hc1).
  apply steps_seq_inv in H. destruct H as (s2 & Hsp1 & H).
  apply RegexFacts.steps_star_chr in Hsp1.
  destruct Hsp1 as (sp1 & Hr2 & Hall1 & _ & Hc2).
  apply steps_seq_inv in H. destruct H as (s3 & Hcolon & H).
  apply steps_chr_inv in Hcolon. destruct Hcolon as (c & r3 & Hr3 & Hc & ->).
  apply Ascii.eqb_eq in Hc. subst c.
  apply steps_seq_inv in H. destruct H as (s4 & Hsp2 & H).
  apply RegexFacts.steps_star_chr in Hsp2.
  destruct Hsp2 as (sp2 & Hr4 & Hall2 & _ & Hc4). simpl in Hr4, Hc4.
  exists sp1, sp2, s4. repeat split; try assumption.
  - rewrite Hr1, Hr2, Hr3, Hr4. reflexivity.
  - congruence.
Qed.

Lemma quoted_sound q text name m :
  smatch text
    (seqs [lit name; star ws; chr ":"; star ws;
           chr q; Group 1 (star (notchr q)); chr q]) = Some m ->
  exists v, group m 1 = Some v /\ quotedParam q text name v.
Proof.
  intros H. apply smatch_steps in H. destruct H as (st & Hsteps & Hgroups).
  cbv [seqs] in Hsteps.
  apply steps_param_head in Hsteps.
  destruct Hsteps as (sp1 & sp2 & s1 & Hsp1 & Hsp2 & Hrest & Hcaps & H).
  simpl rest in Hrest. simpl caps in Hcaps.
  apply steps_seq_inv in H. destruct H as (s2 & Hq & H).
  apply steps_chr_inv in Hq. destruct Hq as (c & r2 & Hr2 & Hc & ->).
  apply Ascii.eqb_eq in Hc. subst c.
  apply steps_seq_inv in H. destruct H as (s3 & Hg & Hq).
  apply steps_group_inv in Hg. destruct Hg as (s4 & Hv & ->).
  apply RegexFacts.steps_star_chr in Hv.
  destruct Hv as (v & Hr3 & Hall & Hpos & Hc3). simpl in Hr3, Hpos, Hc3.
  apply steps_chr_inv in Hq. destruct Hq as (c & r4 & Hr4 & Hc & ->).
  apply Ascii.eqb_eq in Hc. subst c. simpl in Hr4, Hgroups.
  exists v. split.
  - unfold group. rewrite Hgroups. simpl. f_equal. rewrite Hpos, Hr3.
    replace (S (pos s1 + String.length v) - S (pos s1))%nat
      with (String.length v) by lia.
    apply take_append.
  - exists (take (index m) text), sp1, sp2, r4.
    repeat split; try assumption.
    rewrite <- (take_drop (index m) text) at 1.
    rewrite Hrest, Hr2, Hr3, Hr4. reflexivity.
Qed.

Lemma number_sound text name m :
  smatch text
    (seqs [lit name; star ws; chr ":"; star ws; Group 1 (plus digit)]) = Some m ->
  exists v, group m 1 = Some v /\ numberParam text name v.
Proof.
  intros H. apply smatch_steps in H. destruct H as (st & Hsteps & Hgroups).
  cbv [seqs] in Hsteps.
  apply steps_param_head in Hsteps.
  destruct Hsteps as (sp1 & sp2 & s1 & Hsp1 & Hsp2 & Hrest & Hcaps & H).
  simpl rest in Hrest. simpl caps in Hcaps.
  apply steps_group_plus_chr in H.
  destruct H as (d & ds & Hr & Hd & Hds & _ & Hc).
  exists (String d ds). split.
  - unfold group. rewrite Hgroups, Hc. reflexivity.
  - exists (take (index m) text), sp1, sp2, (rest st).
    repeat split; try assumption; [discriminate | |].
    + simpl. now rewrite Hd, Hds.
    + rewrite <- (take_drop (index m) text) at 1.
      rewrite Hrest, Hr. reflexivity.
Qed.

(** Whatever [parseNamedParameter] returns is a value the text offers. *)
Lemma parseNamedParameter_offers text name v :
  parseNamedParameter text name = Some v -> offers text name v.
Proof.
  intros H. unfold parseNamedParameter, paramPatterns, firstGroup1 in H.
  destruct (smatch text _) as [m|] eqn:H1 in H.
  { apply quoted_sound in H1. destruct H1 as (v' & Hv & Hq). left. congruence. }
  destruct (smatch text _) as [m|] eqn:H2 in H.
  { apply quoted_sound in H2. destruct H2 as (v' & Hv & Hq). right. left. congruence. }
  destruct (smatch text _) as [m|] eqn:H3 in H; [|discriminate].
  apply number_sound in H3. destruct H3 as (v' & Hv & Hn). right. right. congruence.
Qed.






(** *** What [parseInt] reads *)

Lemma is_digit_value c :
  is_digit c = true -> Z.of_nat (code c - code "0") = digitValue c.
Proof.
  unfold is_digit, in_range, digitValue, code. intros H.
  apply andb_true_iff in H. destruct H as [Hlo _]. apply Nat.leb_le in Hlo.
  change (nat_of_ascii "0") with 48%nat in *. lia.
Qed.

(** A text splits into its leading run of digits and the rest; the loop of
    [parseInt] computes the positional value of the run. *)
Lemma digits_run s :
  exists digits tail,
    s = digits ++ tail
    /\ allChars is_digit digits = true
    /\ headFails is_digit tail = true
    /\ forall acc,
         digits_value acc s
         = acc * 10 ^ Z.of_nat (String.length digits) + decimal digits.
Proof.
  induction s as [|c s (digits & tail & Hs & Hall & Htail & Hvalue)].
  - exists "", "". repeat split. intros acc. simpl. lia.
  - destruct (is_digit c) eqn:Hc.
    + exists (String c digits), tail. split; [simpl; congruence|].
      split; [simpl; now rewrite Hc|]. split; [exact Htail|].
      intros acc. cbn [digits_value decimal String.length]. rewrite Hc, Hvalue.
      rewrite (is_digit_value c Hc), Nat2Z.inj_succ, Z.pow_succ_r by lia. ring.
    + exists "", (String c s). split; [reflexivity|]. split; [reflexivity|].
      split; [simpl; now rewrite Hc|].
      intros acc. simpl. rewrite Hc. lia.
Qed.

Lemma trimStart_split v :
  exists sp, v = sp ++ trimStart v /\ allChars is_space sp = true.
Proof.
  induction v as [|c v (sp & Hv & Hsp)]; [exists ""; split; reflexivity|].
  simpl. destruct (is_space c) eqn:Hc.
  - exists (String c sp). simpl. rewrite Hc, <- Hv. auto.
  - exists "". auto.
Qed.

(** A text that starts with a digit reads as the value of its digit run. *)
Lemma digits_value_reads d r :
  is_digit d = true ->
  exists digits tail,
    String d r = digits ++ tail
    /\ digits <> "" /\ allChars is_digit digits = true
    /\ headFails is_digit tail = true
    /\ digits_value 0 (String d r) = decimal digits.
Proof.
  intros Hd.
  destruct (digits_run (String d r)) as (digits & tail & Hs & Hall & Htail & Hvalue).
  exists digits, tail. repeat split; try assumption.
  - intros ->. simpl in Hs. subst tail. simpl in Htail. rewrite Hd in Htail.
    discriminate.
  - rewrite Hvalue. lia.
Qed.

(** [parseInt] by the first character after the white space. *)
Lemma parseInt_unfold v :
  parseInt v
  = match trimStart v with
    | EmptyString => NaN
    | String c r =>
        if Ascii.eqb c "-" then
          match r with
          | String d _ =>
              if is_digit d then roundToDouble (-1 * digits_value 0 r) else NaN
          | EmptyString => NaN
          end
        else if Ascii.eqb c "+" then
          match r with
          | String d _ =>
              if is_digit d then roundToDouble (1 * digits_value 0 r) else NaN
          | EmptyString => NaN
          end
        else if is_digit c then roundToDouble (1 * digits_value 0 (String c r))
        else NaN
    end.
Proof.
  unfold parseInt. destruct (trimStart v) as [|c r]; [reflexivity|].
  destruct c as [[] [] [] [] [] [] [] []]; reflexivity.
Qed.

(** [parseInt] gives NaN, or the double nearest to the integer the text
    reads as. *)
Lemma parseInt_reads v :
  parseInt v = NaN
  \/ exists z, readsInteger v z /\ parseInt v = roundToDouble z.
Proof.
  rewrite parseInt_unfold.
  destruct (trimStart_split v) as (sp & Hv & Hsp).
  destruct (trimStart v) as [|c r]; [auto|].
  destruct (Ascii.eqb_spec c "-") as [-> | Hminus].
  { destruct r as [|d r]; [auto|]. destruct (is_digit d) eqn:Hd; [|auto].
    destruct (digits_value_reads d r Hd) as (digits & tail & Hr & Hne & Hall & Htail & Hval).
    right. exists (- decimal digits). split.
    - exists sp, "-", digits, tail. rewrite Hv at 1. rewrite <- Hr. auto 10.
    - rewrite Hval. f_equal; lia. }
  destruct (Ascii.eqb_spec c "+") as [-> | Hplus].
  { destruct r as [|d r]; [auto|]. destruct (is_digit d) eqn:Hd; [|auto].
    destruct (digits_value_reads d r Hd) as (digits & tail & Hr & Hne & Hall & Htail & Hval).
    right. exists (decimal digits). split.
    - exists sp, "+", digits, tail. rewrite Hv at 1. rewrite <- Hr. auto 10.
    - rewrite Hval. f_equal; lia. }
  destruct (is_digit c) eqn:Hc; [|auto].
  destruct (digits_value_reads c r Hc) as (digits & tail & Hr & Hne & Hall & Htail & Hval).
  right. exists (decimal digits). split.
  - exists sp, "", digits, tail. rewrite Hv at 1. rewrite <- Hr. auto 10.
  - rewrite Hval. f_equal; lia.
Qed.

(** *** Rounding to a double *)



(** Above 2^53 a double holds every second integer, then every fourth, and
    so on; a tie goes to the even significand; from 2^1024 - 2^970 on the
    result is an infinity. *)
Example roundToDouble_samples :
  roundToDouble 9007199254740993 = Num 9007199254740992
  /\ roundToDouble 9007199254740995 = Num 9007199254740996
  /\ roundToDouble (-9007199254740997) = Num (-9007199254740996)
  /\ roundToDouble (2 ^ 1024 - 2 ^ 970 - 1) = Num (2 ^ 1024 - 2 ^ 971)
  /\ roundToDouble (2 ^ 1024 - 2 ^ 970) = Infinity false
  /\ roundToDouble (- 10 ^ 400) = Infinity true.
Proof. vm_compute. repeat split; reflexivity. Qed.

(** *** One iteration of the loop *)

Section RequiredParameters.
Variable tza : Z.
Variable fileName : string.
Variable content : string.


(** What one iteration does: nothing for a commented occurrence; otherwise
    it adds one error, or one record whose year, month and day are what
    [parseInt] reads from the values found. *)
Lemma parseMatch_cases m result :
  parseMatch tza fileName content m result = result
  \/ (exists error,
        parseMatch tza fileName content m result
        = mkParseResult (result_filePath result) (annotations result)
            (errors result ++ [error])%list)
  \/ (exists r ys ms ds,
        parseMatch tza fileName content m result
        = mkParseResult (result_filePath result) (annotations result ++ [r])%list
            (errors result)
        /\ isInsideComment content (index m) = false
        /\ parseNamedParameter (argumentsOf m) "year" = Some ys
        /\ parseNamedParameter (argumentsOf m) "month" = Some ms
        /\ parseNamedParameter (argumentsOf m) "day" = Some ds
        /\ year r = parseInt ys /\ month r = parseInt ms /\ day r = parseInt ds
        /\ isNaN (year r) = false /\ isNaN (month r) = false
        /\ isNaN (day r) = false
        /\ lineNumber r = lineOf content (index m)
        /\ deadlineDate r
           = JSDate.newDate tza (year r) (num_sub (month r) (Num 1)) (day r)).
Proof.
  unfold parseMatch, argumentsOf.
  destruct (isInsideComment content (index m)) eqn:Hcode; [auto|].
  destruct (parseNamedParameter (groupOr m 1 "") "year") as [ys|];
    [|right; left; eexists; reflexivity].
  destruct (parseNamedParameter (groupOr m 1 "") "month") as [ms|];
    [|right; left; simpl; rewrite orb_true_r; eexists; reflexivity].
  destruct (parseNamedParameter (groupOr m 1 "") "day") as [ds|];
    [|right; left; simpl; rewrite orb_true_r; eexists; reflexivity].
  simpl truthy_opt. simpl optString.
  destruct (negb (truthy ys) || negb (truthy ms) || negb (truthy ds));
    [right; left; eexists; reflexivity|].
  destruct (isNaN (parseInt ys)) eqn:Hy; [right; left; eexists; reflexivity|].
  destruct (isNaN (parseInt ms)) eqn:Hm; [right; left; eexists; reflexivity|].
  destruct (isNaN (parseInt ds)) eqn:Hd; [right; left; eexists; reflexivity|].
  simpl. destruct (extractCodeBlock content _) as [codeBlock elementName].
  right. right. eexists. exists ys, ms, ds.
  split; [reflexivity|]. simpl. rewrite getLineNumber_count. auto 15.
Qed.

(** A value the parser found that [parseInt] does not read as NaN makes
    an integer field. *)
Lemma integerField_found text name v :
  parseNamedParameter text name = Some v -> isNaN (parseInt v) = false ->
  integerField text name (parseInt v).
Proof.
  intros Hfound Hnum. destruct (parseInt_reads v) as [HNaN | (z & Hreads & Hz)].
  - rewrite HNaN in Hnum. discriminate.
  - exists v, z. split; [apply parseNamedParameter_offers; exact Hfound|]. auto.
Qed.

Lemma scanStep_wellFormed result m :
  In m (annotationMatches content) ->
  Forall (wellFormed tza content) (annotations result) ->
  Forall (wellFormed tza content)
    (annotations (scanStep tza fileName content result m)).
Proof.
  intros Hm Hall. unfold scanStep.
  destruct (parseMatch_cases m result)
    as [-> | [(error & ->) | (r & ys & ms & ds & -> & Hcode & Hys & Hms & Hds
                               & Hy & Hmo & Hd & Hyn & Hmn & Hdn & Hline & Hdate)]];
    [exact Hall | exact Hall |].
  simpl. apply Forall_app. split; [exact Hall|].
  constructor; [|constructor]. exists m.
  split; [exact Hm|]. split; [exact Hcode|].
  rewrite Hy in Hyn |- *. rewrite Hmo in Hmn |- *. rewrite Hd in Hdn |- *.
  split; [apply integerField_found; assumption|].
  split; [apply integerField_found; assumption|].
  split; [apply integerField_found; assumption|].
  split; [exact Hline|]. rewrite Hdate, Hy, Hmo, Hd. reflexivity.
Qed.

Lemma fold_wellFormed l : forall result,
  (forall m, In m l -> In m (annotationMatches content)) ->
  Forall (wellFormed tza content) (annotations result) ->
  Forall (wellFormed tza content)
    (annotations (fold_left (scanStep tza fileName content) l result)).
Proof.
  induction l as [|m l IH]; intros result Hl Hall; simpl; [exact Hall|].
  apply IH; [intros m' Hm'; apply Hl; now right|].
  apply scanStep_wellFormed; [apply Hl; now left | exact Hall].
Qed.

Lemma parseContent_wellFormed :
  Forall (wellFormed tza content) (annotations (parseContent tza fileName content)).
Proof. rewrite parseContent_fold. apply fold_wellFormed; [auto | constructor]. Qed.

(** The date of a record the scanner creates is built from its fields. *)
Lemma parseContent_deadlineDate r :
  In r (annotations (parseContent tza fileName content)) ->
  deadlineDate r = JSDate.newDate tza (year r) (num_sub (month r) (Num 1)) (day r).
Proof.
  intros Hr. pose proof parseContent_wellFormed as Hall.
  rewrite List.Forall_forall in Hall. apply Hall in Hr.
  destruct Hr as (m & _ & _ & _ & _ & _ & _ & H). exact H.
Qed.
End RequiredParameters.







(* ================================================================= *)
(** ** The balanced-brace scan *)

Lemma countChar_append c s t :
  countChar c (s ++ t) = (countChar c s + countChar c t)%nat.
Proof. induction s as [|x s IH]; simpl; [reflexivity | rewrite IH; lia]. Qed.

Lemma depthOf_snoc s c :
  depthOf (s ++ String c "")
  = depthOf s + (if Ascii.eqb c "{" then 1 else 0) - (if Ascii.eqb c "}" then 1 else 0).
Proof.
  unfold depthOf. rewrite !countChar_append. simpl.
  destruct (Ascii.eqb c "{"), (Ascii.eqb c "}"); lia.
Qed.

Lemma bracesLoop_cons c s depth started result :
  bracesLoop (String c s) depth started result
  = if Ascii.eqb c "{" then bracesLoop s (depth + 1) true (result ++ String c "")
    else if Ascii.eqb c "}" then
      if started && (depth - 1 =? 0) then result ++ String c ""
      else bracesLoop s (depth - 1) started (result ++ String c "")
    else bracesLoop s depth started (result ++ String c "").
Proof. reflexivity. Qed.

(** Inside an opened brace the scan runs through a balanced text and stops
    at the brace that follows it. *)
Lemma bracesLoop_balanced rest b : forall depth result,
  0 <= depth -> balancedFrom depth b = true ->
  bracesLoop (b ++ "}" ++ rest) (depth + 1) true result = result ++ b ++ "}".
Proof.
  induction b as [|c b IH]; intros depth result Hdepth Hb; simpl in Hb.
  - apply Z.eqb_eq in Hb. subst depth. reflexivity.
  - simpl append. rewrite bracesLoop_cons.
    destruct (Ascii.eqb c "{") eqn:Hopen.
    + rewrite IH by (lia || exact Hb). rewrite append_assoc. reflexivity.
    + destruct (Ascii.eqb c "}") eqn:Hclose.
      * apply andb_true_iff in Hb. destruct Hb as [Hpos Hb].
        apply Z.leb_le in Hpos.
        replace (depth + 1 - 1 =? 0) with false by (symmetry; apply Z.eqb_neq; lia).
        rewrite andb_false_r.
        replace (depth + 1 - 1) with (depth - 1 + 1) by lia.
        rewrite IH by (lia || exact Hb). rewrite append_assoc. reflexivity.
      * rewrite IH by (lia || exact Hb). rewrite append_assoc. reflexivity.
Qed.

(** Before the first brace the scan copies the text. *)
Lemma bracesLoop_header h : braceFree h = true -> forall rest result,
  bracesLoop (h ++ rest) 0 false result = bracesLoop rest 0 false (result ++ h).
Proof.
  induction h as [|c h IH]; intros Hfree rest result.
  - simpl. rewrite append_nil_r. reflexivity.
  - simpl in Hfree. apply andb_true_iff in Hfree. destruct Hfree as [Hc Hfree].
    apply negb_true_iff in Hc. unfold isBrace in Hc.
    apply orb_false_iff in Hc. destruct Hc as [Hopen Hclose].
    simpl append. rewrite bracesLoop_cons, Hopen, Hclose.
    rewrite IH by exact Hfree. rewrite append_assoc. reflexivity.
Qed.

(** A declaration with a balanced body is extracted whole: the span ends at
    the brace that closes the body, whatever braces the body nests. *)
Lemma extractBalancedBraces_body header body rest :
  braceFree header = true -> balanced body = true ->
  extractBalancedBraces (header ++ "{" ++ body ++ "}" ++ rest) 0
  = header ++ "{" ++ body ++ "}".
Proof.
  intros Hfree Hbody. unfold extractBalancedBraces. simpl drop.
  rewrite bracesLoop_header by exact Hfree.
  simpl append. rewrite bracesLoop_cons. simpl.
  rewrite (bracesLoop_balanced rest body 0) by (exact Hbody || lia).
  rewrite !append_assoc. reflexivity.
Qed.

Lemma closedSpan_snoc s c :
  closedSpan (s ++ String c "")
  <-> c = "}"%char /\ depthOf s - 1 = 0 /\ (0 < countChar "{" s)%nat.
Proof.
  unfold closedSpan. rewrite depthOf_snoc, countChar_append. simpl.
  split.
  - intros ((q & Hq) & Hdepth & Hopen).
    assert (Hc : c = "}"%char).
    { clear - Hq. revert q Hq. induction s as [|x s IH]; intros q Hq.
      - destruct q as [|y q]; simpl in Hq; [congruence|].
        destruct q; simpl in Hq; discriminate.
      - destruct q as [|y q]; simpl in Hq.
        + destruct s; simpl in Hq; discriminate.
        + injection Hq as _ Hq. eapply IH. exact Hq. }
    subst c. simpl in *. repeat split; lia.
  - intros (-> & Hdepth & Hopen). simpl. repeat split; [exists s; reflexivity|lia|lia].
Qed.

(** The scan as the specification words it: from the text [done] already
    captured it captures a prefix [q] of the input, and stops at the first
    character that closes the span; when no character does it captures the
    whole input. *)
Lemma bracesLoop_spec s : forall done,
  exists q t,
    bracesLoop s (depthOf done) (0 <? countChar "{" done)%nat done = done ++ q
    /\ s = q ++ t
    /\ (forall k, (0 < k < String.length q)%nat -> ~ closedSpan (done ++ take k q))
    /\ ((q <> "" /\ closedSpan (done ++ q))
        \/ (t = "" /\ (q = "" \/ ~ closedSpan (done ++ q)))).
Proof.
  induction s as [|c s IH]; intros done.
  - exists "", "". simpl. rewrite append_nil_r.
    split; [reflexivity|]. split; [reflexivity|].
    split; [intros k Hk; simpl in Hk; lia|]. right. auto.
  - rewrite bracesLoop_cons.
    destruct (IH (done ++ String c "")) as (q & t & Hrun & Hs & Hnone & Hend).
    rewrite depthOf_snoc, countChar_append in Hrun. simpl countChar in Hrun.
    assert (Hstep :
      ~ closedSpan (done ++ String c "") ->
      exists q' t',
        (done ++ String c "") ++ q = done ++ q'
        /\ String c s = q' ++ t'
        /\ (forall k, (0 < k < String.length q')%nat ->
              ~ closedSpan (done ++ take k q'))
        /\ ((q' <> "" /\ closedSpan (done ++ q'))
            \/ (t' = "" /\ (q' = "" \/ ~ closedSpan (done ++ q'))))).
    { intros Hopen.
      exists (String c q), t.
      split; [rewrite append_assoc; reflexivity|].
      split; [simpl; congruence|].
      split.
      - intros k Hk. destruct k as [|k]; [lia|]. simpl take.
        destruct k as [|k].
        + simpl take. exact Hopen.
        + replace (done ++ String c (take (S k) q))
            with ((done ++ String c "") ++ take (S k) q)
            by (rewrite append_assoc; reflexivity).
          apply Hnone. simpl in Hk. lia.
      - replace (done ++ String c q) with ((done ++ String c "") ++ q)
          by (rewrite append_assoc; reflexivity).
        destruct Hend as [(Hq & Hclosed) | (Ht & Hq)].
        + left. split; [discriminate | exact Hclosed].
        + destruct Hq as [-> | Hq].
          * right. split; [exact Ht|]. right. rewrite append_nil_r. exact Hopen.
          * right. split; [exact Ht|]. right. exact Hq. }
    rewrite closedSpan_snoc in Hstep.
    destruct (Ascii.eqb c "{") eqn:Hopen.
    + apply Ascii.eqb_eq in Hopen. subst c. simpl in Hrun.
      replace (0 <? countChar "{" done + 1)%nat with true in Hrun
        by (symmetry; apply Nat.ltb_lt; lia).
      replace (depthOf done + 1 - 0) with (depthOf done + 1) in Hrun by lia.
      rewrite Hrun. apply Hstep. intros (H & _). discriminate.
    + destruct (Ascii.eqb c "}") eqn:Hclose.
      * apply Ascii.eqb_eq in Hclose. subst c. simpl in Hrun.
        rewrite Nat.add_0_r in Hrun.
        replace (depthOf done + 0 - 1) with (depthOf done - 1) in Hrun by lia.
        destruct ((0 <? countChar "{" done)%nat && (depthOf done - 1 =? 0)) eqn:Hstop.
        -- exists "}", s. apply andb_true_iff in Hstop. destruct Hstop as [Hs1 Hs2].
           apply Nat.ltb_lt in Hs1. apply Z.eqb_eq in Hs2.
           split; [reflexivity|]. split; [reflexivity|].
           split; [intros k Hk; simpl in Hk; lia|].
           left. split; [discriminate|]. apply closedSpan_snoc. auto.
        -- rewrite Hrun. apply Hstep.
           intros (_ & Hd & Ho). apply andb_false_iff in Hstop.
           destruct Hstop as [Hstop | Hstop];
             [apply Nat.ltb_ge in Hstop; lia | apply Z.eqb_neq in Hstop; lia].
      * simpl in Hrun. rewrite Nat.add_0_r in Hrun.
        replace (depthOf done + 0 - 0) with (depthOf done) in Hrun by lia.
        rewrite Hrun. apply Hstep.
        intros (-> & _). simpl in Hclose. discriminate.
Qed.

(** The scan of [extractBalancedBraces], from [startIndex]: it captures a
    prefix of the text, stops at the first character that closes the span,
    and captures all the text when none does. *)
Lemma extractBalancedBraces_spec content startIndex :
  exists q t,
    extractBalancedBraces content startIndex = q
    /\ drop startIndex content = q ++ t
    /\ (forall k, (0 < k < String.length q)%nat -> ~ closedSpan (take k q))
    /\ ((q <> "" /\ closedSpan q) \/ (t = "" /\ (q = "" \/ ~ closedSpan q))).
Proof.
  destruct (bracesLoop_spec (drop startIndex content) "") as (q & t & H).
  exists q, t. exact H.
Qed.

(* ================================================================= *)
(** ** The code block extractor *)

Lemma search_bol r s : forall p, (0 < p)%nat -> search (Seq Bol r) p s = None.
Proof.
  induction s as [|c s IH]; intros p Hp; simpl.
  - destruct p; [lia | reflexivity].
  - destruct p; [lia|]. simpl. apply IH. lia.
Qed.

(** A match of an anchored pattern starts the text. *)
Lemma smatch_bol_index r s m : smatch s (Seq Bol r) = Some m -> index m = O.
Proof.
  unfold smatch. destruct s as [|c s]; simpl.
  - destruct (rmatch r _ _); [|discriminate]. now intros [= <-].
  - destruct (rmatch r _ _); [now intros [= <-]|].
    rewrite search_bol by lia. discriminate.
Qed.

Lemma truncateCodeBlock_short code maxLines :
  (length (split_nl code) <= maxLines)%nat -> truncateCodeBlock code maxLines = code.
Proof.
  intros H. unfold truncateCodeBlock.
  replace (maxLines <? length (split_nl code))%nat with false
    by (symmetry; apply Nat.ltb_ge; exact H).
  reflexivity.
Qed.

Lemma truncateCodeBlock_long code maxLines :
  (maxLines < length (split_nl code))%nat ->
  truncateCodeBlock code maxLines
  = join nl (firstn maxLines (split_nl code)) ++ truncationMarker.
Proof.
  intros H. unfold truncateCodeBlock.
  replace (maxLines <? length (split_nl code))%nat with true
    by (symmetry; apply Nat.ltb_lt; exact H).
  reflexivity.
Qed.

(** For a class, a mixin, an extension or an enum the excerpt is the span
    of the scan from the start of the declaration, truncated. *)
Lemma extractCodeBlock_braced content annotationEndIndex :
  bracedDeclaration (codeStartOf content annotationEndIndex) = true ->
  fst (extractCodeBlock content annotationEndIndex)
  = truncateCodeBlock
      (extractBalancedBraces (codeStartOf content annotationEndIndex) 0)
      defaultMaxLines.
Proof.
  unfold bracedDeclaration, extractCodeBlock. cbv zeta.
  set (codeStart := codeStartOf content annotationEndIndex).
  destruct (smatch codeStart classRe) as [m|] eqn:Hclass;
    [intros _; simpl; now rewrite (smatch_bol_index _ _ _ Hclass)|].
  destruct (smatch codeStart mixinRe) as [m|] eqn:Hmixin;
    [intros _; simpl; now rewrite (smatch_bol_index _ _ _ Hmixin)|].
  destruct (smatch codeStart extensionRe) as [m|] eqn:Hext;
    [intros _; simpl; now rewrite (smatch_bol_index _ _ _ Hext)|].
  destruct (smatch codeStart enumRe) as [m|] eqn:Henum;
    [intros _; simpl; now rewrite (smatch_bol_index _ _ _ Henum)|].
  discriminate.
Qed.

(** For a function with a body in braces the excerpt is the signature
    followed by the span of the scan from the opening brace, truncated. *)
Lemma extractCodeBlock_function content annotationEndIndex funcMatch :
  let codeStart := codeStartOf content annotationEndIndex in
  let afterSignature := drop (String.length (matched funcMatch)) codeStart in
  bracedDeclaration codeStart = false ->
  smatch codeStart funcRe = Some funcMatch ->
  startsWith (trimStart afterSignature) "{" = true ->
  fst (extractCodeBlock content annotationEndIndex)
  = truncateCodeBlock
      (matched funcMatch ++ extractBalancedBraces (trimStart afterSignature) 0)
      defaultMaxLines.
Proof.
  cbv zeta. unfold bracedDeclaration, extractCodeBlock. cbv zeta.
  set (codeStart := codeStartOf content annotationEndIndex).
  destruct (smatch codeStart classRe); [discriminate|].
  destruct (smatch codeStart mixinRe); [discriminate|].
  destruct (smatch codeStart extensionRe); [discriminate|].
  destruct (smatch codeStart enumRe); [discriminate|].
  intros _ -> ->. reflexivity.
Qed.

(** C4, as the code has it.  For a text that matches a pattern of
    declarations with a body in braces, the extractor scans for the balanced
    span: it counts up on every opening brace and down on every closing one
    and captures every character up to the first closing brace that brings
    the counter back to zero after a brace was opened (or to the end of the
    text).  The excerpt is that span when the span has at most 15 lines, and
    otherwise its first 15 lines followed by the truncation marker.  So a
    class with a balanced body of at most 15 lines is extracted whole, up to
    the brace that closes the body and not an inner one. *)
Theorem balanced_span_extracted (content : string) (annotationEndIndex : nat) :
  let codeStart := codeStartOf content annotationEndIndex in
  let excerpt := fst (extractCodeBlock content annotationEndIndex) in
  (forall text startIndex, exists q t,
     extractBalancedBraces text startIndex = q
     /\ drop startIndex text = q ++ t
     /\ (forall k, (0 < k < String.length q)%nat -> ~ closedSpan (take k q))
     /\ ((q <> "" /\ closedSpan q) \/ (t = "" /\ (q = "" \/ ~ closedSpan q))))
  /\ (bracedDeclaration codeStart = true ->
      excerpt = truncateCodeBlock (extractBalancedBraces codeStart 0) 15)
  /\ (forall funcMatch,
        bracedDeclaration codeStart = false ->
        smatch codeStart funcRe = Some funcMatch ->
        startsWith (trimStart (drop (String.length (matched funcMatch)) codeStart)) "{"
        = true ->
        excerpt
        = truncateCodeBlock
            (matched funcMatch
             ++ extractBalancedBraces
                  (trimStart (drop (String.length (matched funcMatch)) codeStart)) 0)
            15)
  /\ (forall code,
        ((length (split_nl code) <= 15)%nat -> truncateCodeBlock code 15 = code)
        /\ ((15 < length (split_nl code))%nat ->
            truncateCodeBlock code 15
            = join nl (firstn 15 (split_nl code)) ++ truncationMarker))
  /\ (forall header body rest,
        bracedDeclaration codeStart = true ->
        codeStart = header ++ "{" ++ body ++ "}" ++ rest ->
        braceFree header = true -> balanced body = true ->
        (length (split_nl (header ++ "{" ++ body ++ "}")) <= 15)%nat ->
        excerpt = header ++ "{" ++ body ++ "}").
Proof.
  cbv zeta.
  split; [intros text startIndex; apply extractBalancedBraces_spec|].
  split; [apply extractCodeBlock_braced|].
  split; [intros funcMatch; apply extractCodeBlock_function|].
  split.
  - intros code. split; [apply truncateCodeBlock_short | apply truncateCodeBlock_long].
  - intros header body rest Hkind Hstart Hfree Hbody Hlines.
    rewrite extractCodeBlock_braced by exact Hkind.
    rewrite Hstart, extractBalancedBraces_body by assumption.
    apply truncateCodeBlock_short. exact Hlines.
Qed.

(** The witness of C4: the class of [SampleCode.nested], whose method holds
    a block of its own, is extracted up to the brace that closes the class. *)
Lemma balanced_span_extracted_witness :
  fst (extractCodeBlock SampleCode.nested 40)
  = "class LegacyAuth extends Auth {
  void login() {
    if (ready) { start(); }
  }
}".
Proof.
  refine (proj2 (proj2 (proj2 (proj2
            (balanced_span_extracted SampleCode.nested 40))))
            "class LegacyAuth extends Auth "
            "
  void login() {
    if (ready) { start(); }
  }
"
            "

void next() {}
" _ _ _ _ _); try (vm_compute; reflexivity).
  vm_compute. lia.
Defined.

(** C4 as stated fails for a long declaration: the class of
    [SampleCode.long] matches the class pattern and its braces balance, but
    the excerpt is not the span up to the closing brace of the class; it is
    cut after 15 lines. *)
Lemma long_class_truncated :
  bracedDeclaration (codeStartOf SampleCode.long 40) = true
  /\ extractBalancedBraces (codeStartOf SampleCode.long 40) 0
     = "class LegacyCache {
  int a = 1;
  int b = 2;
  int c = 3;
  int d = 4;
  int e = 5;
  int f = 6;
  int g = 7;
  int h = 8;
  void clear() {
    a = 0;
    b = 0;
    c = 0;
    d = 0;
  }
}"
  /\ fst (extractCodeBlock SampleCode.long 40)
     = "class LegacyCache {
  int a = 1;
  int b = 2;
  int c = 3;
  int d = 4;
  int e = 5;
  int f = 6;
  int g = 7;
  int h = 8;
  void clear() {
    a = 0;
    b = 0;
    c = 0;
    d = 0;
  }
  // ... (truncated)"
  /\ fst (extractCodeBlock SampleCode.long 40)
     <> extractBalancedBraces (codeStartOf SampleCode.long 40) 0.
Proof.
  split; [vm_compute; reflexivity|].
  split; [vm_compute; reflexivity|].
  split; [vm_compute; reflexivity|].
  vm_compute. intro H. discriminate H.
Qed.

(* ================================================================= *)
(** ** Local midnight *)

(** For a date outside the two-digit years, [localMidnight] is the start of
    its local day. *)
Lemma localMidnight_start_of_day (tza t : Z) :
  let start := JSDate.Day (t + tza) * JSDate.msPerDay - tza in
  ~ (0 <= JSDate.YearFromTime (t + tza) <= 99) ->
  Z.abs start <= 8640000000000000 ->
  localMidnight tza (JSDate.mkDate (Num t)) = Num start.
Proof.
  intros start Hyear Hclip.
  unfold localMidnight, JSDate.getFullYear, JSDate.getMonth, JSDate.getDate,
    JSDate.newDate, JSDate.MakeFullYear, JSDate.LocalTime.
  simpl JSDate.getTime.
  replace ((0 <=? JSDate.YearFromTime (t + tza))
           && (JSDate.YearFromTime (t + tza) <=? 99)) with false
    by (symmetry; apply andb_false_iff; lia).
  rewrite JSDateFacts.MakeDay_inverse.
  unfold JSDate.MakeDate, JSDate.UTC, JSDate.TimeClip. rewrite Z.add_0_r.
  fold start.
  replace (8640000000000000 <? Z.abs start) with false
    by (symmetry; apply Z.ltb_ge; exact Hclip).
  reflexivity.
Qed.

Lemma startOfLocalDay_Day (tza t : Z) :
  startOfLocalDay tza t = JSDate.Day (t + tza) * JSDate.msPerDay - tza.
Proof.
  unfold startOfLocalDay, JSDate.Day, JSDate.msPerDay.
  pose proof (Z.div_mod (t + tza) 86400000 ltac:(discriminate)). lia.
Qed.

(** C1.  [filterAnnotationsByDate] keeps a record exactly when its day
    difference [dayDiff] satisfies [0 <= dayDiff <= notifyDaysBefore], or
    [dayDiff < 0] with [notifyPastDeadlines] set.  [dayDiff] is what
    [getDaysDifference] computes: the floor, in days of 86400000
    milliseconds, of the deadline's local calendar midnight minus the
    reference date's, where the local calendar midnight of a date is the time
    at which its local day begins (at or before the date, less than a day
    before it, the local clock showing 0:00).  With a window of 0 days and
    past deadlines off, a record with [dayDiff = 0] is kept and records with
    [dayDiff = 1] or [dayDiff = -1] are dropped; with past deadlines on, a
    record with [dayDiff = -30] is kept whatever the window. *)
Theorem filterAnnotationsByDate_window
    (tza : Z) (annotations : list DeadlineAnnotation) (config : ActionConfig)
    (today : JSDate.Date) :
  let kept := filterAnnotationsByDate tza annotations config today in
  let diff a := dayDiff tza (deadlineDate a) today in
  (forall a, getDaysDifference tza (deadlineDate a) today = diff a)
  /\ (forall a n,
        diff a = Num n
        <-> exists x y,
              localMidnight tza (deadlineDate a) = Num x
              /\ localMidnight tza today = Num y
              /\ n * 86400000 <= x - y < (n + 1) * 86400000)
  /\ (forall t,
        ~ (0 <= JSDate.YearFromTime (t + tza) <= 99) ->
        Z.abs (startOfLocalDay tza t) <= 8640000000000000 ->
        localMidnight tza (JSDate.mkDate (Num t)) = Num (startOfLocalDay tza t)
        /\ startOfLocalDay tza t <= t < startOfLocalDay tza t + 86400000
        /\ (startOfLocalDay tza t + tza) mod 86400000 = 0)
  /\ (forall a, In a kept <-> In a annotations /\ notifiable config (diff a))
  /\ (notifyDaysBefore config = Num 0 -> notifyPastDeadlines config = false ->
      forall a, In a annotations ->
        (diff a = Num 0 -> In a kept)
        /\ (diff a = Num 1 -> ~ In a kept)
        /\ (diff a = Num (-1) -> ~ In a kept))
  /\ (notifyPastDeadlines config = true ->
      forall a, In a annotations -> diff a = Num (-30) -> In a kept).
Proof.
  intros kept diff. subst kept diff. cbv beta.
  split; [intro a; apply getDaysDifference_dayDiff|].
  split; [intros a n; apply dayDiff_floor|].
  split.
  { intros t Hyear Hclip. split; [|split].
    - rewrite startOfLocalDay_Day in Hclip |- *.
      apply localMidnight_start_of_day; assumption.
    - unfold startOfLocalDay.
      pose proof (Z.mod_pos_bound (t + tza) 86400000 ltac:(reflexivity)). lia.
    - rewrite startOfLocalDay_Day. unfold JSDate.msPerDay.
      replace (JSDate.Day (t + tza) * 86400000 - tza + tza)
        with (JSDate.Day (t + tza) * 86400000) by lia.
      apply Z.mod_mul. discriminate. }
  split; [intro a; apply filterAnnotationsByDate_In|].
  split.
  - intros Hw Hp a Ha. repeat split.
    + intro Hd. apply filterAnnotationsByDate_In. split; [assumption|].
      left. rewrite Hd, Hw. simpl. lia.
    + intros Hd Hin. apply filterAnnotationsByDate_In in Hin.
      destruct Hin as [_ [[_ H]|[_ H]]].
      * rewrite Hd, Hw in H. simpl in H. lia.
      * congruence.
    + intros Hd Hin. apply filterAnnotationsByDate_In in Hin.
      destruct Hin as [_ [[H _]|[_ H]]].
      * rewrite Hd in H. simpl in H. lia.
      * congruence.
  - intros Hp a Ha Hd. apply filterAnnotationsByDate_In. split; [assumption|].
    right. rewrite Hd. simpl. split; [lia | assumption].
Qed.

(** The witness of C1: on 15 January 2025, 10:30 in Japan, the local
    midnight of the reference date is the start of that day; with a window of
    0 days and past deadlines off only the record due today is kept; with
    past deadlines on, the record due 30 days ago is kept as well. *)
Lemma filterAnnotationsByDate_window_witness :
  localMidnight Sample.JST Sample.today = Num 1736866800000
  /\ (In Sample.dueToday
        (filterAnnotationsByDate Sample.JST
           [Sample.dueLastMonth; Sample.dueToday; Sample.dueTomorrow;
            Sample.dueYesterday] Sample.config Sample.today)
      /\ ~ In Sample.dueTomorrow
           (filterAnnotationsByDate Sample.JST
              [Sample.dueLastMonth; Sample.dueToday; Sample.dueTomorrow;
               Sample.dueYesterday] Sample.config Sample.today)
      /\ ~ In Sample.dueYesterday
           (filterAnnotationsByDate Sample.JST
              [Sample.dueLastMonth; Sample.dueToday; Sample.dueTomorrow;
               Sample.dueYesterday] Sample.config Sample.today))
  /\ In Sample.dueLastMonth
       (filterAnnotationsByDate Sample.JST
          [Sample.dueLastMonth; Sample.dueToday; Sample.dueTomorrow;
           Sample.dueYesterday]
          (Sample.withPastDeadlines Sample.config) Sample.today).
Proof.
  pose proof (filterAnnotationsByDate_window Sample.JST
                [Sample.dueLastMonth; Sample.dueToday; Sample.dueTomorrow;
                 Sample.dueYesterday] Sample.config Sample.today) as Hoff.
  pose proof (filterAnnotationsByDate_window Sample.JST
                [Sample.dueLastMonth; Sample.dueToday; Sample.dueTomorrow;
                 Sample.dueYesterday] (Sample.withPastDeadlines Sample.config)
                Sample.today) as Hon.
  cbv zeta in Hoff, Hon.
  destruct Hoff as (_ & _ & Hstart & _ & Hoff & _).
  destruct Hon as (_ & _ & _ & _ & _ & Hon).
  specialize (Hoff eq_refl eq_refl).
  split; [|split; [split; [|split]|]].
  - destruct (Hstart (1736866800000 + 37800000)) as [Hmidnight _].
    + vm_compute. intros [_ H]. apply H. reflexivity.
    + vm_compute. discriminate.
    + change (startOfLocalDay Sample.JST (1736866800000 + 37800000))
        with 1736866800000 in Hmidnight.
      exact Hmidnight.
  - refine (proj1 (Hoff Sample.dueToday _) _);
      [simpl; tauto | vm_compute; reflexivity].
  - refine (proj1 (proj2 (Hoff Sample.dueTomorrow _)) _);
      [simpl; tauto | vm_compute; reflexivity].
  - refine (proj2 (proj2 (Hoff Sample.dueYesterday _)) _);
      [simpl; tauto | vm_compute; reflexivity].
  - refine (Hon eq_refl Sample.dueLastMonth _ _);
      [simpl; tauto | vm_compute; reflexivity].
Defined.

(* ================================================================= *)
(** ** Witnesses on the sample data *)

(** The witness of C10: what the filter keeps of four sample records. *)
Lemma filterAnnotationsByDate_sublist_witness :
  List.NoDup
    (filterAnnotationsByDate Sample.JST
       [Sample.dueLastMonth; Sample.dueToday; Sample.dueTomorrow; Sample.dueYesterday]
       (Sample.withPastDeadlines Sample.config) Sample.today).
Proof.
  apply (filterAnnotationsByDate_sublist Sample.JST
           [Sample.dueLastMonth; Sample.dueToday; Sample.dueTomorrow;
            Sample.dueYesterday]
           (Sample.withPastDeadlines Sample.config) Sample.today).
  repeat constructor; simpl; intuition discriminate.
Defined.

(** The witness of C2: forty copies of a record give fewer than forty groups
    and a trailing notice for the records left out. *)
Lemma buildSlackMessage_budget_witness :
  exists k shownBlocks,
    (k < 40)%nat
    /\ blocks (buildSlackMessage Sample.JST (repeat Sample.dueToday 40)
                 Sample.config Sample.today)
       = Some (shownBlocks ++ [moreNotice en (40 - k)])%list.
Proof.
  destruct (buildSlackMessage_budget Sample.JST (repeat Sample.dueToday 40)
              Sample.config Sample.today) as (k & Hk).
  - discriminate.
  - cbv zeta in Hk. destruct Hk as (_ & _ & _ & _ & _ & _ & _ & H40).
    destruct (H40 eq_refl) as (Hlt & shownBlocks & Hshown).
    exists k, shownBlocks. split; [exact Hlt | exact Hshown].
Defined.

(** Forty copies of a record that has a description: five groups of five
    blocks are shown after the three blocks of the preamble, and the notice
    counts the other 35 records. *)
Example forty_records_message :
  let message :=
    buildSlackMessage Sample.JST (repeat Sample.dueToday 40) Sample.config
      Sample.today in
  length (blocksOf message) = 29%nat
  /\ firstn 3 (blocksOf message)
     = [ mkBlock "header"
           (Some (mkText "plain_text" "Deadline Reminder" (Some true))) None;
         mkBlock "section"
           (Some (mkText "mrkdwn" "40 deadline(s) found" None)) None;
         mkBlock "divider" None None ]
  /\ List.last (blocksOf message) rule
     = mkBlock "section"
         (Some (mkText "mrkdwn" "...and 35 more deadline(s)" None)) None.
Proof. vm_compute. repeat split; reflexivity. Qed.

(* ================================================================= *)
(** ** The derived calendar date *)

(** The constructor reads a year from 0 to 99 as a year of the twentieth
    century, so such a triple does not format as it was written. *)
Example two_digit_year :
  formatDate 0 (JSDate.newDate 0 (Num 50) (num_sub (Num 3) (Num 1)) (Num 5))
  = "1950-03-05".
Proof. vm_compute. reflexivity. Qed.

(** Outside the two-digit years the date formats as its year, unpadded, and
    its zero-padded month and day. *)
Lemma formatDate_newDate (tza y m d : Z) :
  - JSDate.msPerDay <= tza <= JSDate.msPerDay ->
  y < 0 \/ 100 <= y -> -250000 <= y <= 250000 ->
  1 <= m <= 12 -> 1 <= d <= DaysInMonth y m ->
  formatDate tza (JSDate.newDate tza (Num y) (num_sub (Num m) (Num 1)) (Num d))
  = Z_toString y ++ "-" ++ twoDigits m ++ "-" ++ twoDigits d.
Proof.
  intros Htz Hy Hrange Hm Hd.
  destruct (JSDateFacts.newDate_fields tza Htz y m d Hy Hrange Hm Hd)
    as (_ & Hyear & Hmonth & Hdate).
  unfold formatDate. simpl num_sub. rewrite Hyear, Hmonth, Hdate.
  simpl num_add. simpl toString.
  replace (m - 1 + 1) with m by lia.
  assert (Hd31 : 0 <= d <= 31).
  { unfold DaysInMonth in Hd. repeat case_match; lia. }
  rewrite !twoDigits_padLeft by lia.
  reflexivity.
Qed.

(** C9.  For every valid year/month/day triple the date constructed from it,
    [new Date(year, month - 1, day)], formats as YYYY-MM-DD with the month and
    the day zero-padded, in every time zone; so does the [deadlineDate] of
    every record the scanner creates with such a triple; the triple
    (2024, 3, 5) formats as 2024-03-05. *)
Theorem formatDate_iso (tza y m d : Z) :
  - JSDate.msPerDay <= tza <= JSDate.msPerDay ->
  validTriple y m d ->
  formatDate tza (JSDate.newDate tza (Num y) (num_sub (Num m) (Num 1)) (Num d))
  = isoDate y m d
  /\ (forall fileName content r,
        In r (annotations (parseContent tza fileName content)) ->
        year r = Num y -> month r = Num m -> day r = Num d ->
        formatDate tza (deadlineDate r) = isoDate y m d)
  /\ isoDate 2024 3 5 = "2024-03-05".
Proof.
  intros Htz (Hy & Hm & Hd).
  assert (Hiso :
    formatDate tza (JSDate.newDate tza (Num y) (num_sub (Num m) (Num 1)) (Num d))
    = isoDate y m d).
  { rewrite formatDate_newDate by (assumption || lia).
    rewrite fourDigits_toString by exact Hy. reflexivity. }
  split; [exact Hiso|]. split; [|reflexivity].
  intros fileName content r Hr Hry Hrm Hrd.
  rewrite (parseContent_deadlineDate tza fileName content r Hr), Hry, Hrm, Hrd.
  exact Hiso.
Qed.

(** The witness of C9: 5 March 2024 in Japan Standard Time. *)
Lemma formatDate_iso_witness :
  formatDate Sample.JST
    (JSDate.newDate Sample.JST (Num 2024) (num_sub (Num 3) (Num 1)) (Num 5))
  = "2024-03-05".
Proof.
  refine (proj1 (formatDate_iso Sample.JST 2024 3 5 _ _)).
  - vm_compute. split; discriminate.
  - vm_compute. repeat split; discriminate.
Defined.
